(** * isobmff / mp4toflv: a shallow embedding and its verification

    The development follows the three source files:
    - [isobmff.h]: big-endian primitives, the box classes, their [parse] and
      [write] methods, and the sample-table accessors;
    - [flv.h]: the FLV header and tag-header writers;
    - [mp4toflv.cpp]: the remux loop of [main].

    Conventions.  Fixed-width unsigned integers are [Z] with the wrap-around
    written out ([u8], [u32], [u64]; [size_t] is 64 bits wide).  Bytes
    are [byte]; vectors of bytes are [list byte].  Behaviour that C++ leaves
    undefined or that ends the program becomes an error of type [err]. *)

From Stdlib Require Import String.
From Stdlib Require Import ZArith Znumtheory List Lia Bool.
From coqutil Require Import Byte.
Import ListNotations.
Local Open Scope Z_scope.

(** Bytes are the 256 constructors of [Init.Byte.byte]; [byte.unsigned] and
    [byte.of_Z] convert from and to [Z]. *)
Abbreviation byte := Init.Byte.byte.
Set Warnings "-register-all".

(** ** Errors *)

Inductive err : Type :=
| OutOfRange    (* operator[] or string access past the end of the storage *)
| DivByZero     (* unsigned division by zero *)
| AllocFailure  (* vector::resize beyond max_size: length_error / bad_alloc *)
| IntOverflow   (* an int computation outside the range of int *)
| NullPointer   (* a box that findByType did not find is used *)
| OutOfFuel.    (* the model's step budget ran out: the loop did not finish *)

Inductive res (A : Type) : Type :=
| Ok (a : A)
| Err (e : err).
Arguments Ok {A} a.
Arguments Err {A} e.

Definition bind {A B : Type} (m : res A) (k : A -> res B) : res B :=
  match m with
  | Ok a => k a
  | Err e => Err e
  end.

Notation "x <- m ;; k" := (bind m (fun x => k))
  (at level 61, m at next level, right associativity).
Notation "' p <- m ;; k" := (bind m (fun x => match x with p => k end))
  (at level 61, p pattern, m at next level, right associativity).

(** ** Fixed-width integers *)

Definition u8 (z : Z) : Z := z mod 2 ^ 8.
Definition u32 (z : Z) : Z := z mod 2 ^ 32.
Definition u64 (z : Z) : Z := z mod 2 ^ 64.

(** A [uint32_t] converted to [int]. *)
Definition s32 (z : Z) : Z :=
  if u32 z <? 2 ^ 31 then u32 z else u32 z - 2 ^ 32.

(** The result of an [int] computation: outside the range of [int] the
    behaviour is undefined. *)
Definition int_result (z : Z) : res Z :=
  if (- 2 ^ 31 <=? z) && (z <? 2 ^ 31) then Ok z else Err IntOverflow.

(** [(b0 << 24) | (b1 << 16) | (b2 << 8) | b3] converted to [uint32_t]. *)
Definition be32 (b0 b1 b2 b3 : Z) : Z :=
  u32 (Z.lor (Z.lor (Z.lor (Z.shiftl b0 24) (Z.shiftl b1 16)) (Z.shiftl b2 8)) b3).

(** [(b0 << 8) | b1] converted to [uint16_t]. *)
Definition be16 (b0 b1 : Z) : Z :=
  (Z.lor (Z.shiftl b0 8) b1) mod 2 ^ 16.

(** ** FullBufBox: a full box that keeps its payload in [buf] *)

Record FullBufBox : Type := mkFullBufBox {
  fb_type : list byte;
  fb_size : Z;
  fb_version : Z;
  fb_flags : Z;
  fb_buf : list byte
}.

(** [buf[pos]]; an index outside the vector is undefined behaviour. *)
Definition vec_at (buf : list byte) (pos : Z) : res Z :=
  if pos <? 0 then Err OutOfRange
  else match nth_error buf (Z.to_nat pos) with
       | Some x => Ok (byte.unsigned x)
       | None => Err OutOfRange
       end.

(** The accessors take an [int] position and add to it as [int]. *)
Definition ui8 (b : FullBufBox) (pos : Z) : res Z := vec_at (fb_buf b) pos.

Definition ui32 (b : FullBufBox) (pos : Z) : res Z :=
  _ <- int_result (pos + 3) ;;
  b0 <- vec_at (fb_buf b) pos ;;
  b1 <- vec_at (fb_buf b) (pos + 1) ;;
  b2 <- vec_at (fb_buf b) (pos + 2) ;;
  b3 <- vec_at (fb_buf b) (pos + 3) ;;
  Ok (be32 b0 b1 b2 b3).

Definition ui16 (b : FullBufBox) (pos : Z) : res Z :=
  _ <- int_result (pos + 1) ;;
  b0 <- vec_at (fb_buf b) pos ;;
  b1 <- vec_at (fb_buf b) (pos + 1) ;;
  Ok (be16 b0 b1).

(** [uint64_t h = ui32(pos); return h | ui32(pos+4);] *)
Definition ui64 (b : FullBufBox) (pos : Z) : res Z :=
  h <- ui32 b pos ;;
  p <- int_result (pos + 4) ;;
  l <- ui32 b p ;;
  Ok (Z.lor h l).

(** ** BoxMDHD *)

Module BoxMDHD.
Definition created (b : FullBufBox) : res Z :=
  if fb_version b =? 0 then ui32 b 0 else ui64 b 0.
Definition modified (b : FullBufBox) : res Z :=
  if fb_version b =? 0 then ui32 b 4 else ui64 b 8.
Definition timeScale (b : FullBufBox) : res Z :=
  if fb_version b =? 0 then ui32 b (4 * 2) else ui32 b (8 * 2).
Definition duration (b : FullBufBox) : res Z :=
  if fb_version b =? 0 then ui32 b (4 * 2 + 4) else ui64 b (8 * 2 + 4).
End BoxMDHD.

(** ** BoxTKHD *)

Module BoxTKHD.
Definition width (b : FullBufBox) : res Z :=
  if fb_version b =? 0 then ui32 b (4 * 3 + 4 * 15) else ui32 b (8 * 3 + 4 * 15).
Definition height (b : FullBufBox) : res Z :=
  if fb_version b =? 0 then ui32 b (4 * 3 + 4 * 16) else ui32 b (8 * 3 + 4 * 16).
End BoxTKHD.

(** ** BoxSTSC: the chunk-run table *)

Module BoxSTSC.
Definition count (b : FullBufBox) : res Z := ui32 b 0.
(** [n] is an [int], and so is the position computed from it. *)
Definition first (b : FullBufBox) (n : Z) : res Z :=
  m <- int_result (n * 12) ;;
  p <- int_result (4 + m) ;;
  ui32 b p.
Definition spc (b : FullBufBox) (n : Z) : res Z :=
  m <- int_result (n * 12) ;;
  p <- int_result (4 + m) ;;
  p <- int_result (p + 4) ;;
  ui32 b p.

(** The body of the [for] loop, [k] iterations left, run index [i] (a
    [uint32_t], passed to [first] and [spc] as [int]).  The result is the
    value of [ch] when the loop is left, by [break] or by [i] reaching
    [c]. *)
Fixpoint sampleToChunk_loop (b : FullBufBox) (n : Z) (k : nat) (i : Z)
         (ofs ch lch lspc : Z) : res Z :=
  match k with
  | O => Ok ch
  | S k' =>
      f <- first b (s32 i) ;;
      let ofs := u32 (ofs + u32 (u32 (f - lch) * lspc)) in
      if u32 n <? ofs then Ok ch
      else
        s <- spc b (s32 i) ;;
        if s =? 0 then Err DivByZero
        else
          let ch := u32 (f + u32 (u32 n - ofs) / s) in
          sampleToChunk_loop b n k' (i + 1) ofs ch f s
  end.

(** [n] is an [int]; it is compared and subtracted as [uint32_t]. *)
Definition sampleToChunk (b : FullBufBox) (n : Z) : res Z :=
  c <- count b ;;
  ch <- sampleToChunk_loop b n (Z.to_nat c) 0 0 1 1 1 ;;
  Ok (u32 (ch - 1)).
End BoxSTSC.

(** ** BoxSTTS: the decode-time run table *)

Module BoxSTTS.
Definition count (b : FullBufBox) : res Z := ui32 b 0.
(** [n] is a [uint32_t]: the position is computed modulo 2^32 and then
    passed as [int]. *)
Definition count_at (b : FullBufBox) (n : Z) : res Z :=
  ui32 b (s32 (u32 (4 + u32 (n * 8)))).
Definition delta (b : FullBufBox) (n : Z) : res Z :=
  ui32 b (s32 (u32 (u32 (4 + u32 (n * 8)) + 4))).

(** [n] and the two products are [uint32_t]; only [t] is [uint64_t]. *)
Fixpoint sampleToTime_loop (b : FullBufBox) (k : nat) (i n t : Z) : res Z :=
  match k with
  | O => Ok t
  | S k' =>
      c <- count_at b i ;;
      d <- delta b i ;;
      if n <? c then Ok (u64 (t + u32 (n * d)))
      else sampleToTime_loop b k' (i + 1) (u32 (n - c)) (u64 (t + u32 (c * d)))
  end.

Definition sampleToTime (b : FullBufBox) (n : Z) : res Z :=
  c <- count b ;;
  sampleToTime_loop b (Z.to_nat c) 0 (u32 n) 0.
End BoxSTTS.

(** ** BoxCTTS, BoxSTCO, BoxSTSZ, BoxSTSD *)

Module BoxCTTS.
Definition count (b : FullBufBox) : res Z := ui32 b 0.
Definition count_at (b : FullBufBox) (n : Z) : res Z :=
  ui32 b (s32 (u32 (4 + u32 (8 * n)))).
Definition offset (b : FullBufBox) (n : Z) : res Z :=
  ui32 b (s32 (u32 (u32 (4 + u32 (8 * n)) + 4))).

Fixpoint sampleToOffset_loop (b : FullBufBox) (n : Z) (k : nat) (i ofs s : Z)
  : res Z :=
  match k with
  | O => Ok ofs
  | S k' =>
      ofs <- offset b i ;;
      c <- count_at b i ;;
      let s := u32 (s + c) in
      if u32 n <? s then Ok ofs
      else sampleToOffset_loop b n k' (i + 1) ofs s
  end.

Definition sampleToOffset (b : FullBufBox) (n : Z) : res Z :=
  c <- count b ;;
  sampleToOffset_loop b n (Z.to_nat c) 0 0 0.
End BoxCTTS.

Module BoxSTCO.
Definition count (b : FullBufBox) : res Z := ui32 b 0.
Definition offset (b : FullBufBox) (pos : Z) : res Z :=
  m <- int_result (pos * 4) ;;
  p <- int_result (4 + m) ;;
  ui32 b p.
End BoxSTCO.

Module BoxSTSZ.
Definition constantSize (b : FullBufBox) : res Z := ui32 b 0.
Definition count (b : FullBufBox) : res Z := ui32 b 4.
Definition size (b : FullBufBox) (pos : Z) : res Z :=
  m <- int_result (pos * 4) ;;
  p <- int_result (8 + m) ;;
  ui32 b p.
End BoxSTSZ.


Module BoxSTSD.
Definition count (b : FullBufBox) : res Z := ui32 b 0.
Definition type (b : FullBufBox) : res Z := ui32 b 8.

(** [std::string((char* )&buf[pos], len)]: [len] bytes starting at [pos];
    reading past the vector is undefined behaviour. *)
Definition substring (buf : list byte) (pos len : Z) : res (list byte) :=
  if (0 <=? pos) && (0 <=? len) && (pos + len <=? Z.of_nat (length buf))
  then Ok (firstn (Z.to_nat len) (skipn (Z.to_nat pos) buf))
  else Err OutOfRange.

Definition typeAsString (b : FullBufBox) : res (list byte) :=
  substring (fb_buf b) 8 4.

(** The length [ui32(4) - 8] is a [uint32_t]. *)
Definition desc (b : FullBufBox) : res (list byte) :=
  l <- ui32 b 4 ;;
  substring (fb_buf b) 12 (u32 (l - 8)).
End BoxSTSD.

(** ** Output: big-endian writers over an output stream *)

(** An output stream: the bytes written so far and its failure flag.  A
    write on a failed stream does nothing. *)
Record ostream : Type := mkOstream {
  os_bytes : list byte;
  os_failed : bool
}.

Definition os_write (os : ostream) (bs : list byte) : ostream :=
  if os_failed os then os
  else mkOstream (os_bytes os ++ bs) false.

(** [tellp]: the write position, or -1 on a failed stream. *)
Definition tellp (os : ostream) : Z :=
  if os_failed os then -1 else Z.of_nat (length (os_bytes os)).

(** Each element of [char buf[] = {d >> 24, ...}] keeps the low 8 bits. *)
Definition bytes8 (d : Z) : list byte := [byte.of_Z d].
Definition bytes24 (d : Z) : list byte :=
  [byte.of_Z (Z.shiftr d 16); byte.of_Z (Z.shiftr d 8); byte.of_Z d].
Definition bytes32 (d : Z) : list byte :=
  [byte.of_Z (Z.shiftr d 24); byte.of_Z (Z.shiftr d 16);
   byte.of_Z (Z.shiftr d 8); byte.of_Z d].

Definition write8 (os : ostream) (d : Z) : ostream := os_write os (bytes8 (u8 d)).
Definition write24 (os : ostream) (d : Z) : ostream := os_write os (bytes24 (u32 d)).
Definition write32 (os : ostream) (d : Z) : ostream := os_write os (bytes32 (u32 d)).

(** [write64]: the high word, then the low word. *)
Definition write64 (os : ostream) (d : Z) : ostream :=
  let os := write32 os (Z.shiftr (u64 d) 32) in
  write32 os (u64 d).

(** ** Input: a seekable input stream with its state flags *)

Record istream : Type := mkIstream {
  is_data : list byte;
  is_pos : Z;
  is_eofbit : bool;
  is_failbit : bool
}.

Definition good (s : istream) : bool := negb (is_eofbit s) && negb (is_failbit s).

Definition set_fail (s : istream) : istream :=
  mkIstream (is_data s) (is_pos s) (is_eofbit s) true.

(** The sentry every unformatted input function builds first: a stream
    that is not good gets [failbit]. *)
Definition sentry (s : istream) : istream :=
  if good s then s else set_fail s.

(** [is.read(dst, n)]: the bytes obtained and the stream afterwards.  Fewer
    than [n] bytes before the end of the data set [eofbit] and [failbit]. *)
Definition read (n : Z) (s : istream) : list byte * istream :=
  let s := sentry s in
  if is_failbit s then ([], s)
  else
    let got := firstn (Z.to_nat n) (skipn (Z.to_nat (is_pos s)) (is_data s)) in
    let pos' := is_pos s + Z.of_nat (length got) in
    if Z.of_nat (length got) <? n
    then (got, mkIstream (is_data s) pos' true true)
    else (got, mkIstream (is_data s) pos' false false).

(** [tellg]: -1 when the stream has failed. *)
Definition tellg (s : istream) : Z * istream :=
  let s := sentry s in
  if is_failbit s then (-1, s) else (is_pos s, s).

(** [seekg] to an absolute offset (a signed 64-bit [streamoff]): clears
    [eofbit], then seeks unless the stream has failed; a negative offset
    fails, an offset past the end of the file is accepted. *)
Definition seekg (off : Z) (s : istream) : istream :=
  let s := sentry (mkIstream (is_data s) (is_pos s) false (is_failbit s)) in
  if is_failbit s then s
  else if off <? 0 then set_fail s
  else mkIstream (is_data s) off false false.

(** [ifs.clear()] *)
Definition clear (s : istream) : istream :=
  mkIstream (is_data s) (is_pos s) false false.

(** A [size_t] reinterpreted as a signed 64-bit offset. *)
Definition s64 (z : Z) : Z :=
  if u64 z <? 2 ^ 63 then u64 z else u64 z - 2 ^ 64.

(** Bytes that [read] did not deliver keep what the destination held: for
    a local array that is unspecified (taken as 0 here), for a vector it is
    the vector's previous content. *)
Definition byte_or0 (l : list byte) (i : nat) : Z :=
  match nth_error l i with
  | Some x => byte.unsigned x
  | None => 0
  end.

Definition overwrite (dst got : list byte) : list byte :=
  got ++ skipn (length got) dst.

Definition read8 (s : istream) : Z * istream :=
  let '(got, s) := read 1 s in (byte_or0 got 0, s).

Definition read24 (s : istream) : Z * istream :=
  let '(got, s) := read 3 s in
  (u32 (Z.lor (Z.lor (Z.shiftl (byte_or0 got 0) 16) (Z.shiftl (byte_or0 got 1) 8))
              (byte_or0 got 2)), s).

Definition read32 (s : istream) : Z * istream :=
  let '(got, s) := read 4 s in
  (be32 (byte_or0 got 0) (byte_or0 got 1) (byte_or0 got 2) (byte_or0 got 3), s).

Definition read64 (s : istream) : Z * istream :=
  let '(h, s) := read32 s in
  let '(l, s) := read32 s in
  (Z.lor (u64 (Z.shiftl h 32)) l, s).

(** [read16] takes the low byte first: [(buf[1] << 8) | buf[0]]. *)
Definition read16 (s : istream) : Z * istream :=
  let '(got, s) := read 2 s in
  ((Z.lor (Z.shiftl (byte_or0 got 1) 8) (byte_or0 got 0)) mod 2 ^ 16, s).

(** [seekg(off, std::ios_base::cur)]: the same, relative to the read
    position. *)
Definition seekg_cur (off : Z) (s : istream) : istream :=
  let s := sentry (mkIstream (is_data s) (is_pos s) false (is_failbit s)) in
  if is_failbit s then s
  else if is_pos s + off <? 0 then set_fail s
  else mkIstream (is_data s) (is_pos s + off) false false.

(** [vector::resize(n)] on a [vector<uint8_t>]: keeps the first [n]
    elements, fills with zeros, and throws when [n] exceeds [max_size]. *)
Definition vec_resize (v : list byte) (n : Z) : res (list byte) :=
  if 2 ^ 63 <=? n then Err AllocFailure
  else Ok (firstn (Z.to_nat n) v ++ repeat Byte.x00 (Z.to_nat n - length v)).

(** [is.read(&v[0], n)] into a vector. *)
Definition read_into (v : list byte) (n : Z) (s : istream) : list byte * istream :=
  let '(got, s) := read n s in (overwrite v got, s).

(** ** The box tree *)

(** One constructor per class of the source.  [BoxLeaf] stands for the ten
    subclasses of [FullBufBox] (mdhd, tkhd, hdlr, stsc, stsd, stss, stsz,
    stco, stts, ctts), which differ only in their accessors.  The elements
    of [BoxFTYP::compat] are kept as their four bytes in memory order: the
    source copies them in and out and never reads them as numbers. *)
Inductive Box : Type :=
| BoxFTYP (size : Z) (major : list byte) (minor : Z) (compat : list (list byte))
| BoxFREE (size : Z) (body : list byte)
| BoxMVHD (size version flags created modified timeScale duration rate volume : Z)
          (buf : list byte)
| BoxLeaf (b : FullBufBox)
| BoxSimpleList (type : list byte) (size : Z) (children : list Box)
| UnknownBoxRef (type : list byte) (size : Z) (offset : Z)
| UnknownBox (type : list byte) (size : Z) (body : list byte).

Definition tag (s : String.string) : list byte := String.list_byte_of_string s.
Arguments tag s%_string.

Definition BOX_FTYP := tag "ftyp".
Definition BOX_FREE := tag "free".
Definition BOX_MOOV := tag "moov".
Definition BOX_MVHD := tag "mvhd".
Definition BOX_MDIA := tag "mdia".
Definition BOX_MDHD := tag "mdhd".
Definition BOX_MINF := tag "minf".
Definition BOX_HDLR := tag "hdlr".
Definition BOX_STCO := tag "stco".
Definition BOX_STSC := tag "stsc".
Definition BOX_STSD := tag "stsd".
Definition BOX_STTS := tag "stts".
Definition BOX_STSZ := tag "stsz".
Definition BOX_STSS := tag "stss".
Definition BOX_STBL := tag "stbl".
Definition BOX_CTTS := tag "ctts".
Definition BOX_TRAK := tag "trak".
Definition BOX_TKHD := tag "tkhd".
Definition BOX_UDTA := tag "udta".
Definition BOX_DTS := tag "dts" ++ [Byte.x00].

(** [memcmp(t1, t2, 4) == 0] *)
Definition chktype (t1 t2 : list byte) : bool :=
  if list_eq_dec Byte.byte_eq_dec (firstn 4 t1) (firstn 4 t2) then true else false.

Definition has_child (type : list byte) : bool :=
  chktype type BOX_MOOV || chktype type BOX_TRAK || chktype type BOX_DTS
  || chktype type BOX_MDIA || chktype type BOX_MINF || chktype type BOX_STBL
  || chktype type BOX_UDTA.

Definition box_type (b : Box) : list byte :=
  match b with
  | BoxFTYP _ _ _ _ => BOX_FTYP
  | BoxFREE _ _ => BOX_FREE
  | BoxMVHD _ _ _ _ _ _ _ _ _ _ => BOX_MVHD
  | BoxLeaf l => fb_type l
  | BoxSimpleList t _ _ => t
  | UnknownBoxRef t _ _ => t
  | UnknownBox t _ _ => t
  end.

Definition box_size (b : Box) : Z :=
  match b with
  | BoxFTYP sz _ _ _ => sz
  | BoxFREE sz _ => sz
  | BoxMVHD sz _ _ _ _ _ _ _ _ _ => sz
  | BoxLeaf l => fb_size l
  | BoxSimpleList _ sz _ => sz
  | UnknownBoxRef _ sz _ => sz
  | UnknownBox _ sz _ => sz
  end.

(** ** Decoding *)

(** [BoxFTYP::parse].  The loop bound [(size-16)/4] is a [size_t]; for
    [size < 16] it wraps to about 2^62, out of reach of the [int] counter
    [i], while every iteration grows [compat]. *)
Fixpoint ftyp_compat (k : nat) (s : istream) (compat : list (list byte))
  : list (list byte) * istream :=
  match k with
  | O => (compat, s)
  | S k' =>
      let '(w, s) := read_into (repeat Byte.x00 4) 4 s in
      ftyp_compat k' s (compat ++ [w])
  end.

Definition BoxFTYP_parse (sz : Z) (s : istream) : res (Box * istream) :=
  let '(p, s) := tellg s in
  let pos := u64 p in
  let '(major, s) := read_into (repeat Byte.x00 4) 4 s in
  let '(minor, s) := read32 s in
  if sz <? 16 then Err IntOverflow
  else
    let '(compat, s) := ftyp_compat (Z.to_nat ((sz - 16) / 4)) s [] in
    Ok (BoxFTYP sz major minor compat, seekg (s64 (pos + sz - 8)) s).

Definition BoxFREE_parse (sz : Z) (s : istream) : res (Box * istream) :=
  body <- vec_resize [] (u64 (sz - 8)) ;;
  let '(body, s) := read_into body (u64 (sz - 8)) s in
  Ok (BoxFREE sz body, s).

(** [BoxMVHD::parse].  With a version other than 0 the method returns
    after the version and flags; the six fields stay uninitialised (kept as
    0 here) and [buf] stays empty. *)
Definition BoxMVHD_parse (sz : Z) (s : istream) : res (Box * istream) :=
  let '(_, s) := tellg s in
  let '(version, s) := read8 s in
  let '(flags, s) := read24 s in
  if negb (version =? 0) then Ok (BoxMVHD sz version flags 0 0 0 0 0 0 [], s)
  else
    let '(created, s) := read32 s in
    let '(modified, s) := read32 s in
    let '(timeScale, s) := read32 s in
    let '(duration, s) := read32 s in
    let '(rate, s) := read32 s in
    let '(volume, s) := read32 s in
    buf <- vec_resize [] (u64 (sz - (8 + 4 + 4 * 6))) ;;
    let '(buf, s) := read_into buf (u64 (sz - (8 + 4 + 4 * 6))) s in
    Ok (BoxMVHD sz version flags created modified timeScale duration rate volume buf, s).

(** The constructor of [FullBufBox] followed by [FullBufBox::parse]. *)
Definition FullBufBox_parse (type : list byte) (sz : Z) (s : istream)
  : res (Box * istream) :=
  buf <- vec_resize [] (u64 (sz - 12)) ;;
  let '(version, s) := read8 s in
  let '(flags, s) := read24 s in
  let '(buf, s) := read_into buf (u64 (sz - 12)) s in
  Ok (BoxLeaf (mkFullBufBox type sz version flags buf), s).

Definition UnknownBoxRef_parse (type : list byte) (sz : Z) (s : istream)
  : res (Box * istream) :=
  let '(offset, s) := tellg s in
  let pos := u64 offset in
  Ok (UnknownBoxRef type sz offset, seekg (s64 (pos + sz - 8)) s).

Definition UnknownBox_parse (type : list byte) (sz : Z) (s : istream)
  : res (Box * istream) :=
  body <- vec_resize [] (u64 (sz - 8)) ;;
  let '(body, s) := read_into body (u64 (sz - 8)) s in
  Ok (UnknownBox type sz body, s).

Definition full_buf_types : list (list byte) :=
  [BOX_MDHD; BOX_TKHD; BOX_HDLR; BOX_STSC; BOX_STSD; BOX_STSS; BOX_STSZ;
   BOX_STCO; BOX_STTS; BOX_CTTS].

(** [BoxSimpleList::createBox]; [list_parse] is [BoxSimpleList::parse] of
    the new container. *)
Definition createBox
           (list_parse : list byte -> Z -> istream -> res (Box * istream))
           (boxtype : list byte) (sz : Z) (s : istream) : res (Box * istream) :=
  if chktype boxtype BOX_FTYP then BoxFTYP_parse sz s
  else if chktype boxtype BOX_FREE then BoxFREE_parse sz s
  else if chktype boxtype BOX_MVHD then BoxMVHD_parse sz s
  else match find (chktype boxtype) full_buf_types with
       | Some t => FullBufBox_parse t sz s
       | None =>
           if has_child boxtype then list_parse boxtype sz s
           else if 1024 * 1024 * 10 <? sz then UnknownBoxRef_parse boxtype sz s
           else UnknownBox_parse boxtype sz s
       end.

(** [BoxSimpleList::parse] around its [while] loop. *)
Definition BoxSimpleList_parse
           (loop : Z -> istream -> list Box -> res (list Box * istream))
           (type : list byte) (size : Z) (s : istream) : res (Box * istream) :=
  let '(p, s) := tellg s in
  let pos := u64 (u64 p + size - 8) in
  '(children, s) <- loop pos s [] ;;
  Ok (BoxSimpleList type size children, seekg (s64 pos) s).

(** The [while (is.tellg() < pos)] loop.  Every iteration and every nested
    container takes one unit of [fuel]. *)
Fixpoint parse_children (fuel : nat) (pos : Z) (s : istream) (children : list Box)
  : res (list Box * istream) :=
  match fuel with
  | O => Err OutOfFuel
  | S fuel' =>
      let '(p, s) := tellg s in
      if u64 p <? pos then
        let '(sz, s) := read32 s in
        let '(type, s) := read_into (repeat Byte.x00 4) 4 s in
        if is_eofbit s then Ok (children, s)
        else
          '(b, s) <- createBox (BoxSimpleList_parse (parse_children fuel')) type sz s ;;
          parse_children fuel' pos s (children ++ [b])
      else Ok (children, s)
  end.

(** [Mp4Root]: a [BoxSimpleList] of type ROOT and size 0x7fffffff. *)
Definition Mp4Root_parse (fuel : nat) (s : istream) : res (Box * istream) :=
  BoxSimpleList_parse (parse_children fuel) (tag "ROOT") 2147483647 s.

(** ** Encoding *)

(** [os.write((char* )&v[0], n)]: the first [n] bytes of a vector; a count
    beyond its length reads past the storage. *)
Definition write_vec (os : ostream) (v : list byte) (n : Z) : res ostream :=
  if n <=? Z.of_nat (length v) then Ok (os_write os (firstn (Z.to_nat n) v))
  else Err OutOfRange.

(** [Box::write]: size and type (the children follow, see [write]). *)
Definition Box_write (size : Z) (type : list byte) (os : ostream) : ostream :=
  os_write (write32 os size) (firstn 4 type).

(** [FullBox::write] *)
Definition FullBox_write (size : Z) (type : list byte) (version flags : Z)
           (os : ostream) : ostream :=
  write24 (write8 (Box_write size type os) version) flags.

(** The virtual [write] of each class.  [UnknownBoxRef::write] has an empty
    body in the source. *)
Fixpoint write (b : Box) (os : ostream) : res ostream :=
  match b with
  | BoxFTYP size major minor compat =>
      Ok (os_write (write32 (os_write (Box_write size BOX_FTYP os) (firstn 4 major)) minor)
                   (concat compat))
  | BoxFREE size body =>
      let os := Box_write size BOX_FREE os in
      if 8 <? size then write_vec os body (u64 (size - 8)) else Ok os
  | BoxMVHD size version flags created modified timeScale duration rate volume buf =>
      let os := FullBox_write size BOX_MVHD version flags os in
      let os := write32 os created in
      let os := write32 os modified in
      let os := write32 os timeScale in
      let os := write32 os duration in
      let os := write32 os rate in
      let os := write32 os volume in
      Ok (os_write os buf)
  | BoxLeaf l =>
      let os := FullBox_write (fb_size l) (fb_type l) (fb_version l) (fb_flags l) os in
      if 8 <? fb_size l then write_vec os (fb_buf l) (u64 (fb_size l - 12)) else Ok os
  | BoxSimpleList type size children =>
      (fix write_all (cs : list Box) (os : ostream) : res ostream :=
         match cs with
         | [] => Ok os
         | c :: cs' => os <- write c os ;; write_all cs' os
         end) children (Box_write size type os)
  | UnknownBoxRef _ _ _ => Ok os
  | UnknownBox type size body =>
      let os := Box_write size type os in
      if 8 <? size then write_vec os body (u64 (size - 8)) else Ok os
  end.

Fixpoint write_children (cs : list Box) (os : ostream) : res ostream :=
  match cs with
  | [] => Ok os
  | c :: cs' => os <- write c os ;; write_children cs' os
  end.

(** [Mp4Root::write]: the children only. *)
Definition Mp4Root_write (children : list Box) (os : ostream) : res ostream :=
  write_children children os.

(** [Box::findByType]: pre-order, first match. *)
Fixpoint findByType (b : Box) (n : list byte) : option Box :=
  if chktype (box_type b) n then Some b
  else match b with
       | BoxSimpleList _ _ children =>
           (fix first_in (cs : list Box) : option Box :=
              match cs with
              | [] => None
              | c :: cs' => match findByType c n with
                            | Some r => Some r
                            | None => first_in cs'
                            end
              end) children
       | _ => None
       end.

(** [Box::findAllByType]: every match in pre-order, the node before its
    descendants; [out] is the vector the matches are pushed to. *)
Fixpoint findAllByType (b : Box) (n : list byte) (out : list Box) : list Box :=
  let out := if chktype (box_type b) n then out ++ [b] else out in
  match b with
  | BoxSimpleList _ _ children =>
      (fix all_in (cs : list Box) (out : list Box) : list Box :=
         match cs with
         | [] => out
         | c :: cs' => all_in cs' (findAllByType c n out)
         end) children out
  | _ => out
  end.

(** ** flv.h *)

Module flv.
Definition TAG_TYPE_AUDIO : Z := 8.
Definition TAG_TYPE_VIDEO : Z := 9.
Definition VCODEC_AVC : Z := 7.
Definition ACODEC_AAC : Z := 10.
Definition SOUND_SAMPLE_SIZE_16 : Z := 1.

Record FLVHeader : Type := mkFLVHeader {
  signature : list byte;
  version : Z;
  type_flags : Z;
  data_offset : Z
}.

Record FLVTagHeader : Type := mkFLVTagHeader {
  type : Z;
  size : Z;
  timestamp : Z;
  stream_id : Z
}.

(** [operator<<(ostream&, const FLVHeader&)] *)
Definition put_header (os : ostream) (fh : FLVHeader) : ostream :=
  let os := os_write os (firstn 3 (signature fh)) in
  let os := write8 os (version fh) in
  let os := write8 os (type_flags fh) in
  write32 os (data_offset fh).

(** [operator<<(ostream&, const FLVTagHeader&)] *)
Definition put_tag_header (os : ostream) (th : FLVTagHeader) : ostream :=
  let os := write8 os (type th) in
  let os := write24 os (size th) in
  let os := write24 os (timestamp th) in
  let os := write8 os (Z.shiftr (timestamp th) 24) in
  write24 os (stream_id th).

(** [parse(FLVHeader&, istream&)] *)
Definition parse_header (s : istream) : FLVHeader * istream :=
  let '(sig, s) := read_into (repeat Byte.x00 3) 3 s in
  let '(v, s) := read8 s in
  let '(f, s) := read8 s in
  let '(d, s) := read32 s in
  (mkFLVHeader sig v f d, s).

(** [parse(FLVTagHeader&, istream&)]: the fourth timestamp byte is or-ed in
    as bits 24 to 31. *)
Definition parse_tag_header (s : istream) : FLVTagHeader * istream :=
  let '(ty, s) := read8 s in
  let '(sz, s) := read24 s in
  let '(ts, s) := read24 s in
  let '(ext, s) := read8 s in
  let ts := u32 (Z.lor ts (Z.shiftl ext 24)) in
  let '(sid, s) := read24 s in
  (mkFLVTagHeader ty sz ts sid, s).

(** [skip_data]: moves the read position over the data of the tag. *)
Definition skip_data (th : FLVTagHeader) (s : istream) : Z * istream :=
  (s32 (size th), seekg_cur (size th) s).

(** [write_video]: sets [th.size] and writes the tag header, the video
    header and the data.  [codec] is a [uint8_t], [timeOffset] an [int]. *)
Definition write_video (os : ostream) (th : FLVTagHeader) (buf : list byte)
           (codec timeOffset : Z) (key header : bool) : FLVTagHeader * ostream :=
  let codec := u8 codec in
  let th := mkFLVTagHeader (type th)
              (u32 (Z.of_nat (length buf) + (if codec =? VCODEC_AVC then 5 else 1)))
              (timestamp th) (stream_id th) in
  let os := put_tag_header os th in
  let os := write8 os (Z.lor (if key then 16 else 32) codec) in
  let os := if codec =? VCODEC_AVC
            then write24 (write8 os (if header then 0 else 1)) timeOffset
            else os in
  (th, os_write os buf).

(** [audio_format]: codec, sound rate, sample size (always 16 bits) and the
    stereo flag packed into one byte. *)
Definition audio_format (codec channels sound_rate : Z) : Z :=
  let codec := u8 codec in
  let channels := u8 channels in
  let sound_rate := u8 sound_rate in
  let sample_size := SOUND_SAMPLE_SIZE_16 in
  u8 (Z.lor (Z.lor (Z.lor (Z.shiftl codec 4) (Z.shiftl sound_rate 2))
                   (Z.shiftl sample_size 1))
            (if channels =? 2 then 1 else 0)).

(** [write_audio]; [aformat] is a [uint8_t]. *)
Definition write_audio (os : ostream) (th : FLVTagHeader) (buf : list byte)
           (aformat : Z) (header : bool) : FLVTagHeader * ostream :=
  let aformat := u8 aformat in
  let aac := Z.shiftr aformat 4 =? ACODEC_AAC in
  let th := mkFLVTagHeader (type th)
              (u32 (Z.of_nat (length buf) + (if aac then 2 else 1)))
              (timestamp th) (stream_id th) in
  let os := put_tag_header os th in
  let os := write8 os aformat in
  let os := if aac then write8 os (if header then 0 else 1) else os in
  (th, os_write os buf).
End flv.

(** ** mp4toflv.cpp *)

(** The pointers [main] gets from [findByType] in the first track; [None]
    is the null pointer.  Only [ctts] is tested before it is used. *)
Record Track : Type := mkTrack {
  tkhd : option FullBufBox;
  mdhd : option FullBufBox;
  stsc : option FullBufBox;
  stsd : option FullBufBox;
  stsz : option FullBufBox;
  stco : option FullBufBox;
  stts : option FullBufBox;
  ctts : option FullBufBox
}.

(** [p->...] *)
Definition deref {A : Type} (p : option A) : res A :=
  match p with
  | Some a => Ok a
  | None => Err NullPointer
  end.

(** [std::string::find]: the first position at which [pat] occurs. *)
Fixpoint string_find (s pat : list byte) (pos : nat) : option nat :=
  if list_eq_dec Byte.byte_eq_dec (firstn (length pat) s) pat then Some pos
  else match s with
       | [] => None
       | _ :: s' => string_find s' pat (S pos)
       end.

(** [int p = desc.find(..)]: [npos] becomes -1. *)
Definition find_as_int (s pat : list byte) : Z :=
  match string_find s pat 0 with
  | Some p => Z.of_nat p
  | None => -1
  end.

(** [std::string::substr(pos)]: throws when [pos] exceeds the length. *)
Definition substr (s : list byte) (pos : Z) : res (list byte) :=
  if (0 <=? pos) && (pos <=? Z.of_nat (length s)) then Ok (skipn (Z.to_nat pos) s)
  else Err OutOfRange.

(** What [main] carries from one sample to the next. *)
Record remux_state : Type := mkRemux {
  lastChunk : Z;
  offset : Z;
  buf : list byte;
  ifs : istream;
  out : ostream;
  prev : Z
}.

(** The back-pointer: [write32(of, (uint32_t)of.tellp() - prev); prev = of.tellp();] *)
Definition put_prev_tag_size (os : ostream) (prev : Z) : ostream * Z :=
  let os := write32 os (u64 (u32 (tellp os) - prev)) in
  (os, u64 (tellp os)).

(** Lines 50-53: what follows the tag avcC in the sample description. *)
Definition avc_config (t : Track) : res (list byte) :=
  stsd <- deref (stsd t) ;;
  desc <- BoxSTSD.desc stsd ;;
  let p := find_as_int desc (tag "avcC") in
  substr desc (p + 4).

(** Lines 38-63: the file header, the first (zero) back-pointer and the
    sequence-header tag with its back-pointer. *)
Definition emit_prologue (t : Track) (os : ostream) : res (ostream * Z) :=
  let prev := 0 in
  let os := flv.put_header os (flv.mkFLVHeader (tag "FLV") 1 5 9) in
  let os := write32 os 0 in
  config <- avc_config t ;;
  let th := flv.mkFLVTagHeader flv.TAG_TYPE_VIDEO
              (u32 (Z.of_nat (length config) + 5)) 0 0 in
  let os := flv.put_tag_header os th in
  let os := write8 os (Z.lor 16 flv.VCODEC_AVC) in
  let os := write8 os 0 in
  let os := write24 os 0 in
  let os := os_write os config in
  Ok (put_prev_tag_size os prev).

(** Lines 93-101: the scan for an IDR unit.  [p] is a [uint32_t]; the loop
    need not end, so the model counts its iterations down from [fuel]. *)
Fixpoint idr_scan (fuel : nat) (buf : list byte) (p : Z) (rap : bool) : res bool :=
  match fuel with
  | O => Err OutOfFuel
  | S fuel' =>
      if u32 (p + 5) <? Z.of_nat (length buf) then
        b0 <- vec_at buf p ;;
        b1 <- vec_at buf (p + 1) ;;
        b2 <- vec_at buf (p + 2) ;;
        b3 <- vec_at buf (p + 3) ;;
        let sz := be32 b0 b1 b2 b3 in
        b4 <- vec_at buf (p + 4) ;;
        let rap := if Z.land b4 31 =? 5 then true else rap in
        idr_scan fuel' buf (u32 (p + u32 (sz + 4))) rap
      else Ok rap
  end.

(** Lines 68-115: one iteration of the sample loop. *)
Definition emit_sample (fuel : nat) (t : Track) (i : Z) (st : remux_state)
  : res remux_state :=
  stsc <- deref (stsc t) ;;
  chunk <- BoxSTSC.sampleToChunk stsc i ;;
  let '(lastChunk, offset) :=
    if negb (lastChunk st =? chunk) then (chunk, 0) else (lastChunk st, offset st) in
  stsz <- deref (stsz t) ;;
  size_i <- BoxSTSZ.size stsz i ;;
  stco <- deref (stco t) ;;
  chunk_ofs <- BoxSTCO.offset stco (s32 chunk) ;;
  stts <- deref (stts t) ;;
  time_i <- BoxSTTS.sampleToTime stts i ;;
  timeOffset <- match ctts t with
                | Some c => BoxCTTS.sampleToOffset c i
                | None => Ok 0
                end ;;
  buf <- vec_resize (buf st) size_i ;;
  let ifs := seekg (u32 (chunk_ofs + offset)) (ifs st) in
  let '(buf, ifs) := read_into buf (Z.of_nat (length buf)) ifs in
  let offset := u32 (offset + size_i) in
  rap <- idr_scan fuel buf 0 false ;;
  mdhd <- deref (mdhd t) ;;
  timeScale <- BoxMDHD.timeScale mdhd ;;
  if timeScale =? 0 then Err DivByZero
  else
    let th := flv.mkFLVTagHeader flv.TAG_TYPE_VIDEO
                (u32 (Z.of_nat (length buf) + 2 + 3))
                (u32 (u64 (time_i * 1000) / timeScale)) 0 in
    let os := flv.put_tag_header (out st) th in
    let os := write8 os (Z.lor (if rap then 16 else 32) flv.VCODEC_AVC) in
    let os := write8 os 1 in
    let os := write24 os (u32 (timeOffset * 1000) / timeScale) in
    let os := os_write os buf in
    let '(os, prev) := put_prev_tag_size os (prev st) in
    Ok (mkRemux lastChunk offset buf ifs os prev).

(** The [for (int i = 0; i < stsz->count(); i++)] loop, [k] iterations
    left; the comparison is unsigned, the counter is an [int]. *)
Fixpoint emit_samples (fuel : nat) (t : Track) (k : nat) (i : Z) (st : remux_state)
  : res remux_state :=
  match k with
  | O => Ok st
  | S k' =>
      if 2 ^ 31 <=? i then Err IntOverflow
      else
        st <- emit_sample fuel t i st ;;
        emit_samples fuel t k' (i + 1) st
  end.

(** [main] from line 34 on, with the pointers it has looked up: the bytes
    of out.flv. *)
Definition remux (fuel : nat) (t : Track) (input : istream) : res ostream :=
  '(os, prev) <- emit_prologue t (mkOstream [] false) ;;
  stsz <- deref (stsz t) ;;
  n <- BoxSTSZ.count stsz ;;
  st <- emit_samples fuel t (Z.to_nat n) 0
          (mkRemux (2 ^ 32 - 1) 0 [] (clear input) os prev) ;;
  Ok (out st).

(** The result of [findByType] cast to the leaf class [main] expects. *)
Definition as_leaf (o : option Box) : option FullBufBox :=
  match o with
  | Some (BoxLeaf l) => Some l
  | _ => None
  end.

(** [main]: the file test.mp4 to the file out.flv.  The tree dump and the
    progress lines on standard output are left out; the values that lines
    21-33 print are still computed. *)
Definition main (fuel : nat) (file : list byte) : res ostream :=
  '(mp4, input) <- Mp4Root_parse fuel (mkIstream file 0 false false) ;;
  track <- deref (findByType mp4 BOX_TRAK) ;;
  let tkhd := as_leaf (findByType track BOX_TKHD) in
  h <- deref tkhd ;;
  _ <- BoxTKHD.width h ;;
  let mdhd := as_leaf (findByType track BOX_MDHD) in
  m <- deref mdhd ;;
  duration <- BoxMDHD.duration m ;;
  timeScale <- BoxMDHD.timeScale m ;;
  if timeScale =? 0 then Err DivByZero
  else
    let stsc := as_leaf (findByType track BOX_STSC) in
    let stsd := as_leaf (findByType track BOX_STSD) in
    let stsz := as_leaf (findByType track BOX_STSZ) in
    let stco := as_leaf (findByType track BOX_STCO) in
    let stts := as_leaf (findByType track BOX_STTS) in
    let ctts := as_leaf (findByType track BOX_CTTS) in
    z <- deref stsz ;;
    _ <- BoxSTSZ.count z ;;
    d <- deref stsd ;;
    _ <- BoxSTSD.typeAsString d ;;
    _ <- BoxSTSD.desc d ;;
    remux fuel (mkTrack tkhd mdhd stsc stsd stsz stco stts ctts) input.

(** * Views of the tables and reference semantics *)

(** A table given by its 32-bit words, as it lies in [buf]. *)
Definition table_of_words (type : list byte) (words : list Z) : FullBufBox :=
  mkFullBufBox type (12 + 4 * Z.of_nat (length words)) 0 0 (concat (map bytes32 words)).

(** ** The chunk-run table as a list of runs *)

(** The runs [(first, spc)] of a chunk-run table, read with the accessors
    of [BoxSTSC]. *)
Fixpoint chunk_runs_from (b : FullBufBox) (k : nat) (i : Z) : res (list (Z * Z)) :=
  match k with
  | O => Ok []
  | S k' =>
      f <- BoxSTSC.first b (s32 i) ;;
      s <- BoxSTSC.spc b (s32 i) ;;
      rest <- chunk_runs_from b k' (i + 1) ;;
      Ok ((f, s) :: rest)
  end.

Definition chunk_runs (b : FullBufBox) : res (list (Z * Z)) :=
  c <- BoxSTSC.count b ;;
  chunk_runs_from b (Z.to_nat c) 0.

(** Ascending first-chunk numbers. *)
Fixpoint ascending (l : list Z) : bool :=
  match l with
  | [] => true
  | x :: l' => match l' with
               | [] => true
               | y :: _ => (x <=? y) && ascending l'
               end
  end.

(** The first run begins at chunk 1 and the runs are ascending. *)
Definition starts_at_one_ascending (runs : list (Z * Z)) : bool :=
  match runs with
  | [] => false
  | (f, _) :: _ => (f =? 1) && ascending (map fst runs)
  end.

(** Every run holds at least one sample per chunk. *)
Definition positive_spc (runs : list (Z * Z)) : bool :=
  forallb (fun r => 1 <=? snd r) runs.

(** The samples held by all runs but the last, which is open-ended. *)
Fixpoint closed_samples (runs : list (Z * Z)) : Z :=
  match runs with
  | [] => 0
  | (f, s) :: rest =>
      match rest with
      | [] => 0
      | (f', _) :: _ => (f' - f) * s + closed_samples rest
      end
  end.

(** Run-length semantics, chunk by chunk (chunks are numbered from 1):
    chunk [c] holds the samples-per-chunk of the run it falls in, the last
    run being open-ended. *)
Fixpoint samples_in_chunk (runs : list (Z * Z)) (c : Z) : Z :=
  match runs with
  | [] => 0
  | (f, s) :: rest =>
      match rest with
      | [] => s
      | (f', _) :: _ => if c <? f' then s else samples_in_chunk rest c
      end
  end.

(** [g 1 + ... + g k] *)
Fixpoint sum_upto (g : Z -> Z) (k : nat) : Z :=
  match k with
  | O => 0
  | S k' => sum_upto g k' + g (Z.of_nat k)
  end.

(** The index of the first sample of chunk [c]: what chunks 1 .. c-1 hold. *)
Definition first_sample_of (g : Z -> Z) (c : Z) : Z := sum_upto g (Z.to_nat (c - 1)).

(** Sample [n] lies in chunk [c] (numbered from 1). *)
Definition chunk_holds (runs : list (Z * Z)) (c n : Z) : Prop :=
  first_sample_of (samples_in_chunk runs) c <= n
  < first_sample_of (samples_in_chunk runs) c + samples_in_chunk runs c.

(** The run walk of the specification: run [i] spans
    [first (i+1) - first i] chunks of [spc i] samples each; [m] counts the
    samples from the first chunk of the head run.  The result is the chunk
    number from 1. *)
Fixpoint run_walk (runs : list (Z * Z)) (m : Z) : Z :=
  match runs with
  | [] => 1
  | (f, s) :: rest =>
      match rest with
      | [] => f + m / s
      | (f', _) :: _ =>
          if m <? (f' - f) * s then f + m / s
          else run_walk rest (m - (f' - f) * s)
      end
  end.

(** The 0-based index of the chunk that contains sample [n]. *)
Definition chunk_of_sample (runs : list (Z * Z)) (n : Z) : Z := run_walk runs n - 1.

(** ** The decode-time run table as a list of runs *)

(** The runs [(count, delta)] of a decode-time table, read with the
    accessors of [BoxSTTS]. *)
Fixpoint time_runs_from (b : FullBufBox) (k : nat) (i : Z) : res (list (Z * Z)) :=
  match k with
  | O => Ok []
  | S k' =>
      c <- BoxSTTS.count_at b i ;;
      d <- BoxSTTS.delta b i ;;
      rest <- time_runs_from b k' (i + 1) ;;
      Ok ((c, d) :: rest)
  end.

Definition time_runs (b : FullBufBox) : res (list (Z * Z)) :=
  c <- BoxSTTS.count b ;;
  time_runs_from b (Z.to_nat c) 0.

(** The number of samples the runs describe. *)
Fixpoint total_samples (runs : list (Z * Z)) : Z :=
  match runs with
  | [] => 0
  | (c, _) :: rest => c + total_samples rest
  end.

(** The sum of [count * delta] over all runs. *)
Fixpoint total_duration (runs : list (Z * Z)) : Z :=
  match runs with
  | [] => 0
  | (c, d) :: rest => c * d + total_duration rest
  end.

(** The decode time of the specification: [count * delta] for every run
    that wholly precedes sample [n], then [(n - consumed) * delta] of the
    run that contains it. *)
Fixpoint decode_time (runs : list (Z * Z)) (n : Z) : Z :=
  match runs with
  | [] => 0
  | (c, d) :: rest => if n <? c then n * d else c * d + decode_time rest (n - c)
  end.

(** Every product [count * delta] fits in 32 bits. *)
Definition products_fit (runs : list (Z * Z)) : bool :=
  forallb (fun r => fst r * snd r <? 2 ^ 32) runs.

(** What the 32-bit products of the source add up to. *)
Fixpoint wrapped_duration (runs : list (Z * Z)) : Z :=
  match runs with
  | [] => 0
  | (c, d) :: rest => u32 (c * d) + wrapped_duration rest
  end.

(** ** The keyframe classifier of the specification *)

(** One unit is read whenever 5 or more bytes remain (a 4-byte length and
    at least one payload byte); its type is the low five bits of the fifth
    byte; the scan moves on by length + 4 and stops when fewer than 5 bytes
    remain.  The sample is a sync sample when some unit has type 5. *)
Fixpoint sync_scan (fuel : nat) (payload : list byte) : bool :=
  match fuel with
  | O => false
  | S fuel' =>
      if (5 <=? length payload)%nat then
        let len := be32 (byte_or0 payload 0) (byte_or0 payload 1)
                        (byte_or0 payload 2) (byte_or0 payload 3) in
        (Z.land (byte_or0 payload 4) 31 =? 5)
        || sync_scan fuel' (skipn (Z.to_nat (len + 4)) payload)
      else false
  end.

(** Every step drops at least 4 bytes, so the length is fuel enough. *)
Definition is_sync_sample (payload : list byte) : bool :=
  sync_scan (length payload) payload.

(** ** The FLV stream of the specification *)

(** The 9-byte file header. *)
Definition flv_file_header : list byte :=
  tag "FLV" ++ bytes8 1 ++ bytes8 5 ++ bytes32 9.

(** The sequence-header tag: the 11-byte tag header (type 9, payload size,
    timestamp 0, stream 0), the 5 framing bytes and the configuration
    record. *)
Definition sequence_header_tag (config : list byte) : list byte :=
  bytes8 9 ++ bytes24 (u32 (Z.of_nat (length config) + 5))
  ++ bytes24 0 ++ bytes8 0 ++ bytes24 0
  ++ bytes8 23 ++ bytes8 0 ++ bytes24 0 ++ config.

(** ** Streams *)

(** A stream in good state at position [pos]. *)
Definition good_stream (data : list byte) (pos : Z) : istream :=
  mkIstream data pos false false.

(** A good stream that has passed [consumed] and has [rest] before it. *)
Definition stream_at (consumed rest : list byte) : istream :=
  good_stream (consumed ++ rest) (Z.of_nat (length consumed)).

(** ** Boxes that keep their payload *)

(** The kinds of box that keep their payload, by the branch [createBox]
    takes: a file-type box whose payload after the two fixed fields is a
    whole number of 4-byte brands, a free box, a full-box leaf with a raw
    payload, or an unknown box up to the 10 MiB threshold.  (The movie
    header keeps fields, a container keeps children, a box above the
    threshold is skipped.) *)
Definition keeps_payload (type : list byte) (sz : Z) : bool :=
  if chktype type BOX_FTYP then (sz - 16) mod 4 =? 0
  else if chktype type BOX_FREE then true
  else if chktype type BOX_MVHD then false
  else match find (chktype type) full_buf_types with
       | Some _ => true
       | None => negb (has_child type) && negb (1024 * 1024 * 10 <? sz)
       end.

(** ** Samples as sequences of units *)

(** A unit with its 4-byte big-endian length in front. *)
Definition nal_unit (u : list byte) : list byte :=
  bytes32 (Z.of_nat (length u)) ++ u.

Definition sample_of_units (units : list (list byte)) : list byte :=
  concat (map nal_unit units).

(** The type of a unit: the low five bits of its first byte. *)
Definition unit_type (u : list byte) : Z := Z.land (byte_or0 u 0) 31.

Definition has_idr_unit (units : list (list byte)) : bool :=
  existsb (fun u => unit_type u =? 5) units.
(** ** The box tree as a list of nodes *)

(** The two inner loops over the children, by name. *)
Definition first_in (n : list byte) : list Box -> option Box :=
  fix first_in (cs : list Box) : option Box :=
    match cs with
    | [] => None
    | c :: cs' => match findByType c n with
                  | Some r => Some r
                  | None => first_in cs'
                  end
    end.

Definition all_in (n : list byte) : list Box -> list Box -> list Box :=
  fix all_in (cs : list Box) (out : list Box) : list Box :=
    match cs with
    | [] => out
    | c :: cs' => all_in cs' (findAllByType c n out)
    end.

(** The nodes of a tree in pre-order: a node, then the nodes of its
    children from first to last. *)
Fixpoint nodes (b : Box) : list Box :=
  b :: match b with
       | BoxSimpleList _ _ children => flat_map nodes children
       | _ => []
       end.

(** ** The composition-offset table as a list of runs *)

(** The runs [(count, offset)] of a composition-offset table, read with the
    accessors of [BoxCTTS]. *)
Fixpoint offset_runs_from (b : FullBufBox) (k : nat) (i : Z) : res (list (Z * Z)) :=
  match k with
  | O => Ok []
  | S k' =>
      o <- BoxCTTS.offset b i ;;
      c <- BoxCTTS.count_at b i ;;
      rest <- offset_runs_from b k' (i + 1) ;;
      Ok ((c, o) :: rest)
  end.

Definition offset_runs (b : FullBufBox) : res (list (Z * Z)) :=
  c <- BoxCTTS.count b ;;
  offset_runs_from b (Z.to_nat c) 0.

(** ** The sample tags of the output *)

(** The tag of sample [j] of track [t]: a video tag as [write_video] writes
    it for codec AVC and packet type 1, around [size(j)] bytes of data, with
    the decode time of the sample in milliseconds as timestamp, its
    composition offset in milliseconds, and the key-frame flag that the scan
    of the data gives. *)
Definition sample_tag (fuel : nat) (t : Track) (j : Z) (tg : list byte) : Prop :=
  exists z s m sz time scale toff rap data,
    stsz t = Some z /\ stts t = Some s /\ mdhd t = Some m /\
    BoxSTSZ.size z j = Ok sz /\ BoxSTTS.sampleToTime s j = Ok time /\
    BoxMDHD.timeScale m = Ok scale /\ scale <> 0 /\
    match ctts t with
    | Some c => BoxCTTS.sampleToOffset c j
    | None => Ok 0
    end = Ok toff /\
    Z.of_nat (length data) = sz /\ idr_scan fuel data 0 false = Ok rap /\
    tg = os_bytes (snd (flv.write_video (mkOstream [] false)
                          (flv.mkFLVTagHeader flv.TAG_TYPE_VIDEO 0
                                              (u32 (u64 (time * 1000) / scale)) 0)
                          data flv.VCODEC_AVC (u32 (toff * 1000) / scale) rap false)).

(** A tag followed by its back-pointer. *)
Definition with_back_pointer (tg : list byte) : list byte :=
  tg ++ bytes32 (u32 (Z.of_nat (length tg))).

(** The sample indexes [i], [i+1], ..., [k] of them. *)
Definition indexes_from (i : Z) (k : nat) : list Z :=
  map (fun j => i + Z.of_nat j) (seq 0 k).

(** ** Trees that the writer can emit and the decoder reads back *)

Definition fits (bits z : Z) : bool := (0 <=? z) && (z <? 2 ^ bits).

(** A type for which [createBox] falls through to its last two branches:
    none of the types it knows and not a container. *)
Definition is_unknown_type (type : list byte) : bool :=
  negb (chktype type BOX_FTYP) && negb (chktype type BOX_FREE)
  && negb (chktype type BOX_MVHD)
  && match find (chktype type) full_buf_types with
     | Some _ => false
     | None => true
     end
  && negb (has_child type).

Definition is_leaf_type (type : list byte) : bool :=
  existsb (fun t => if list_eq_dec Byte.byte_eq_dec type t then true else false)
          full_buf_types.

Definition sum_sizes (cs : list Box) : Z :=
  fold_right (fun c acc => box_size c + acc) 0 cs.

(** A node whose fields are within their widths, whose type is one for
    which [createBox] builds this class, and whose declared size is the size
    of its header and content; a movie header has version 0, and there is no
    skipped box. *)
Fixpoint well_formed (b : Box) : bool :=
  match b with
  | BoxFTYP size major minor compat =>
      (length major =? 4)%nat && fits 32 minor
      && forallb (fun w => (length w =? 4)%nat) compat
      && (size =? 16 + 4 * Z.of_nat (length compat)) && (size <? 2 ^ 32)
  | BoxFREE size body =>
      (size =? 8 + Z.of_nat (length body)) && (size <? 2 ^ 32)
  | BoxMVHD size version flags created modified timeScale duration rate volume buf =>
      (version =? 0) && fits 24 flags && fits 32 created && fits 32 modified
      && fits 32 timeScale && fits 32 duration && fits 32 rate && fits 32 volume
      && (size =? 36 + Z.of_nat (length buf)) && (size <? 2 ^ 32)
  | BoxLeaf l =>
      is_leaf_type (fb_type l) && fits 8 (fb_version l) && fits 24 (fb_flags l)
      && (fb_size l =? 12 + Z.of_nat (length (fb_buf l))) && (fb_size l <? 2 ^ 32)
  | BoxSimpleList type size children =>
      (length type =? 4)%nat && has_child type
      && forallb well_formed children
      && (size =? 8 + sum_sizes children) && (size <? 2 ^ 32)
  | UnknownBoxRef _ _ _ => false
  | UnknownBox type size body =>
      (length type =? 4)%nat && is_unknown_type type
      && (size =? 8 + Z.of_nat (length body)) && (size <=? 1024 * 1024 * 10)
  end.

(** The bytes [write] emits for a node. *)
Definition written (b : Box) : list byte :=
  match write b (mkOstream [] false) with
  | Ok os => os_bytes os
  | Err _ => []
  end.

(** [b] is written as its size, its type and a payload, and [createBox],
    called behind such a header as the loop of [BoxSimpleList::parse] calls
    it, builds [b] again and leaves the cursor behind the payload. *)
Definition reads_back (b : Box) : Prop :=
  8 <= box_size b < 2 ^ 32 /\ length (box_type b) = 4%nat /\
  exists payload,
    Z.of_nat (length payload) = box_size b - 8 /\
    (forall os, write b os
                = Ok (os_write os (bytes32 (u32 (box_size b)) ++ box_type b ++ payload))) /\
    forall fuel pre post,
      (length (nodes b) <= fuel)%nat ->
      Z.of_nat (length pre) + box_size b < 2 ^ 63 ->
      createBox (BoxSimpleList_parse (parse_children fuel)) (box_type b) (box_size b)
                (stream_at (pre ++ bytes32 (u32 (box_size b)) ++ box_type b)
                           (payload ++ post))
      = Ok (b, stream_at ((pre ++ bytes32 (u32 (box_size b)) ++ box_type b) ++ payload)
                         post).

(** ** The class of a decoded node *)

(** A node whose type is one of the ten leaf types is a [BoxLeaf] of that
    type: what the casts of [main] rely on. *)
Definition class_ok (r : Box) : Prop :=
  forall t, In t full_buf_types -> chktype (box_type r) t = true ->
            exists l, r = BoxLeaf l /\ fb_type l = t.

Definition tree_ok (b : Box) : Prop := Forall class_ok (nodes b).

(** ** Strings *)

(** [pat] occurs in [s] at position [k]. *)
Definition occurs_at (pat s : list byte) (k : nat) : Prop :=
  firstn (length pat) (skipn k s) = pat.

(** * Concrete inputs *)

Definition empty_ostream : ostream := mkOstream [] false.

(** A version-1 media header: creation and modification time 0, timescale
    90000, duration 2^32 + 5 (bytes 00 00 00 01 00 00 00 05), language and
    pre_defined. *)
Definition mdhd_v1_example : FullBufBox :=
  mkFullBufBox BOX_MDHD 44 1 0
    (concat (map bytes32 [0; 0; 0; 0; 90000; 1; 5; 1438908416])).

(** A movie header of declared size 32 and version 1, whose 20 payload
    bytes after the version and flags happen to read as a free box of size
    20, followed by its sibling, a free box of size 8. *)
Definition mvhd_v1_stream : list byte :=
  bytes32 32 ++ BOX_MVHD ++ [Byte.x01; Byte.x00; Byte.x00; Byte.x00]
  ++ (bytes32 20 ++ BOX_FREE ++ repeat Byte.x00 12)
  ++ bytes32 8 ++ BOX_FREE.

(** A movie header of version 0, 108 bytes: 32-bit times and duration,
    then the fields the version-1 header below has too. *)
Definition mvhd_v0_whole : list byte :=
  bytes32 108 ++ BOX_MVHD ++ [Byte.x00; Byte.x00; Byte.x00; Byte.x00]
  ++ concat (map bytes32 [3768300000; 3768300000; 90000; 900000; 65536])
  ++ [Byte.x01; Byte.x00] ++ repeat Byte.x00 10
  ++ concat (map bytes32 [65536; 0; 0; 0; 65536; 0; 0; 0; 1073741824])
  ++ repeat Byte.x00 24 ++ bytes32 2.

(** A movie header of version 1 as a muxer writes it, 120 bytes: 64-bit
    creation and modification times (seconds since 1904), timescale 90000,
    64-bit duration, rate, volume, reserved bytes, the unity matrix, the
    pre_defined words and the next track id. *)
Definition mvhd_v1_whole : list byte :=
  bytes32 120 ++ BOX_MVHD ++ [Byte.x01; Byte.x00; Byte.x00; Byte.x00]
  ++ bytes32 0 ++ bytes32 3768300000 ++ bytes32 0 ++ bytes32 3768300000
  ++ bytes32 90000 ++ bytes32 0 ++ bytes32 900000
  ++ bytes32 65536 ++ [Byte.x01; Byte.x00] ++ repeat Byte.x00 10
  ++ concat (map bytes32 [65536; 0; 0; 0; 65536; 0; 0; 0; 1073741824])
  ++ repeat Byte.x00 24 ++ bytes32 2.

(** A media-data box of declared size 16 MiB, above the 10 MiB threshold;
    only its first bytes are present. *)
Definition mdat_stream : list byte :=
  bytes32 16777216 ++ tag "mdat" ++ repeat Byte.x2a 8.

(** One IDR unit of one byte: length 1, type byte 0x65. *)
Definition idr_5_bytes : list byte :=
  [Byte.x00; Byte.x00; Byte.x00; Byte.x01; Byte.x65].

(** One IDR unit of two bytes and one non-IDR unit of two bytes. *)
Definition idr_6_bytes : list byte :=
  [Byte.x00; Byte.x00; Byte.x00; Byte.x02; Byte.x65; Byte.x88].
Definition non_idr_6_bytes : list byte :=
  [Byte.x00; Byte.x00; Byte.x00; Byte.x02; Byte.x41; Byte.x9a].

(** A unit whose length field is 0xFFFFFFFC. *)
Definition wrapping_unit : list byte :=
  [Byte.xff; Byte.xff; Byte.xff; Byte.xfc; Byte.x41; Byte.x00].

(** A track of two samples in one chunk at file offset 4: an IDR unit of
    6 bytes and a non-IDR unit of 6 bytes; 40 ticks per sample at 1000 ticks
    per second; an AVC configuration record of 3 bytes. *)
Definition example_file : list byte :=
  repeat Byte.xee 4 ++ idr_6_bytes ++ non_idr_6_bytes.

Definition example_stsd : FullBufBox :=
  mkFullBufBox BOX_STSD 33 0 0
    (bytes32 1 ++ bytes32 17 ++ tag "avc1" ++ [Byte.x00; Byte.x00]
     ++ tag "avcC" ++ [Byte.x01; Byte.x64; Byte.x00]).

Definition example_track (sizes : FullBufBox) : Track :=
  mkTrack (Some (table_of_words BOX_TKHD []))
          (Some (table_of_words BOX_MDHD [0; 0; 1000; 80; 0]))
          (Some (table_of_words BOX_STSC [1; 1; 2; 1]))
          (Some example_stsd)
          (Some sizes)
          (Some (table_of_words BOX_STCO [1; 4]))
          (Some (table_of_words BOX_STTS [1; 2; 40]))
          None.

(** Sample sizes: one per sample; uniform, as the format lays it out (the
    constant size and the count, no array); uniform with an array left
    behind it. *)
Definition stsz_per_sample : FullBufBox := table_of_words BOX_STSZ [0; 2; 6; 6].
Definition stsz_uniform : FullBufBox := table_of_words BOX_STSZ [6; 2].
Definition stsz_uniform_with_array : FullBufBox := table_of_words BOX_STSZ [6; 2; 3; 4].

Definition remux_start (input : list byte) (os : ostream) (prev : Z) : remux_state :=
  mkRemux (2 ^ 32 - 1) 0 [] (good_stream input 0) os prev.

(** A file-type box of declared size 18: major brand, minor version and
    two more bytes, less than one compatible brand. *)
Definition ftyp_18_payload : list byte :=
  tag "isom" ++ bytes32 512 ++ [Byte.x07; Byte.x07].
Definition ftyp_18 : list byte := bytes32 18 ++ BOX_FTYP ++ ftyp_18_payload.

(** The payload of a file-type box with two compatible brands. *)
Definition ftyp_24_payload : list byte :=
  tag "isom" ++ bytes32 512 ++ tag "isom" ++ tag "avc1".

(** A whole file: ftyp, mdat with the two samples of [example_file] at
    offset 24, and a movie with one track. *)
Definition box (type payload : list byte) : list byte :=
  bytes32 (8 + Z.of_nat (length payload)) ++ type ++ payload.
Definition full_box (type payload : list byte) : list byte :=
  box type (repeat Byte.x00 4 ++ payload).
Definition be_words (l : list Z) : list byte := concat (map bytes32 l).

Definition example_mp4 : list byte :=
  box BOX_FTYP (tag "isom" ++ bytes32 512)
  ++ box (tag "mdat") (idr_6_bytes ++ non_idr_6_bytes)
  ++ box BOX_MOOV
       (box BOX_TRAK
          (full_box BOX_TKHD (repeat Byte.x00 72 ++ be_words [20971520; 15728640])
           ++ box BOX_MDIA
                (full_box BOX_MDHD (be_words [0; 0; 1000; 80; 0])
                 ++ box BOX_MINF
                      (box BOX_STBL
                         (full_box BOX_STSD (fb_buf example_stsd)
                          ++ full_box BOX_STTS (be_words [1; 2; 40])
                          ++ full_box BOX_STSC (be_words [1; 1; 2; 1])
                          ++ full_box BOX_STSZ (be_words [0; 2; 6; 6])
                          ++ full_box BOX_STCO (be_words [1; 24])))))).
(** ** More concrete inputs *)

(** The output for the example track with a per-sample size table. *)
Definition example_flv : ostream :=
  Eval vm_compute in
    match remux 4 (example_track stsz_per_sample) (good_stream example_file 0) with
    | Ok os => os
    | Err _ => empty_ostream
    end.

(** The trees decoded from [example_mp4]. *)
Definition example_tree : list Box :=
  Eval vm_compute in
    match Mp4Root_parse 40 (good_stream example_mp4 0) with
    | Ok (BoxSimpleList _ _ children, _) => children
    | _ => []
    end.



(** * Verification *)

(** ** Arithmetic of the fixed-width types *)

Lemma u32_small z : 0 <= z < 2 ^ 32 -> u32 z = z.
Proof. intros H. unfold u32. apply Z.mod_small; assumption. Qed.

Lemma u64_small z : 0 <= z < 2 ^ 64 -> u64 z = z.
Proof. intros H. unfold u64. apply Z.mod_small; assumption. Qed.

Lemma u32_range z : 0 <= u32 z < 2 ^ 32.
Proof. unfold u32. apply Z.mod_pos_bound. reflexivity. Qed.

Lemma u32_idem z : u32 (u32 z) = u32 z.
Proof. unfold u32. apply Z.mod_mod. lia. Qed.

Lemma u32_u64 z : u32 (u64 z) = u32 z.
Proof.
  unfold u32, u64. apply Z.mod_mod_divide.
  exists (2 ^ 32). reflexivity.
Qed.

Lemma be32_range a b c d : 0 <= be32 a b c d < 2 ^ 32.
Proof. unfold be32. apply u32_range. Qed.

Lemma bind_Ok {A B : Type} (m : res A) (k : A -> res B) (r : B) :
  bind m k = Ok r -> exists a, m = Ok a /\ k a = Ok r.
Proof. destruct m as [a | e]; simpl; intros H; [eauto | discriminate]. Qed.

Lemma ui32_range b pos v : ui32 b pos = Ok v -> 0 <= v < 2 ^ 32.
Proof.
  unfold ui32. intros H.
  apply bind_Ok in H as (p & _ & H).
  apply bind_Ok in H as (b0 & _ & H).
  apply bind_Ok in H as (b1 & _ & H).
  apply bind_Ok in H as (b2 & _ & H).
  apply bind_Ok in H as (b3 & _ & H).
  injection H as <-. apply be32_range.
Qed.

Lemma stsc_first_range b n v : BoxSTSC.first b n = Ok v -> 0 <= v < 2 ^ 32.
Proof.
  unfold BoxSTSC.first. intros H.
  apply bind_Ok in H as (m & _ & H).
  apply bind_Ok in H as (p & _ & H).
  eapply ui32_range; eassumption.
Qed.

Lemma stsc_spc_range b n v : BoxSTSC.spc b n = Ok v -> 0 <= v < 2 ^ 32.
Proof.
  unfold BoxSTSC.spc. intros H.
  apply bind_Ok in H as (m & _ & H).
  apply bind_Ok in H as (p & _ & H).
  apply bind_Ok in H as (q & _ & H).
  eapply ui32_range; eassumption.
Qed.

Lemma stsz_size_range b n v : BoxSTSZ.size b n = Ok v -> 0 <= v < 2 ^ 32.
Proof.
  unfold BoxSTSZ.size. intros H.
  apply bind_Ok in H as (m & _ & H).
  apply bind_Ok in H as (p & _ & H).
  eapply ui32_range; eassumption.
Qed.

(** ** The chunk-run table: [sampleToChunk] *)

Lemma div_floor s m :
  1 <= s -> 0 <= m ->
  0 <= m / s <= m /\ (m / s) * s <= m < (m / s) * s + s.
Proof.
  intros Hs Hm.
  pose proof (Z.div_mod m s ltac:(lia)) as E.
  pose proof (Z.mod_pos_bound m s ltac:(lia)) as B.
  nia.
Qed.

Lemma ascending_cons x y l :
  ascending (x :: y :: l) = true <-> x <= y /\ ascending (y :: l) = true.
Proof.
  change (ascending (x :: y :: l)) with ((x <=? y) && ascending (y :: l)).
  rewrite andb_true_iff, Z.leb_le. tauto.
Qed.

Lemma positive_spc_cons f s rs :
  positive_spc ((f, s) :: rs) = true <-> 1 <= s /\ positive_spc rs = true.
Proof.
  unfold positive_spc. simpl. rewrite andb_true_iff, Z.leb_le. tauto.
Qed.

Lemma chunk_runs_from_cons b k i f s rs :
  chunk_runs_from b (S k) i = Ok ((f, s) :: rs) ->
  BoxSTSC.first b (s32 i) = Ok f /\ BoxSTSC.spc b (s32 i) = Ok s /\
  chunk_runs_from b k (i + 1) = Ok rs.
Proof.
  simpl. intros H.
  apply bind_Ok in H as (f0 & Hf & H).
  apply bind_Ok in H as (s0 & Hs & H).
  apply bind_Ok in H as (r0 & Hr & H).
  injection H as -> -> ->. auto.
Qed.

Lemma chunk_runs_from_length b : forall k i rs,
  chunk_runs_from b k i = Ok rs -> length rs = k.
Proof.
  induction k as [| k IH]; simpl; intros i rs H.
  - injection H as <-. reflexivity.
  - apply bind_Ok in H as (f0 & Hf & H).
    apply bind_Ok in H as (s0 & Hs & H).
    apply bind_Ok in H as (r0 & Hr & H).
    injection H as <-. simpl. f_equal. eapply IH; eassumption.
Qed.

Lemma closed_samples_nonneg rs : forall lf ls,
  ascending (lf :: map fst rs) = true -> positive_spc ((lf, ls) :: rs) = true ->
  0 <= closed_samples ((lf, ls) :: rs).
Proof.
  induction rs as [| [f s] rs IH]; intros lf ls Hasc Hpos.
  - simpl. lia.
  - change (closed_samples ((lf, ls) :: (f, s) :: rs))
      with ((f - lf) * ls + closed_samples ((f, s) :: rs)).
    simpl map in Hasc. apply ascending_cons in Hasc as [Hle Hasc].
    apply positive_spc_cons in Hpos as [Hls Hpos].
    specialize (IH f s Hasc Hpos). nia.
Qed.

Lemma run_walk_bounds rs : forall lf ls m,
  ascending (lf :: map fst rs) = true -> positive_spc ((lf, ls) :: rs) = true ->
  0 <= m -> lf <= run_walk ((lf, ls) :: rs) m <= lf + m.
Proof.
  induction rs as [| [f s] rs IH]; intros lf ls m Hasc Hpos Hm.
  - apply positive_spc_cons in Hpos as [Hls _].
    simpl. pose proof (div_floor ls m Hls Hm). lia.
  - simpl map in Hasc. apply ascending_cons in Hasc as [Hle Hasc].
    apply positive_spc_cons in Hpos as [Hls Hpos].
    change (run_walk ((lf, ls) :: (f, s) :: rs) m)
      with (if m <? (f - lf) * ls then lf + m / ls
            else run_walk ((f, s) :: rs) (m - (f - lf) * ls)).
    destruct (Z.ltb_spec m ((f - lf) * ls)) as [Hlt | Hge].
    + pose proof (div_floor ls m Hls Hm). lia.
    + specialize (IH f s (m - (f - lf) * ls) Hasc Hpos ltac:(lia)). nia.
Qed.

(** The loop, entered after the run [(lf, ls)] with [ofs] samples before
    it, agrees with the run walk over the runs still to be read. *)
Lemma sampleToChunk_loop_walk b n : forall rs i ofs lf ls,
  chunk_runs_from b (length rs) i = Ok rs ->
  0 <= ofs <= n -> n < 2 ^ 31 -> 1 <= lf <= ofs + 1 -> 1 <= ls ->
  ascending (lf :: map fst rs) = true -> positive_spc rs = true ->
  ofs + closed_samples ((lf, ls) :: rs) < 2 ^ 32 ->
  BoxSTSC.sampleToChunk_loop b n (length rs) i ofs (lf + (n - ofs) / ls) lf ls
  = Ok (run_walk ((lf, ls) :: rs) (n - ofs)).
Proof.
  induction rs as [| [f s] rs IH]; intros i ofs lf ls Hruns Hofs Hn Hlf Hls Hasc Hpos Hsum.
  - reflexivity.
  - simpl length in *.
    apply chunk_runs_from_cons in Hruns as (Hf & Hs & Hruns).
    pose proof (stsc_first_range _ _ _ Hf) as Rf.
    pose proof (stsc_spc_range _ _ _ Hs) as Rs.
    simpl map in Hasc. pose proof Hasc as Hasc'.
    apply ascending_cons in Hasc' as [Hle Hasc'].
    apply positive_spc_cons in Hpos as [Hs1 Hpos].
    change (closed_samples ((lf, ls) :: (f, s) :: rs))
      with ((f - lf) * ls + closed_samples ((f, s) :: rs)) in Hsum.
    pose proof (closed_samples_nonneg rs f s Hasc'
                  (proj2 (positive_spc_cons f s rs) (conj Hs1 Hpos))) as Hnn.
    assert (Hprod : 0 <= (f - lf) * ls) by nia.
    assert (Hspan : f - lf <= (f - lf) * ls) by nia.
    change (run_walk ((lf, ls) :: (f, s) :: rs) (n - ofs))
      with (if n - ofs <? (f - lf) * ls then lf + (n - ofs) / ls
            else run_walk ((f, s) :: rs) (n - ofs - (f - lf) * ls)).
    cbn [BoxSTSC.sampleToChunk_loop]. rewrite Hf. cbn [bind].
    rewrite (u32_small (f - lf)) by lia.
    rewrite (u32_small ((f - lf) * ls)) by lia.
    rewrite (u32_small (ofs + (f - lf) * ls)) by lia.
    rewrite (u32_small n) by lia.
    destruct (Z.ltb_spec n (ofs + (f - lf) * ls)) as [Hlt | Hge].
    + destruct (Z.ltb_spec (n - ofs) ((f - lf) * ls)); [reflexivity | lia].
    + destruct (Z.ltb_spec (n - ofs) ((f - lf) * ls)); [lia |].
      rewrite Hs. cbn [bind].
      destruct (Z.eqb_spec s 0); [lia |].
      rewrite (u32_small (n - (ofs + (f - lf) * ls))) by lia.
      pose proof (div_floor s (n - (ofs + (f - lf) * ls)) Hs1 ltac:(lia)) as [Hq _].
      rewrite (u32_small (f + (n - (ofs + (f - lf) * ls)) / s)) by lia.
      rewrite (IH (i + 1) (ofs + (f - lf) * ls) f s); try assumption; try lia.
      f_equal. f_equal. lia.
Qed.

(** *** The walk against the chunk-by-chunk semantics *)

Lemma first_sample_step g c :
  1 <= c -> first_sample_of g (c + 1) = first_sample_of g c + g c.
Proof.
  intros Hc. unfold first_sample_of.
  replace (Z.to_nat (c + 1 - 1)) with (S (Z.to_nat (c - 1))) by lia.
  cbn [sum_upto]. do 2 f_equal. lia.
Qed.

Lemma first_sample_span g s c d :
  1 <= c -> 0 <= d -> (forall j, c <= j < c + d -> g j = s) ->
  first_sample_of g (c + d) = first_sample_of g c + d * s.
Proof.
  intros Hc Hd. revert d Hd.
  apply (natlike_ind (fun d => (forall j, c <= j < c + d -> g j = s) ->
                               first_sample_of g (c + d) = first_sample_of g c + d * s)).
  - intros _. rewrite Z.add_0_r. lia.
  - intros d Hd IH Hg.
    replace (c + Z.succ d) with (c + d + 1) by lia.
    rewrite first_sample_step by lia.
    rewrite IH by (intros j Hj; apply Hg; lia).
    rewrite (Hg (c + d)) by lia. lia.
Qed.

Lemma run_walk_holds g n : forall rs lf ls,
  ascending (lf :: map fst rs) = true -> positive_spc ((lf, ls) :: rs) = true ->
  1 <= lf ->
  (forall c, lf <= c -> g c = samples_in_chunk ((lf, ls) :: rs) c) ->
  first_sample_of g lf <= n ->
  first_sample_of g (run_walk ((lf, ls) :: rs) (n - first_sample_of g lf)) <= n
  < first_sample_of g (run_walk ((lf, ls) :: rs) (n - first_sample_of g lf))
    + g (run_walk ((lf, ls) :: rs) (n - first_sample_of g lf)).
Proof.
  induction rs as [| [f s] rs IH]; intros lf ls Hasc Hpos Hlf Hg Hn.
  - apply positive_spc_cons in Hpos as [Hls _].
    cbn [run_walk].
    set (m := n - first_sample_of g lf) in *.
    pose proof (div_floor ls m Hls ltac:(lia)) as [[Hq0 Hq1] Hq].
    rewrite (first_sample_span g ls lf (m / ls)); try lia.
    + rewrite Hg by lia. cbn [samples_in_chunk]. lia.
    + intros j Hj. rewrite Hg by lia. reflexivity.
  - simpl map in Hasc. apply ascending_cons in Hasc as [Hle Hasc].
    apply positive_spc_cons in Hpos as [Hls Hpos].
    assert (Hg' : forall c, lf <= c ->
                  g c = if c <? f then ls else samples_in_chunk ((f, s) :: rs) c)
      by (intros c Hc; rewrite Hg by assumption; reflexivity).
    change (run_walk ((lf, ls) :: (f, s) :: rs) (n - first_sample_of g lf))
      with (if n - first_sample_of g lf <? (f - lf) * ls
            then lf + (n - first_sample_of g lf) / ls
            else run_walk ((f, s) :: rs) (n - first_sample_of g lf - (f - lf) * ls)).
    set (m := n - first_sample_of g lf) in *.
    destruct (Z.ltb_spec m ((f - lf) * ls)) as [Hlt | Hge].
    + pose proof (div_floor ls m Hls ltac:(lia)) as [[Hq0 Hq1] Hq].
      assert (Hin : m / ls < f - lf) by (apply Z.div_lt_upper_bound; lia).
      rewrite (first_sample_span g ls lf (m / ls)); try lia.
      * rewrite Hg' by lia.
        destruct (Z.ltb_spec (lf + m / ls) f); lia.
      * intros j Hj. rewrite Hg' by lia.
        destruct (Z.ltb_spec j f); lia.
    + assert (Hf : first_sample_of g f = first_sample_of g lf + (f - lf) * ls).
      { replace f with (lf + (f - lf)) at 1 by lia.
        apply first_sample_span; try lia.
        intros j Hj. rewrite Hg' by lia.
        destruct (Z.ltb_spec j f); lia. }
      replace (m - (f - lf) * ls) with (n - first_sample_of g f) by lia.
      apply IH; try assumption; try lia.
      intros c Hc. rewrite Hg' by lia.
      destruct (Z.ltb_spec c f); [lia | reflexivity].
Qed.

(** The examples of the specification: with the single run (1,4), samples
    0..3 lie in chunk 0 and samples 4..7 in chunk 1. *)
Example sampleToChunk_single_run :
  map (BoxSTSC.sampleToChunk (table_of_words BOX_STSC [1; 1; 4; 1]))
      [0; 1; 2; 3; 4; 5; 6; 7]
  = [Ok 0; Ok 0; Ok 0; Ok 0; Ok 1; Ok 1; Ok 1; Ok 1].
Proof. vm_compute. reflexivity. Qed.

(** Three runs: chunks 1-2 hold 4 samples, chunks 3-4 hold 2, chunk 5 on
    hold 1. *)
Example sampleToChunk_three_runs :
  map (BoxSTSC.sampleToChunk
         (table_of_words BOX_STSC [3; 1; 4; 1; 3; 2; 1; 5; 1; 1]))
      [0; 3; 4; 7; 8; 9; 10; 11; 12; 13]
  = [Ok 0; Ok 0; Ok 1; Ok 1; Ok 2; Ok 2; Ok 3; Ok 3; Ok 4; Ok 5].
Proof. vm_compute. reflexivity. Qed.

(** C1, as amended.  For every chunk-run table whose runs are ascending
    with the first run at chunk 1, whose runs hold at least one sample per
    chunk and whose closed runs together hold fewer than 2^32 samples, and
    every sample index [0 <= n < 2^31] (the non-negative range of the [int]
    parameter), [sampleToChunk n] returns the 0-based index of the chunk that
    contains sample [n] under run-length semantics. *)
Theorem sampleToChunk_run_length b runs n :
  chunk_runs b = Ok runs ->
  starts_at_one_ascending runs = true ->
  positive_spc runs = true ->
  closed_samples runs < 2 ^ 32 ->
  0 <= n < 2 ^ 31 ->
  BoxSTSC.sampleToChunk b n = Ok (chunk_of_sample runs n) /\
  chunk_holds runs (chunk_of_sample runs n + 1) n.
Proof.
  intros Hruns Hstart Hpos Hsum Hn.
  destruct runs as [| [f0 s0] rs]; [discriminate |].
  unfold starts_at_one_ascending in Hstart.
  apply andb_true_iff in Hstart as [Hf0 Hasc].
  apply Z.eqb_eq in Hf0. subst f0. simpl map in Hasc.
  pose proof Hpos as Hpos'. apply positive_spc_cons in Hpos' as [Hs0 Hposrs].
  pose proof (run_walk_bounds rs 1 s0 n Hasc Hpos ltac:(lia)) as Hb.
  unfold chunk_of_sample. split.
  - unfold chunk_runs in Hruns.
    apply bind_Ok in Hruns as (c & Hc & Hruns).
    pose proof (chunk_runs_from_length _ _ _ _ Hruns) as Hlen.
    unfold BoxSTSC.sampleToChunk. rewrite Hc. cbn [bind].
    rewrite <- Hlen in *. simpl length in *.
    apply chunk_runs_from_cons in Hruns as (Hf & Hs & Hruns).
    pose proof (stsc_spc_range _ _ _ Hs) as Rs.
    cbn [BoxSTSC.sampleToChunk_loop]. rewrite Hf. cbn [bind].
    change (u32 (0 + u32 (u32 (1 - 1) * 1))) with 0.
    rewrite (u32_small n) by lia.
    destruct (Z.ltb_spec n 0); [lia |].
    rewrite Hs. cbn [bind].
    destruct (Z.eqb_spec s0 0); [lia |].
    rewrite Z.sub_0_r. rewrite (u32_small n) by lia.
    pose proof (div_floor s0 n Hs0 ltac:(lia)) as [Hq _].
    rewrite (u32_small (1 + n / s0)) by lia.
    pose proof (sampleToChunk_loop_walk b n rs (0 + 1) 0 1 s0 Hruns) as Hloop.
    rewrite Z.sub_0_r in Hloop.
    rewrite Hloop; try assumption; try lia.
    cbn [bind]. rewrite u32_small by lia. reflexivity.
  - replace (run_walk ((1, s0) :: rs) n - 1 + 1) with (run_walk ((1, s0) :: rs) n) by lia.
    unfold chunk_holds.
    pose proof (run_walk_holds (samples_in_chunk ((1, s0) :: rs)) n rs 1 s0
                  Hasc Hpos ltac:(lia) (fun c _ => eq_refl)) as H.
    change (first_sample_of (samples_in_chunk ((1, s0) :: rs)) 1) with 0 in H.
    rewrite Z.sub_0_r in H. apply H. lia.
Qed.

Lemma sampleToChunk_run_length_witness :
  BoxSTSC.sampleToChunk
    (table_of_words BOX_STSC [3; 1; 4; 1; 3; 2; 1; 5; 1; 1]) 10
  = Ok (chunk_of_sample [(1, 4); (3, 2); (5, 1)] 10) /\
  chunk_holds [(1, 4); (3, 2); (5, 1)] (chunk_of_sample [(1, 4); (3, 2); (5, 1)] 10 + 1) 10.
Proof.
  apply (sampleToChunk_run_length
           (table_of_words BOX_STSC [3; 1; 4; 1; 3; 2; 1; 5; 1; 1])
           [(1, 4); (3, 2); (5, 1)] 10).
  - vm_compute. reflexivity.
  - reflexivity.
  - reflexivity.
  - vm_compute. reflexivity.
  - lia.
Defined.

(** C1, as stated, fails when the 32-bit sample counter wraps: with the
    runs (1,65536) and (65537,1) the first run holds 2^32 samples, sample 0
    lies in chunk 0, and [sampleToChunk 0] returns 65536. *)
Lemma sampleToChunk_wrap_counterexample :
  chunk_runs (table_of_words BOX_STSC [2; 1; 65536; 1; 65537; 1; 1])
  = Ok [(1, 65536); (65537, 1)] /\
  starts_at_one_ascending [(1, 65536); (65537, 1)] = true /\
  chunk_holds [(1, 65536); (65537, 1)] 1 0 /\
  chunk_of_sample [(1, 65536); (65537, 1)] 0 = 0 /\
  BoxSTSC.sampleToChunk (table_of_words BOX_STSC [2; 1; 65536; 1; 65537; 1; 1]) 0
  = Ok 65536.
Proof.
  repeat split; try (vm_compute; reflexivity); vm_compute; discriminate.
Qed.

(** A run of empty chunks makes the division by [spc] a division by zero:
    with the runs (1,0) and (2,4), sample 0 lies in chunk 1. *)
Lemma sampleToChunk_empty_chunks :
  chunk_runs (table_of_words BOX_STSC [2; 1; 0; 1; 2; 4; 1]) = Ok [(1, 0); (2, 4)] /\
  starts_at_one_ascending [(1, 0); (2, 4)] = true /\
  chunk_holds [(1, 0); (2, 4)] 2 0 /\
  BoxSTSC.sampleToChunk (table_of_words BOX_STSC [2; 1; 0; 1; 2; 4; 1]) 0
  = Err DivByZero.
Proof.
  repeat split; try (vm_compute; reflexivity); vm_compute; discriminate.
Qed.

(** ** The decode-time run table: [sampleToTime] *)

Lemma time_runs_from_cons b k i c d rs :
  time_runs_from b (S k) i = Ok ((c, d) :: rs) ->
  BoxSTTS.count_at b i = Ok c /\ BoxSTTS.delta b i = Ok d /\
  time_runs_from b k (i + 1) = Ok rs.
Proof.
  simpl. intros H.
  apply bind_Ok in H as (c0 & Hc & H).
  apply bind_Ok in H as (d0 & Hd & H).
  apply bind_Ok in H as (r0 & Hr & H).
  injection H as -> -> ->. auto.
Qed.

Lemma time_runs_from_length b : forall k i rs,
  time_runs_from b k i = Ok rs -> length rs = k.
Proof.
  induction k as [| k IH]; simpl; intros i rs H.
  - injection H as <-. reflexivity.
  - apply bind_Ok in H as (c0 & Hc & H).
    apply bind_Ok in H as (d0 & Hd & H).
    apply bind_Ok in H as (r0 & Hr & H).
    injection H as <-. simpl. f_equal. eapply IH; eassumption.
Qed.

Lemma total_samples_nonneg b : forall rs k i,
  time_runs_from b k i = Ok rs -> 0 <= total_samples rs.
Proof.
  induction rs as [| [c d] rs IH]; intros k i Hruns; [simpl; lia |].
  destruct k as [| k]; [discriminate |].
  apply time_runs_from_cons in Hruns as (Hc & _ & Hruns).
  pose proof (ui32_range _ _ _ Hc). specialize (IH _ _ Hruns).
  cbn [total_samples]. lia.
Qed.

Lemma products_fit_cons c d rs :
  products_fit ((c, d) :: rs) = true <-> c * d < 2 ^ 32 /\ products_fit rs = true.
Proof.
  unfold products_fit. simpl. rewrite andb_true_iff, Z.ltb_lt. tauto.
Qed.

Lemma decode_time_bounds rs : forall n,
  (forall c d, In (c, d) rs -> 0 <= c /\ 0 <= d) -> products_fit rs = true ->
  0 <= n -> 0 <= decode_time rs n <= Z.of_nat (length rs) * (2 ^ 32 - 1).
Proof.
  induction rs as [| [c d] rs IH]; intros n Hr Hfit Hn.
  - simpl. lia.
  - apply products_fit_cons in Hfit as [Hcd Hfit].
    destruct (Hr c d (or_introl eq_refl)) as [Hc Hd].
    cbn [decode_time]. cbn [length]. rewrite Nat2Z.inj_succ.
    destruct (Z.ltb_spec n c).
    + assert (0 <= n * d <= c * d) by nia. lia.
    + specialize (IH (n - c) (fun c' d' H' => Hr c' d' (or_intror H')) Hfit ltac:(lia)).
      nia.
Qed.

(** When no product overflows 32 bits, the loop computes the decode time
    of the specification on top of the time [t] accumulated so far. *)
Lemma sampleToTime_loop_exact b : forall rs i n t,
  time_runs_from b (length rs) i = Ok rs ->
  products_fit rs = true ->
  0 <= n < 2 ^ 32 -> 0 <= t ->
  t + Z.of_nat (length rs) * (2 ^ 32 - 1) < 2 ^ 64 ->
  BoxSTTS.sampleToTime_loop b (length rs) i n t
  = Ok (t + if n <? total_samples rs then decode_time rs n else total_duration rs).
Proof.
  induction rs as [| [c d] rs IH]; intros i n t Hruns Hfit Hn Ht Hbound.
  - simpl. destruct (Z.ltb_spec n 0); [lia |]. rewrite Z.add_0_r. reflexivity.
  - simpl length in *. rewrite Nat2Z.inj_succ in Hbound.
    apply time_runs_from_cons in Hruns as (Hc & Hd & Hruns).
    pose proof (ui32_range _ _ _ Hc) as Rc.
    pose proof (ui32_range _ _ _ Hd) as Rd.
    apply products_fit_cons in Hfit as [Hcd Hfit].
    cbn [BoxSTTS.sampleToTime_loop]. rewrite Hc, Hd. cbn [bind].
    cbn [total_samples decode_time total_duration].
    pose proof (total_samples_nonneg _ _ _ _ Hruns) as Htot.
    destruct (Z.ltb_spec n c) as [Hlt | Hge].
    + destruct (Z.ltb_spec n (c + total_samples rs)); [| lia].
      assert (0 <= n * d <= c * d) by nia.
      rewrite (u32_small (n * d)) by lia.
      rewrite u64_small by lia. reflexivity.
    + assert (0 <= c * d) by nia.
      rewrite (u32_small (n - c)) by lia.
      rewrite (u32_small (c * d)) by lia.
      rewrite (u64_small (t + c * d)) by lia.
      rewrite IH; try assumption; try lia.
      f_equal.
      destruct (Z.ltb_spec (n - c) (total_samples rs));
        destruct (Z.ltb_spec n (c + total_samples rs)); lia.
Qed.

Lemma length_lt_count b c (rs : list (Z * Z)) :
  BoxSTTS.count b = Ok c -> length rs = Z.to_nat c ->
  Z.of_nat (length rs) * (2 ^ 32 - 1) < 2 ^ 64.
Proof.
  intros Hc Hlen. pose proof (ui32_range _ _ _ Hc). rewrite Hlen. nia.
Qed.

(** X11: with products [count * delta] that fit in 32 bits, [sampleToTime]
    is the run-length decode time for every sample of the table: the sum of
    [count * delta] over the runs before the sample plus the sample's
    position in its own run times that run's delta. *)
Lemma sampleToTime_exact b runs n :
  time_runs b = Ok runs -> products_fit runs = true ->
  0 <= n < total_samples runs -> n < 2 ^ 32 ->
  BoxSTTS.sampleToTime b n = Ok (decode_time runs n).
Proof.
  intros Hruns Hfit Hn Hn32.
  unfold time_runs in Hruns. apply bind_Ok in Hruns as (c & Hc & Hruns).
  pose proof (time_runs_from_length _ _ _ _ Hruns) as Hlen.
  unfold BoxSTTS.sampleToTime. rewrite Hc. cbn [bind].
  rewrite <- Hlen in *. rewrite (u32_small n) by lia.
  rewrite sampleToTime_loop_exact; try assumption; try lia.
  - destruct (Z.ltb_spec n (total_samples runs)); [reflexivity | lia].
  - pose proof (length_lt_count b c runs Hc Hlen). lia.
Qed.

(** X12: with products that fit in 32 bits, an index at or past the end of
    the table yields the total duration, the sum of [count * delta] over all
    runs; an empty table yields 0. *)
Lemma sampleToTime_past_end b runs n :
  time_runs b = Ok runs -> products_fit runs = true ->
  total_samples runs <= n < 2 ^ 32 ->
  BoxSTTS.sampleToTime b n = Ok (total_duration runs).
Proof.
  intros Hruns Hfit Hn.
  unfold time_runs in Hruns. apply bind_Ok in Hruns as (c & Hc & Hruns).
  pose proof (time_runs_from_length _ _ _ _ Hruns) as Hlen.
  pose proof (total_samples_nonneg _ _ _ _ Hruns) as Htot.
  unfold BoxSTTS.sampleToTime. rewrite Hc. cbn [bind].
  rewrite <- Hlen in *. rewrite (u32_small n) by lia.
  rewrite sampleToTime_loop_exact; try assumption; try lia.
  - destruct (Z.ltb_spec n (total_samples runs)); [lia | reflexivity].
  - pose proof (length_lt_count b c runs Hc Hlen). lia.
Qed.

(** The examples of the specification: runs (3,1000) and (2,500). *)
Example sampleToTime_spec_examples :
  map (BoxSTTS.sampleToTime (table_of_words BOX_STTS [2; 3; 1000; 2; 500]))
      [0; 2; 3; 4]
  = [Ok 0; Ok 2000; Ok 3000; Ok 3500].
Proof. vm_compute. reflexivity. Qed.

(** Whatever the products are, the loop ends with a time as soon as the
    entries below the declared count can be read: past the end of the table
    it returns the sum of the products as the source forms them, in 32
    bits. *)
Lemma sampleToTime_loop_past_end b : forall rs i n t,
  time_runs_from b (length rs) i = Ok rs ->
  total_samples rs <= n < 2 ^ 32 -> 0 <= t ->
  t + Z.of_nat (length rs) * (2 ^ 32 - 1) < 2 ^ 64 ->
  BoxSTTS.sampleToTime_loop b (length rs) i n t = Ok (t + wrapped_duration rs).
Proof.
  induction rs as [| [c d] rs IH]; intros i n t Hruns Hn Ht Hbound.
  - simpl. rewrite Z.add_0_r. reflexivity.
  - simpl length in *. rewrite Nat2Z.inj_succ in Hbound.
    apply time_runs_from_cons in Hruns as (Hc & Hd & Hruns).
    pose proof (ui32_range _ _ _ Hc) as Rc.
    pose proof (total_samples_nonneg _ _ _ _ Hruns) as Htot.
    cbn [total_samples] in Hn.
    cbn [BoxSTTS.sampleToTime_loop]. rewrite Hc, Hd. cbn [bind].
    destruct (Z.ltb_spec n c); [lia |].
    pose proof (u32_range (c * d)) as Rp.
    rewrite (u32_small (n - c)) by lia.
    rewrite (u64_small (t + u32 (c * d))) by lia.
    rewrite IH; try assumption; try lia.
    cbn [wrapped_duration]. f_equal. lia.
Qed.

(** [sampleToTime] is defined past the end of the table: it reads the
    entries below the declared count only, and returns the sum of the
    32-bit products. *)
Lemma sampleToTime_defined_past_end b runs n :
  time_runs b = Ok runs -> total_samples runs <= n < 2 ^ 32 ->
  BoxSTTS.sampleToTime b n = Ok (wrapped_duration runs).
Proof.
  intros Hruns Hn.
  unfold time_runs in Hruns. apply bind_Ok in Hruns as (c & Hc & Hruns).
  pose proof (time_runs_from_length _ _ _ _ Hruns) as Hlen.
  unfold BoxSTTS.sampleToTime. rewrite Hc. cbn [bind].
  rewrite <- Hlen in *.
  pose proof (total_samples_nonneg _ _ _ _ Hruns) as Htot.
  pose proof (length_lt_count b c runs Hc Hlen) as Hbound.
  rewrite (u32_small n) by lia.
  rewrite sampleToTime_loop_past_end; try assumption; try lia.
  reflexivity.
Qed.

(** C3: the decode time of a sample is the sum of [count * delta] over the
    runs before it plus [(n - consumed) * delta] of its own run.  The source
    forms the products in 32 bits, so at 90 kHz with one run of 2000000
    samples of 3000 ticks, sample 1500000 has decode time 4500000000 and
    [sampleToTime] returns 205032704. *)
Theorem sampleToTime_product_wraps :
  time_runs (table_of_words BOX_STTS [1; 2000000; 3000]) = Ok [(2000000, 3000)] /\
  1500000 < total_samples [(2000000, 3000)] /\
  decode_time [(2000000, 3000)] 1500000 = 4500000000 /\
  BoxSTTS.sampleToTime (table_of_words BOX_STTS [1; 2000000; 3000]) 1500000
  = Ok 205032704.
Proof. repeat split; vm_compute; reflexivity. Qed.

(** C10: past the end of the table [sampleToTime] is defined and is meant
    to be the total duration, the sum of [count * delta].  It is defined
    ([sampleToTime_defined_past_end]), yet with the 32-bit products the run
    of 2000000 samples of 3000 ticks, of total duration 6000000000, gives
    1705032704. *)
Theorem sampleToTime_past_end_wraps :
  time_runs (table_of_words BOX_STTS [1; 2000000; 3000]) = Ok [(2000000, 3000)] /\
  total_samples [(2000000, 3000)] <= 2000000 /\
  total_duration [(2000000, 3000)] = 6000000000 /\
  BoxSTTS.sampleToTime (table_of_words BOX_STTS [1; 2000000; 3000]) 2000000
  = Ok 1705032704.
Proof. repeat split; vm_compute; try reflexivity; discriminate. Qed.

(** ** The media header: 64-bit fields *)

Lemma lor_u32 h l : 0 <= h < 2 ^ 32 -> 0 <= l < 2 ^ 32 -> 0 <= Z.lor h l < 2 ^ 32.
Proof.
  intros Hh Hl. split; [apply Z.lor_nonneg; lia |].
  destruct (Z.eq_dec (Z.lor h l) 0) as [-> | Hnz]; [reflexivity |].
  apply Z.log2_lt_pow2; [pose proof (proj2 (Z.lor_nonneg h l) (conj (proj1 Hh) (proj1 Hl))); lia |].
  rewrite Z.log2_lor by lia.
  apply Z.max_lub_lt.
  - destruct (Z.eq_dec h 0) as [-> | ?]; [reflexivity | apply Z.log2_lt_pow2; lia].
  - destruct (Z.eq_dec l 0) as [-> | ?]; [reflexivity | apply Z.log2_lt_pow2; lia].
Qed.

(** [ui64] never yields a value of more than 32 bits: the high word is not
    shifted. *)
Lemma ui64_below_2_32 b pos v : ui64 b pos = Ok v -> 0 <= v < 2 ^ 32.
Proof.
  unfold ui64. intros H.
  apply bind_Ok in H as (h & Hh & H).
  apply bind_Ok in H as (p & _ & H).
  apply bind_Ok in H as (l & Hl & H).
  injection H as <-.
  apply lor_u32; eapply ui32_range; eassumption.
Qed.

(** C7: for a version-1 media header, [duration()] is to be the 64-bit
    big-endian integer of the payload, high word shifted left by 32 or-ed
    with the low word.  On the header above, whose duration field holds
    2^32 + 5, the source returns 5: [ui64] or-s the two words without
    the shift. *)
Theorem mdhd_duration_v1_unshifted :
  ui32 mdhd_v1_example 20 = Ok 1 /\
  ui32 mdhd_v1_example 24 = Ok 5 /\
  Z.lor (Z.shiftl 1 32) 5 = 4294967301 /\
  BoxMDHD.duration mdhd_v1_example = Ok 5.
Proof. repeat split; vm_compute; reflexivity. Qed.

(** ** Bytes and integers *)

Lemma land_mul_pow2_small a y k :
  0 <= k -> 0 <= y < 2 ^ k -> Z.land (a * 2 ^ k) y = 0.
Proof.
  intros Hk Hy. apply Z.bits_inj'. intros n Hn.
  rewrite Z.land_spec, Z.bits_0.
  destruct (Z.ltb_spec n k) as [Hlt | Hge].
  - rewrite Z.mul_pow2_bits_low by lia. reflexivity.
  - destruct (Z.eq_dec y 0) as [-> | Hy0].
    + rewrite Z.bits_0. apply andb_false_r.
    + rewrite (Z.bits_above_log2 y n); [apply andb_false_r | lia |].
      apply Z.log2_lt_pow2; [lia |].
      apply Z.lt_le_trans with (2 ^ k); [lia |].
      apply Z.pow_le_mono_r; lia.
Qed.

Lemma lor_shiftl_add a y k :
  0 <= k -> 0 <= y < 2 ^ k -> Z.lor (Z.shiftl a k) y = a * 2 ^ k + y.
Proof.
  intros Hk Hy. rewrite Z.shiftl_mul_pow2 by assumption.
  pose proof (land_mul_pow2_small a y k Hk Hy) as Hland.
  rewrite <- (Z.lxor_lor _ _ Hland). symmetry. apply Z.add_nocarry_lxor. exact Hland.
Qed.

Lemma be32_sum b0 b1 b2 b3 :
  0 <= b0 < 256 -> 0 <= b1 < 256 -> 0 <= b2 < 256 -> 0 <= b3 < 256 ->
  be32 b0 b1 b2 b3 = b0 * 2 ^ 24 + b1 * 2 ^ 16 + b2 * 2 ^ 8 + b3.
Proof.
  intros H0 H1 H2 H3. unfold be32.
  remember (b0 * 2 ^ 24 + b1 * 2 ^ 16 + b2 * 2 ^ 8 + b3) as sum eqn:Hsum.
  rewrite (Z.shiftl_mul_pow2 b1 16), (Z.shiftl_mul_pow2 b2 8) by lia.
  rewrite (lor_shiftl_add b0 (b1 * 2 ^ 16) 24) by lia.
  replace (b0 * 2 ^ 24 + b1 * 2 ^ 16) with ((b0 * 2 ^ 8 + b1) * 2 ^ 16) by lia.
  rewrite <- (Z.shiftl_mul_pow2 (b0 * 2 ^ 8 + b1) 16) by lia.
  rewrite (lor_shiftl_add (b0 * 2 ^ 8 + b1) (b2 * 2 ^ 8) 16) by lia.
  replace ((b0 * 2 ^ 8 + b1) * 2 ^ 16 + b2 * 2 ^ 8)
    with ((b0 * 2 ^ 16 + b1 * 2 ^ 8 + b2) * 2 ^ 8) by lia.
  rewrite <- (Z.shiftl_mul_pow2 (b0 * 2 ^ 16 + b1 * 2 ^ 8 + b2) 8) by lia.
  rewrite (lor_shiftl_add _ b3 8) by lia.
  rewrite u32_small by lia. lia.
Qed.

Lemma byte_range (x : byte) : 0 <= byte.unsigned x < 256.
Proof. apply byte.unsigned_range. Qed.

Lemma of_Z_byte (x : byte) (z : Z) : z mod 2 ^ 8 = byte.unsigned x -> byte.of_Z z = x.
Proof.
  intros H. apply byte.unsigned_inj. rewrite byte.unsigned_of_Z. exact H.
Qed.

(** Writing back a 32-bit word read big-endian gives its four bytes. *)
Lemma bytes32_be32 (x0 x1 x2 x3 : byte) :
  bytes32 (u32 (be32 (byte.unsigned x0) (byte.unsigned x1)
                     (byte.unsigned x2) (byte.unsigned x3)))
  = [x0; x1; x2; x3].
Proof.
  pose proof (byte_range x0). pose proof (byte_range x1).
  pose proof (byte_range x2). pose proof (byte_range x3).
  rewrite be32_sum by assumption.
  rewrite u32_small by lia.
  unfold bytes32. rewrite !Z.shiftr_div_pow2 by lia.
  repeat f_equal; apply of_Z_byte;
    change (2 ^ 24) with 16777216; change (2 ^ 16) with 65536;
    change (2 ^ 8) with 256; Z.to_euclidean_division_equations; lia.
Qed.

Lemma bytes24_be24 (x0 x1 x2 : byte) :
  bytes24 (u32 (u32 (Z.lor (Z.lor (Z.shiftl (byte.unsigned x0) 16)
                                  (Z.shiftl (byte.unsigned x1) 8))
                           (byte.unsigned x2))))
  = [x0; x1; x2].
Proof.
  pose proof (byte_range x0). pose proof (byte_range x1). pose proof (byte_range x2).
  rewrite u32_idem.
  rewrite (Z.shiftl_mul_pow2 (byte.unsigned x1) 8) by lia.
  rewrite (lor_shiftl_add _ (byte.unsigned x1 * 2 ^ 8) 16) by lia.
  replace (byte.unsigned x0 * 2 ^ 16 + byte.unsigned x1 * 2 ^ 8)
    with ((byte.unsigned x0 * 2 ^ 8 + byte.unsigned x1) * 2 ^ 8) by lia.
  rewrite <- (Z.shiftl_mul_pow2 (byte.unsigned x0 * 2 ^ 8 + byte.unsigned x1) 8) by lia.
  rewrite (lor_shiftl_add _ (byte.unsigned x2) 8) by lia.
  rewrite u32_small by lia.
  unfold bytes24. rewrite !Z.shiftr_div_pow2 by lia.
  repeat f_equal; apply of_Z_byte;
    change (2 ^ 16) with 65536; change (2 ^ 8) with 256;
    Z.to_euclidean_division_equations; lia.
Qed.

Lemma bytes8_u8 (x : byte) : bytes8 (u8 (byte.unsigned x)) = [x].
Proof.
  unfold bytes8, u8. f_equal. apply of_Z_byte.
  rewrite Z.mod_mod by lia. apply Z.mod_small. apply byte.unsigned_range.
Qed.

Lemma of_Z_congr a b : a mod 2 ^ 8 = b mod 2 ^ 8 -> byte.of_Z a = byte.of_Z b.
Proof.
  intros H. apply byte.unsigned_inj. rewrite !byte.unsigned_of_Z. exact H.
Qed.

Lemma bytes32_u32 z : bytes32 (u32 z) = bytes32 z.
Proof.
  unfold bytes32, u32. rewrite !Z.shiftr_div_pow2 by lia.
  repeat (apply (f_equal2 (@cons byte));
          [apply of_Z_congr;
           change (2 ^ 32) with 4294967296; change (2 ^ 24) with 16777216;
           change (2 ^ 16) with 65536; change (2 ^ 8) with 256;
           Z.to_euclidean_division_equations; lia |]).
  reflexivity.
Qed.

(** ** The keyframe scan *)

(** The examples of the specification: a sample with a unit of type 5 is
    a sync sample, a sample with a unit of type 1 only is not. *)
Example idr_scan_spec_examples :
  idr_scan 2 idr_6_bytes 0 false = Ok true /\
  idr_scan 2 non_idr_6_bytes 0 false = Ok false /\
  is_sync_sample idr_6_bytes = true /\
  is_sync_sample non_idr_6_bytes = false.
Proof. repeat split; vm_compute; reflexivity. Qed.

(** C4: a unit is to be read whenever 5 or more bytes remain, and the
    sample is a sync sample exactly when some unit read has type 5.  The
    loop of the source runs while [p + 5 < size], that is while 6 or more
    bytes remain: on the 5-byte sample holding one IDR unit it reads no unit
    and answers false, with any fuel. *)
Theorem idr_scan_skips_last_5_bytes (fuel : nat) :
  Z.of_nat (length idr_5_bytes) = 5 /\
  Z.land (byte_or0 idr_5_bytes 4) 31 = 5 /\
  is_sync_sample idr_5_bytes = true /\
  idr_scan (S fuel) idr_5_bytes 0 false = Ok false.
Proof. repeat split. Qed.

(** A length field of 0xFFFFFFFC makes [p += sz + 4] add 0 modulo 2^32:
    the loop of the source stays on the same unit for ever. *)
Lemma idr_scan_never_ends (fuel : nat) :
  idr_scan fuel wrapping_unit 0 false = Err OutOfFuel.
Proof.
  induction fuel as [| fuel IH]; [reflexivity |].
  cbn [idr_scan].
  change (u32 (0 + 5) <? Z.of_nat (length wrapping_unit)) with true.
  cbv iota.
  change (vec_at wrapping_unit 0) with (Ok 255).
  change (vec_at wrapping_unit (0 + 1)) with (Ok 255).
  change (vec_at wrapping_unit (0 + 2)) with (Ok 255).
  change (vec_at wrapping_unit (0 + 3)) with (Ok 252).
  change (vec_at wrapping_unit (0 + 4)) with (Ok 65).
  cbn [bind].
  change (u32 (0 + u32 (be32 255 255 255 252 + 4))) with 0.
  change (Z.land 65 31 =? 5) with false. cbv iota.
  exact IH.
Qed.

(** *** Samples made of whole units *)

Lemma be32_bytes32 z :
  0 <= z < 2 ^ 32 ->
  be32 (byte.unsigned (byte.of_Z (Z.shiftr z 24)))
       (byte.unsigned (byte.of_Z (Z.shiftr z 16)))
       (byte.unsigned (byte.of_Z (Z.shiftr z 8)))
       (byte.unsigned (byte.of_Z z)) = z.
Proof.
  intros Hz. rewrite be32_sum by apply byte_range.
  rewrite !byte.unsigned_of_Z. unfold byte.wrap.
  rewrite !Z.shiftr_div_pow2 by lia.
  change (2 ^ 32) with 4294967296 in Hz.
  change (2 ^ 24) with 16777216; change (2 ^ 16) with 65536; change (2 ^ 8) with 256.
  Z.to_euclidean_division_equations; lia.
Qed.

Lemma vec_at_app pre (x : byte) r k :
  k = Z.of_nat (length pre) -> vec_at (pre ++ x :: r) k = Ok (byte.unsigned x).
Proof.
  intros ->. unfold vec_at.
  destruct (Z.ltb_spec (Z.of_nat (length pre)) 0); [lia |].
  rewrite Nat2Z.id, nth_error_app2, Nat.sub_diag by lia. reflexivity.
Qed.

Lemma vec_at_skip pre r k j :
  0 <= j -> k = Z.of_nat (length pre) + j -> vec_at (pre ++ r) k = vec_at r j.
Proof.
  intros Hj ->. unfold vec_at.
  destruct (Z.ltb_spec (Z.of_nat (length pre) + j) 0); [lia |].
  destruct (Z.ltb_spec j 0); [lia |].
  rewrite nth_error_app2 by lia.
  replace (Z.to_nat (Z.of_nat (length pre) + j) - length pre)%nat with (Z.to_nat j) by lia.
  reflexivity.
Qed.

Lemma sample_of_units_cons u us :
  sample_of_units (u :: us) = nal_unit u ++ sample_of_units us.
Proof. reflexivity. Qed.

Lemma nal_unit_length u : length (nal_unit u) = (4 + length u)%nat.
Proof. unfold nal_unit. rewrite length_app. reflexivity. Qed.

(** On a sample made of whole units of two bytes or more, the loop of the
    source ends and finds exactly the IDR units. *)
Lemma idr_scan_units : forall units pre rap,
  Forall (fun u => (2 <= length u)%nat) units ->
  Z.of_nat (length (pre ++ sample_of_units units)) + 5 < 2 ^ 32 ->
  idr_scan (S (length units)) (pre ++ sample_of_units units)
           (Z.of_nat (length pre)) rap
  = Ok (rap || has_idr_unit units).
Proof.
  induction units as [| u us IH]; intros pre rap Hall Hsize.
  - cbn [length idr_scan sample_of_units map concat has_idr_unit existsb] in *.
    rewrite app_nil_r in *. rewrite u32_small by lia.
    destruct (Z.ltb_spec (Z.of_nat (length pre) + 5) (Z.of_nat (length pre))); [lia |].
    rewrite orb_false_r. reflexivity.
  - inversion Hall as [| ? ? Hu Hus]; subst.
    rewrite sample_of_units_cons in *.
    destruct u as [| t u']; [simpl in Hu; lia |].
    assert (Hlen : Z.of_nat (length (pre ++ nal_unit (t :: u') ++ sample_of_units us))
                   = Z.of_nat (length pre) + 4 + Z.of_nat (length (t :: u'))
                     + Z.of_nat (length (sample_of_units us)))
      by (rewrite !length_app, nal_unit_length; lia).
    change (idr_scan (S (length ((t :: u') :: us))))
      with (idr_scan (S (S (length us)))).
    cbn [length] in Hu.
    remember (S (length us)) as fuel eqn:Hfuel.
    cbn [idr_scan].
    rewrite (u32_small (Z.of_nat (length pre) + 5)) by lia.
    destruct (Z.ltb_spec (Z.of_nat (length pre) + 5)
                (Z.of_nat (length (pre ++ nal_unit (t :: u') ++ sample_of_units us))));
      [| cbn [length] in Hlen; lia].
    unfold nal_unit at 1 2 3 4 5. unfold bytes32. cbn [app].
    rewrite (vec_at_skip pre _ _ 0), (vec_at_skip pre _ _ 1), (vec_at_skip pre _ _ 2),
      (vec_at_skip pre _ _ 3), (vec_at_skip pre _ _ 4) by lia.
    cbv [vec_at Z.ltb Z.compare Z.to_nat Pos.to_nat Pos.iter_op Nat.add nth_error].
    cbn [bind].
    rewrite be32_bytes32 by (cbn [length] in *; lia).
    rewrite (u32_small (Z.of_nat (length (t :: u')) + 4)) by (cbn [length] in *; lia).
    rewrite u32_small by (cbn [length] in *; lia).
    subst fuel.
    replace (Z.of_nat (length pre) + (Z.of_nat (length (t :: u')) + 4))
      with (Z.of_nat (length (pre ++ nal_unit (t :: u'))))
      by (rewrite length_app, nal_unit_length; lia).
    pose proof (IH (pre ++ nal_unit (t :: u'))) as IH'.
    unfold nal_unit in IH' at 1 2. unfold bytes32 in IH'.
    rewrite <- !app_assoc in IH'. cbn [app] in IH'.
    unfold nal_unit at 1. unfold bytes32.
    rewrite IH'; [| assumption |].
    + cbn [has_idr_unit existsb]. unfold unit_type. cbn [byte_or0 nth_error].
      destruct (Z.land (byte.unsigned t) 31 =? 5), rap; reflexivity.
    + rewrite Hlen in Hsize. cbn [length] in Hsize.
      rewrite length_app. cbn [length]. rewrite length_app. lia.
Qed.

Lemma sync_scan_units : forall units fuel,
  (length units <= fuel)%nat ->
  Forall (fun u => (1 <= length u)%nat /\ Z.of_nat (length u) < 2 ^ 32) units ->
  sync_scan fuel (sample_of_units units) = has_idr_unit units.
Proof.
  induction units as [| u us IH]; intros fuel Hfuel Hall.
  - destruct fuel; reflexivity.
  - inversion Hall as [| ? ? [Hu1 Hu2] Hus]; subst.
    destruct fuel as [| fuel]; [simpl in Hfuel; lia |].
    destruct u as [| t u']; [simpl in Hu1; lia |].
    rewrite sample_of_units_cons.
    cbn [sync_scan].
    destruct (Nat.leb_spec 5 (length (nal_unit (t :: u') ++ sample_of_units us)))
      as [_ | Hshort];
      [| rewrite length_app, nal_unit_length in Hshort; cbn [length] in Hshort; lia].
    unfold nal_unit at 1 2 3 4 5 6. unfold bytes32. cbn [app byte_or0 nth_error].
    rewrite be32_bytes32 by lia.
    replace (Z.to_nat (Z.of_nat (length (t :: u')) + 4))
      with (4 + length (t :: u'))%nat by lia.
    cbn [Nat.add skipn length].
    rewrite skipn_app, skipn_all, Nat.sub_diag. cbn [skipn app].
    rewrite IH by (try assumption; simpl in Hfuel; lia).
    reflexivity.
Qed.

Lemma sample_of_units_length units :
  (length units <= length (sample_of_units units))%nat.
Proof.
  induction units as [| u us IH]; [simpl; lia |].
  rewrite sample_of_units_cons, length_app, nal_unit_length. simpl. lia.
Qed.

(** Where every unit has two bytes or more, the scan of the source and the
    classifier of the specification agree: they part only on a cursor with
    exactly 5 bytes left, and on lengths that wrap the 32-bit cursor. *)
Lemma idr_scan_agrees_on_units units :
  Forall (fun u => (2 <= length u)%nat) units ->
  Z.of_nat (length (sample_of_units units)) + 5 < 2 ^ 32 ->
  idr_scan (S (length units)) (sample_of_units units) 0 false
  = Ok (is_sync_sample (sample_of_units units)).
Proof.
  intros Hall Hsize.
  pose proof (idr_scan_units units [] false Hall Hsize) as H.
  cbn [app length] in H. change (Z.of_nat 0) with 0 in H.
  rewrite H. cbn [orb]. f_equal. symmetry.
  unfold is_sync_sample. apply sync_scan_units.
  - apply sample_of_units_length.
  - clear H. induction units as [| u us IH]; constructor.
    + inversion Hall; subst.
      rewrite sample_of_units_cons, length_app, nal_unit_length in Hsize. lia.
    + inversion Hall; subst. apply IH; [assumption |].
      rewrite sample_of_units_cons, length_app in Hsize. lia.
Qed.

(** ** The remux loop *)

(** The value written as back-pointer when [prev] is the position at which
    the tag began. *)
Lemma back_pointer_value a b : u32 (u64 (u32 a - u64 b)) = u32 (a - b).
Proof.
  rewrite u32_u64. unfold u32 at 1 2. rewrite Zminus_mod_idemp_l.
  rewrite <- (Zminus_mod_idemp_r a (u64 b)).
  fold (u32 (u64 b)). rewrite u32_u64. unfold u32.
  rewrite Zminus_mod_idemp_r. reflexivity.
Qed.

Lemma os_write_good os bs :
  os_failed os = false -> os_write os bs = mkOstream (os_bytes os ++ bs) false.
Proof. intros H. unfold os_write. rewrite H. reflexivity. Qed.

Lemma sequence_header_tag_length config :
  Z.of_nat (length (sequence_header_tag config)) = Z.of_nat (length config) + 16.
Proof.
  unfold sequence_header_tag. rewrite !length_app. simpl length. lia.
Qed.

(** C5: every tag is to be followed by a 4-byte trailer equal to the byte
    length of that tag, its 11-byte header plus its payload.  For the
    sequence-header tag the source subtracts [prev = 0] from the write
    position, so the trailer is the length of the tag plus the 13 bytes
    written before it (the file header and the first back-pointer). *)
Theorem sequence_header_back_pointer (t : Track) (config : list byte) :
  avc_config t = Ok config ->
  exists prev,
    emit_prologue t empty_ostream
    = Ok (mkOstream
            (flv_file_header ++ bytes32 0 ++ sequence_header_tag config
             ++ bytes32 (u32 (Z.of_nat (length (sequence_header_tag config)) + 13)))
            false, prev).
Proof.
  intros Hc. unfold emit_prologue. rewrite Hc. cbn [bind].
  eexists. unfold put_prev_tag_size. f_equal. f_equal.
  cbv [flv.put_header flv.put_tag_header write8 write24 write32 os_write
       empty_ostream os_failed os_bytes tellp flv.signature flv.version
       flv.type_flags flv.data_offset flv.type flv.size flv.timestamp
       flv.stream_id].
  f_equal.
  rewrite Z.sub_0_r, u32_u64, !u32_idem.
  rewrite sequence_header_tag_length.
  rewrite !length_app. simpl length.
  replace (Z.of_nat (0 + 3 + 1 + 1 + 4 + 4 + 1 + 3 + 3 + 1 + 3 + 1 + 1 + 3 + length config))
    with (Z.of_nat (length config) + 16 + 13) by lia.
  unfold flv_file_header, sequence_header_tag.
  rewrite <- !app_assoc.
  reflexivity.
Qed.

Lemma sequence_header_back_pointer_witness :
  avc_config (example_track stsz_per_sample) = Ok [Byte.x01; Byte.x64; Byte.x00] /\
  exists prev,
    emit_prologue (example_track stsz_per_sample) empty_ostream
    = Ok (mkOstream
            (flv_file_header ++ bytes32 0
             ++ sequence_header_tag [Byte.x01; Byte.x64; Byte.x00]
             ++ bytes32 (u32 (Z.of_nat (length (sequence_header_tag
                                                  [Byte.x01; Byte.x64; Byte.x00])) + 13)))
            false, prev).
Proof.
  split.
  - vm_compute. reflexivity.
  - apply (sequence_header_back_pointer (example_track stsz_per_sample)
             [Byte.x01; Byte.x64; Byte.x00]).
    vm_compute. reflexivity.
Defined.

(** On the example track the sequence-header tag is 19 bytes long and its
    trailer reads 32. *)
Example sequence_header_trailer_is_32 :
  Z.of_nat (length (sequence_header_tag [Byte.x01; Byte.x64; Byte.x00])) = 19 /\
  exists prev,
    emit_prologue (example_track stsz_per_sample) empty_ostream
    = Ok (mkOstream
            (flv_file_header ++ bytes32 0
             ++ sequence_header_tag [Byte.x01; Byte.x64; Byte.x00]
             ++ bytes32 32) false, prev).
Proof. split; [reflexivity |]. eexists. vm_compute. reflexivity. Qed.

(** *** One sample *)

Lemma vec_resize_length v n v' :
  vec_resize v n = Ok v' -> 0 <= n -> Z.of_nat (length v') = n.
Proof.
  unfold vec_resize. destruct (2 ^ 63 <=? n); [discriminate |].
  intros H Hn. injection H as <-.
  rewrite length_app, length_firstn, repeat_length. lia.
Qed.

Lemma read_length n s got s' :
  read n s = (got, s') -> 0 <= n -> Z.of_nat (length got) <= n.
Proof.
  unfold read. intros H Hn.
  destruct (is_failbit (sentry s)).
  - injection H as <- _. simpl. lia.
  - set (g := firstn (Z.to_nat n) (skipn (Z.to_nat (is_pos (sentry s))) (is_data (sentry s)))) in *.
    assert (Hg : Z.of_nat (length g) <= n) by (subst g; rewrite length_firstn; lia).
    destruct (Z.of_nat (length g) <? n); injection H as <- _; exact Hg.
Qed.

Lemma read_into_length v s v' s' :
  read_into v (Z.of_nat (length v)) s = (v', s') -> length v' = length v.
Proof.
  unfold read_into. destruct (read (Z.of_nat (length v)) s) as [got s1] eqn:Hr.
  intros H. injection H as <- _.
  apply read_length in Hr; [| lia].
  unfold overwrite. rewrite length_app, length_skipn. lia.
Qed.

Lemma deref_Ok {A : Type} (p : option A) (a : A) : deref p = Ok a -> p = Some a.
Proof. destruct p; simpl; intros H; [injection H as -> | discriminate]; reflexivity. Qed.

(** Peels one layer off a hypothesis that says a monadic computation
    succeeded. *)
Ltac peel H :=
  match type of H with
  | bind _ _ = Ok _ => let x := fresh "x" in let E := fresh "E" in
                       apply bind_Ok in H as (x & E & H)
  | (let '(_, _) := ?p in _) = Ok _ => let E := fresh "E" in destruct p eqn:E
  | (if ?c then _ else _) = Ok _ => let E := fresh "E" in destruct c eqn:E
  | Err _ = Ok _ => discriminate H
  end.

(** Whatever the constant size of the table says, a sample that is
    emitted has the length found in the per-sample array: the read buffer
    has that size and the in-chunk offset moves on by it. *)
Lemma emit_sample_uses_size_array fuel t i st st' :
  emit_sample fuel t i st = Ok st' ->
  exists z sz, stsz t = Some z /\ BoxSTSZ.size z i = Ok sz /\
               Z.of_nat (length (buf st')) = sz /\
               (offset st' = u32 (0 + sz) \/ offset st' = u32 (offset st + sz)).
Proof.
  unfold emit_sample. intros H.
  apply bind_Ok in H as (c & Hc & H).
  apply bind_Ok in H as (chunk & Hchunk & H).
  destruct (negb (lastChunk st =? chunk)); cbv beta iota in H;
    repeat peel H;
    injection H as <-; cbn [buf offset];
    match goal with
    | Hz : deref (stsz t) = Ok ?z, Hsz : BoxSTSZ.size ?z _ = Ok ?sz,
      Hr : vec_resize _ ?sz = Ok ?v, Hi : read_into ?v _ _ = (_, _) |- _ =>
        exists z, sz; split; [apply deref_Ok; exact Hz |];
        split; [exact Hsz |];
        pose proof (stsz_size_range _ _ _ Hsz);
        apply vec_resize_length in Hr; [| lia];
        apply read_into_length in Hi;
        split; [lia | auto]
    end.
Qed.

(** The tag of one sample is followed by its own length: [prev] is then
    the position at which the tag began.  This is the sibling of the
    sequence-header path, where [prev] is still 0. *)
Lemma emit_sample_back_pointer fuel t i st st' :
  emit_sample fuel t i st = Ok st' ->
  os_failed (out st) = false ->
  prev st = u64 (tellp (out st)) ->
  exists tagbytes,
    Z.of_nat (length tagbytes) = Z.of_nat (length (buf st')) + 16 /\
    os_bytes (out st')
    = os_bytes (out st) ++ tagbytes ++ bytes32 (u32 (Z.of_nat (length tagbytes))) /\
    os_failed (out st') = false /\
    prev st' = u64 (tellp (out st')).
Proof.
  unfold emit_sample, put_prev_tag_size. intros H Hgood Hprev.
  apply bind_Ok in H as (c & Hc & H).
  apply bind_Ok in H as (chunk & Hchunk & H).
  destruct (negb (lastChunk st =? chunk)); cbv beta iota zeta in H;
    repeat peel H;
    injection H as <-; cbn [buf out prev];
    unfold flv.put_tag_header, write8, write24, write32 in *;
    cbn [flv.type flv.size flv.timestamp flv.stream_id] in *;
    rewrite (os_write_good (out st)) by assumption;
    cbn [os_write os_failed os_bytes tellp];
    match goal with
    | |- exists _, _ /\ (((((((((_ ++ ?a) ++ ?b) ++ ?c) ++ ?d) ++ ?e) ++ ?f) ++ ?g)
                          ++ ?h) ++ ?p) ++ _ = _ /\ _ =>
        exists (a ++ b ++ c ++ d ++ e ++ f ++ g ++ h ++ p)
    end;
    (split; [rewrite !length_app; cbn [length bytes8 bytes24 bytes32]; lia |]);
    (split; [| split; reflexivity]);
    rewrite <- !app_assoc; do 10 f_equal;
    rewrite Hprev; unfold tellp; rewrite Hgood;
    rewrite back_pointer_value; unfold u32; do 2 f_equal;
    rewrite !length_app; cbn [length bytes8 bytes24 bytes32]; lia.
Qed.

(** C6: the length used for sample [n] is to be the per-sample value of a
    per-sample table and the constant size of a uniform one.  The loop calls
    [stsz->size(i)] in both cases and never [constantSize()].  On a uniform
    table (constant size 6, count 2, no array) the read of entry 0 lies
    outside the payload; when an array is left behind the constant size, its
    entry 3 is used instead of 6. *)
Theorem uniform_size_is_not_used :
  BoxSTSZ.constantSize stsz_uniform = Ok 6 /\
  (forall fuel st, emit_sample fuel (example_track stsz_uniform) 0 st = Err OutOfRange) /\
  BoxSTSZ.constantSize stsz_uniform_with_array = Ok 6 /\
  (exists st',
      emit_sample 4 (example_track stsz_uniform_with_array) 0
                  (remux_start example_file empty_ostream 0) = Ok st' /\
      length (buf st') = 3%nat /\ offset st' = 3).
Proof.
  split; [vm_compute; reflexivity |].
  split.
  - intros fuel st. unfold emit_sample.
    cbn [example_track stsc stsz deref bind].
    change (BoxSTSC.sampleToChunk (table_of_words BOX_STSC [1; 1; 2; 1]) 0) with (Ok 0).
    cbn [bind].
    destruct (negb (lastChunk st =? 0)); reflexivity.
  - split; [vm_compute; reflexivity |].
    eexists. split; [vm_compute; reflexivity |]. split; reflexivity.
Qed.

(** With a per-sample table the example track is remuxed into the file
    header, the sequence-header tag and two sample tags, the first one a key
    frame at timestamp 0; the two sample trailers read 22, the length of
    their tags. *)
Example remux_example :
  exists os,
    remux 4 (example_track stsz_per_sample) (good_stream example_file 0) = Ok os /\
    os_bytes os
    = flv_file_header ++ bytes32 0
      ++ sequence_header_tag [Byte.x01; Byte.x64; Byte.x00] ++ bytes32 32
      ++ (bytes8 9 ++ bytes24 11 ++ bytes24 0 ++ bytes8 0 ++ bytes24 0
          ++ bytes8 23 ++ bytes8 1 ++ bytes24 0 ++ idr_6_bytes) ++ bytes32 22
      ++ (bytes8 9 ++ bytes24 11 ++ bytes24 40 ++ bytes8 0 ++ bytes24 0
          ++ bytes8 39 ++ bytes8 1 ++ bytes24 0 ++ non_idr_6_bytes) ++ bytes32 22.
Proof. eexists. split; vm_compute; reflexivity. Qed.

(** ** Reading from a good stream *)

Lemma stream_at_app c x r : stream_at (c ++ x) r = good_stream (c ++ x ++ r)
                                                     (Z.of_nat (length c) + Z.of_nat (length x)).
Proof.
  unfold stream_at. rewrite <- app_assoc, length_app, Nat2Z.inj_add. reflexivity.
Qed.

Lemma read_stream_at c x r n :
  Z.of_nat (length x) = n ->
  read n (stream_at c (x ++ r)) = (x, stream_at (c ++ x) r).
Proof.
  intros Hn. rewrite stream_at_app.
  unfold read, stream_at, good_stream, sentry, good. cbn.
  rewrite Nat2Z.id, skipn_app, skipn_all, Nat.sub_diag. cbn [skipn app].
  rewrite <- Hn, Nat2Z.id, firstn_app, firstn_all, Nat.sub_diag. cbn [firstn].
  rewrite app_nil_r, Z.ltb_irrefl. reflexivity.
Qed.

Lemma tellg_stream_at c r : tellg (stream_at c r) = (Z.of_nat (length c), stream_at c r).
Proof. reflexivity. Qed.

Lemma read_into_stream_at c x r n :
  Z.of_nat (length x) = n ->
  read_into (repeat Byte.x00 (length x)) n (stream_at c (x ++ r))
  = (x, stream_at (c ++ x) r).
Proof.
  intros Hn. unfold read_into. rewrite read_stream_at by assumption.
  unfold overwrite. rewrite skipn_all2 by (rewrite repeat_length; lia).
  rewrite app_nil_r. reflexivity.
Qed.

Lemma read8_stream_at c (v : byte) r :
  read8 (stream_at c (v :: r)) = (byte.unsigned v, stream_at (c ++ [v]) r).
Proof.
  unfold read8. change (v :: r) with ([v] ++ r).
  rewrite (read_stream_at c [v] r 1) by reflexivity. reflexivity.
Qed.

Lemma read24_stream_at c (x0 x1 x2 : byte) r :
  read24 (stream_at c (x0 :: x1 :: x2 :: r))
  = (u32 (Z.lor (Z.lor (Z.shiftl (byte.unsigned x0) 16) (Z.shiftl (byte.unsigned x1) 8))
                (byte.unsigned x2)),
     stream_at (c ++ [x0; x1; x2]) r).
Proof.
  unfold read24. change (x0 :: x1 :: x2 :: r) with ([x0; x1; x2] ++ r).
  rewrite (read_stream_at c [x0; x1; x2] r 3) by reflexivity. reflexivity.
Qed.

Lemma read32_stream_at c (x0 x1 x2 x3 : byte) r :
  read32 (stream_at c (x0 :: x1 :: x2 :: x3 :: r))
  = (be32 (byte.unsigned x0) (byte.unsigned x1) (byte.unsigned x2) (byte.unsigned x3),
     stream_at (c ++ [x0; x1; x2; x3]) r).
Proof.
  unfold read32. change (x0 :: x1 :: x2 :: x3 :: r) with ([x0; x1; x2; x3] ++ r).
  rewrite (read_stream_at c [x0; x1; x2; x3] r 4) by reflexivity.
  reflexivity.
Qed.

Lemma vec_resize_nil n :
  0 <= n < 2 ^ 63 -> vec_resize [] n = Ok (repeat Byte.x00 (Z.to_nat n)).
Proof.
  intros Hn. unfold vec_resize.
  destruct (Z.leb_spec (2 ^ 63) n); [lia |].
  rewrite firstn_nil. cbn [app length]. rewrite Nat.sub_0_r. reflexivity.
Qed.

Lemma vec_resize_fails n : 2 ^ 63 <= n -> vec_resize [] n = Err AllocFailure.
Proof.
  intros Hn. unfold vec_resize. destruct (Z.leb_spec (2 ^ 63) n); [reflexivity | lia].
Qed.

(** A payload size below the header size wraps to a size no vector can
    have. *)
Lemma u64_sub_header sz h :
  0 <= sz < 2 ^ 32 -> 0 <= h <= 36 ->
  (h <= sz /\ u64 (sz - h) = sz - h) \/ (sz < h /\ 2 ^ 63 <= u64 (sz - h)).
Proof.
  intros Hsz Hh. unfold u64.
  destruct (Z_lt_le_dec sz h) as [Hlt | Hge].
  - right. split; [assumption |].
    replace (sz - h) with (sz - h + 1 * 2 ^ 64 - 2 ^ 64) by lia.
    rewrite <- (Z.mod_add (sz - h + 1 * 2 ^ 64 - 2 ^ 64) 1 (2 ^ 64)) by lia.
    rewrite Z.mod_small; lia.
  - left. split; [assumption |]. apply Z.mod_small. lia.
Qed.

Lemma os_write_app os a b : os_write (os_write os a) b = os_write os (a ++ b).
Proof.
  unfold os_write. destruct (os_failed os) eqn:E.
  - rewrite E. reflexivity.
  - cbn. rewrite app_assoc. reflexivity.
Qed.

Lemma chktype_eq t1 t2 :
  length t1 = 4%nat -> length t2 = 4%nat -> chktype t1 t2 = true -> t1 = t2.
Proof.
  unfold chktype. intros H1 H2.
  destruct (list_eq_dec Byte.byte_eq_dec (firstn 4 t1) (firstn 4 t2)) as [E | ];
    [| discriminate].
  intros _. rewrite !firstn_all2 in E by lia. exact E.
Qed.

(** ** Decode, then write: the boxes that keep their payload *)

Section RoundTrip.
Variables (sz : Z) (consumed payload post : list byte) (os : ostream).
Hypothesis Hsz : 0 <= sz < 2 ^ 32.
Hypothesis Hlen : Z.of_nat (length payload) = sz - 8.

Lemma body_written type :
  length type = 4%nat ->
  (if 8 <? sz
   then write_vec (Box_write sz type os) payload (u64 (sz - 8))
   else Ok (Box_write sz type os))
  = Ok (os_write os (bytes32 sz ++ type ++ payload)).
Proof.
  intros Ht. unfold Box_write, write32.
  rewrite bytes32_u32, (firstn_all2 type) by lia.
  destruct (u64_sub_header sz 8 Hsz ltac:(lia)) as [[_ Hu] | [? _]]; [| lia].
  rewrite Hu. destruct (Z.ltb_spec 8 sz).
  - unfold write_vec. destruct (Z.leb_spec (sz - 8) (Z.of_nat (length payload))); [| lia].
    rewrite firstn_all2 by lia. rewrite !os_write_app, <- ?app_assoc. reflexivity.
  - destruct payload; [| simpl length in *; lia].
    rewrite os_write_app, app_nil_r. reflexivity.
Qed.

Lemma body_read :
  (body <- vec_resize [] (u64 (sz - 8)) ;;
   Ok (read_into body (u64 (sz - 8)) (stream_at consumed (payload ++ post))))
  = Ok (payload, stream_at (consumed ++ payload) post).
Proof.
  destruct (u64_sub_header sz 8 Hsz ltac:(lia)) as [[_ Hu] | [? _]]; [| lia].
  rewrite Hu, vec_resize_nil by lia. cbn [bind].
  replace (Z.to_nat (sz - 8)) with (length payload) by lia.
  rewrite read_into_stream_at by lia. reflexivity.
Qed.

Lemma UnknownBox_round_trip type b s' :
  length type = 4%nat ->
  UnknownBox_parse type sz (stream_at consumed (payload ++ post)) = Ok (b, s') ->
  write b os = Ok (os_write os (bytes32 sz ++ type ++ payload)) /\
  s' = stream_at (consumed ++ payload) post.
Proof.
  intros Ht. unfold UnknownBox_parse.
  pose proof body_read as Hr.
  destruct (vec_resize [] (u64 (sz - 8))) as [body | e]; [| discriminate].
  cbn [bind] in *. injection Hr as Hr. rewrite Hr.
  intros H. injection H as <- <-. split; [| reflexivity].
  cbn [write]. apply body_written. assumption.
Qed.

Lemma BoxFREE_round_trip b s' :
  BoxFREE_parse sz (stream_at consumed (payload ++ post)) = Ok (b, s') ->
  write b os = Ok (os_write os (bytes32 sz ++ BOX_FREE ++ payload)) /\
  s' = stream_at (consumed ++ payload) post.
Proof.
  unfold BoxFREE_parse.
  pose proof body_read as Hr.
  destruct (vec_resize [] (u64 (sz - 8))) as [body | e]; [| discriminate].
  cbn [bind] in *. injection Hr as Hr. rewrite Hr.
  intros H. injection H as <- <-. split; [| reflexivity].
  cbn [write]. apply body_written. reflexivity.
Qed.

Lemma FullBufBox_round_trip type b s' :
  length type = 4%nat ->
  FullBufBox_parse type sz (stream_at consumed (payload ++ post)) = Ok (b, s') ->
  write b os = Ok (os_write os (bytes32 sz ++ type ++ payload)) /\
  s' = stream_at (consumed ++ payload) post.
Proof.
  intros Ht. unfold FullBufBox_parse.
  destruct (u64_sub_header sz 12 Hsz ltac:(lia)) as [[Hge Hu] | [Hlt Hu]].
  2: { rewrite vec_resize_fails by assumption. discriminate. }
  rewrite Hu, vec_resize_nil by lia. cbn [bind].
  destruct payload as [| v [| f0 [| f1 [| f2 rest]]]]; simpl length in Hlen; try lia.
  cbn [app].
  rewrite read8_stream_at, read24_stream_at.
  replace (Z.to_nat (sz - 12)) with (length rest) by lia.
  rewrite read_into_stream_at by lia.
  remember (u32 (Z.lor (Z.lor (Z.shiftl (byte.unsigned f0) 16)
                              (Z.shiftl (byte.unsigned f1) 8)) (byte.unsigned f2)))
    as flags eqn:Hflags.
  intros H. injection H as <- <-. subst flags.
  split; [| rewrite <- !app_assoc; reflexivity].
  cbn [write fb_size fb_type fb_version fb_flags fb_buf].
  unfold FullBox_write, Box_write, write8, write24, write32.
  rewrite bytes32_u32, (firstn_all2 type), bytes8_u8 by lia.
  rewrite bytes24_be24.
  rewrite Hu. destruct (Z.ltb_spec 8 sz); [| lia].
  unfold write_vec. destruct (Z.leb_spec (sz - 12) (Z.of_nat (length rest))); [| lia].
  rewrite firstn_all2 by lia. rewrite !os_write_app, <- ?app_assoc. reflexivity.
Qed.
End RoundTrip.

Lemma chunks_of_4 : forall (k : nat) (l : list byte),
  length l = (4 * k)%nat ->
  exists words, length words = k /\ Forall (fun w => length w = 4%nat) words /\
                concat words = l.
Proof.
  induction k as [| k IH]; intros l Hl.
  - destruct l; [| discriminate]. exists []. repeat split. constructor.
  - destruct l as [| a [| b [| c [| d l]]]]; simpl in Hl; try lia.
    destruct (IH l ltac:(lia)) as (ws & Hk & Hall & Hcat).
    exists ([a; b; c; d] :: ws). repeat split.
    + simpl. f_equal. exact Hk.
    + constructor; [reflexivity | exact Hall].
    + simpl. rewrite Hcat. reflexivity.
Qed.

Lemma ftyp_compat_stream_at : forall words c r acc,
  Forall (fun w => length w = 4%nat) words ->
  ftyp_compat (length words) (stream_at c (concat words ++ r)) acc
  = (acc ++ words, stream_at (c ++ concat words) r).
Proof.
  induction words as [| w ws IH]; intros c r acc Hall.
  - cbn. rewrite !app_nil_r. reflexivity.
  - inversion Hall as [| ? ? Hw Hws]; subst.
    cbn [length ftyp_compat concat]. rewrite <- app_assoc.
    replace (repeat Byte.x00 4) with (repeat Byte.x00 (length w)) by (rewrite Hw; reflexivity).
    rewrite read_into_stream_at by lia.
    rewrite IH by assumption.
    rewrite <- !app_assoc. reflexivity.
Qed.

Section RoundTripFtyp.
Variables (sz : Z) (consumed payload post : list byte) (os : ostream).
Hypothesis Hsz : 0 <= sz < 2 ^ 32.
Hypothesis Hlen : Z.of_nat (length payload) = sz - 8.

Lemma BoxFTYP_round_trip b s' :
  (sz - 16) mod 4 = 0 ->
  BoxFTYP_parse sz (stream_at consumed (payload ++ post)) = Ok (b, s') ->
  write b os = Ok (os_write os (bytes32 sz ++ BOX_FTYP ++ payload)) /\
  (Z.of_nat (length consumed) + sz - 8 < 2 ^ 63 ->
   s' = stream_at (consumed ++ payload) post).
Proof.
  intros Hmod. unfold BoxFTYP_parse. rewrite tellg_stream_at.
  destruct payload as [| m0 [| m1 [| m2 [| m3 [| n0 [| n1 [| n2 [| n3 rest]]]]]]]];
    simpl length in Hlen;
    try (destruct (Z.ltb_spec sz 16);
         [destruct (read_into _ _ _), (read32 _); discriminate | lia]).
  change (m0 :: m1 :: m2 :: m3 :: n0 :: n1 :: n2 :: n3 :: rest)
    with ([m0; m1; m2; m3] ++ n0 :: n1 :: n2 :: n3 :: rest).
  rewrite <- app_assoc.
  change (repeat Byte.x00 4) with (repeat Byte.x00 (length [m0; m1; m2; m3])).
  rewrite read_into_stream_at by reflexivity.
  cbn [app]. rewrite read32_stream_at.
  destruct (Z.ltb_spec sz 16); [lia |].
  destruct (chunks_of_4 (Z.to_nat ((sz - 16) / 4)) rest) as (words & Hk & Hall & Hcat).
  { apply Nat2Z.inj. rewrite Nat2Z.inj_mul, Z2Nat.id by (apply Z.div_pos; lia).
    pose proof (Z.div_mod (sz - 16) 4 ltac:(lia)). change (Z.of_nat 4) with 4. lia. }
  rewrite <- Hk, <- Hcat, ftyp_compat_stream_at by assumption.
  remember (be32 (byte.unsigned n0) (byte.unsigned n1) (byte.unsigned n2)
                 (byte.unsigned n3)) as minor eqn:Hminor.
  intros Hparse. injection Hparse as <- <-. subst minor.
  split.
  2: { intros Hbound. unfold stream_at, good_stream, seekg, sentry, good.
       cbn [is_data is_pos is_eofbit is_failbit negb andb].
       rewrite u64_small by lia.
       unfold s64. rewrite u64_small by lia.
       destruct (Z.ltb_spec (Z.of_nat (length consumed) + sz - 8) (2 ^ 63)); [| lia].
       destruct (Z.ltb_spec (Z.of_nat (length consumed) + sz - 8) 0); [lia |].
       rewrite <- !app_assoc. cbn [app]. f_equal.
       rewrite length_app. cbn [length]. rewrite Nat2Z.inj_add.
       rewrite <- Hcat in Hlen. simpl length in Hlen. lia. }
  cbn [write]. unfold Box_write, write32.
  rewrite bytes32_u32, bytes32_be32.
  change (firstn 4 BOX_FTYP) with BOX_FTYP.
  change (firstn 4 [m0; m1; m2; m3]) with [m0; m1; m2; m3].
  rewrite !os_write_app, <- ?app_assoc. reflexivity.
Qed.
End RoundTripFtyp.

Lemma full_buf_types_length t : In t full_buf_types -> length t = 4%nat.
Proof.
  unfold full_buf_types. simpl.
  intros H. repeat (destruct H as [<- | H]; [reflexivity |]). contradiction.
Qed.

(** C8, as amended.  Take a box that lies whole in the stream: its 4-byte
    size, its type and [size - 8] payload bytes.  When it is a file-type box
    whose brands fill the payload ([size - 16] a multiple of 4), a free box,
    a full-box leaf with a raw payload, or an unknown box up to the 10 MiB
    threshold, and [createBox] decodes it, then [write] on the decoded node
    emits exactly the bytes of the box. *)
Theorem retained_box_round_trip list_parse type sz pre payload post b s' os :
  0 <= sz < 2 ^ 32 ->
  length type = 4%nat ->
  Z.of_nat (length payload) = sz - 8 ->
  keeps_payload type sz = true ->
  createBox list_parse type sz (stream_at (pre ++ bytes32 sz ++ type) (payload ++ post))
  = Ok (b, s') ->
  write b os = Ok (os_write os (bytes32 sz ++ type ++ payload)).
Proof.
  intros Hsz Ht Hlen Hkeep. unfold createBox, keeps_payload in *.
  destruct (chktype type BOX_FTYP) eqn:Eftyp.
  { apply chktype_eq in Eftyp; [subst type | assumption | reflexivity].
    apply Z.eqb_eq in Hkeep. intros H.
    eapply BoxFTYP_round_trip in H; [apply H | assumption ..]. }
  destruct (chktype type BOX_FREE) eqn:Efree.
  { apply chktype_eq in Efree; [subst type | assumption | reflexivity].
    intros H. eapply BoxFREE_round_trip in H; [apply H | assumption ..]. }
  destruct (chktype type BOX_MVHD); [discriminate |].
  destruct (find (chktype type) full_buf_types) as [t |] eqn:Efind.
  { apply find_some in Efind as [Hin Hchk].
    pose proof (full_buf_types_length t Hin) as Hlt.
    apply chktype_eq in Hchk; [subst t | assumption | assumption].
    intros H. eapply FullBufBox_round_trip in H; [apply H | assumption ..]. }
  apply andb_true_iff in Hkeep as [Hchild Hbig].
  apply negb_true_iff in Hchild, Hbig. rewrite Hchild, Hbig.
  intros H. eapply UnknownBox_round_trip in H; [apply H | assumption ..].
Qed.

(** X19: decoding a box that lies whole in the stream and is a file-type
    box with whole brands, a free box, a full-box leaf or an unknown box up
    to 10 MiB leaves the stream in good state with the cursor right behind
    the box, at its start plus its declared size, whatever the payload
    holds.  (Positions are below 2^63, the range of a stream offset.) *)
Lemma retained_box_cursor list_parse type sz pre payload post b s' :
  0 <= sz < 2 ^ 32 ->
  length type = 4%nat ->
  Z.of_nat (length payload) = sz - 8 ->
  Z.of_nat (length pre) + sz < 2 ^ 63 ->
  keeps_payload type sz = true ->
  createBox list_parse type sz (stream_at (pre ++ bytes32 sz ++ type) (payload ++ post))
  = Ok (b, s') ->
  s' = good_stream (pre ++ (bytes32 sz ++ type ++ payload) ++ post)
                   (Z.of_nat (length pre) + sz).
Proof.
  intros Hsz Ht Hlen Hbound Hkeep Hparse.
  assert (Hgoal : stream_at ((pre ++ bytes32 sz ++ type) ++ payload) post
                  = good_stream (pre ++ (bytes32 sz ++ type ++ payload) ++ post)
                                (Z.of_nat (length pre) + sz)).
  { unfold stream_at. f_equal.
    - rewrite <- !app_assoc. reflexivity.
    - rewrite !length_app. cbn [length bytes32]. lia. }
  rewrite <- Hgoal. clear Hgoal.
  assert (Hc : Z.of_nat (length (pre ++ bytes32 sz ++ type)) = Z.of_nat (length pre) + 8)
    by (rewrite !length_app; cbn [length bytes32]; lia).
  unfold createBox, keeps_payload in *.
  destruct (chktype type BOX_FTYP) eqn:Eftyp.
  { apply Z.eqb_eq in Hkeep.
    eapply (BoxFTYP_round_trip sz _ payload post (mkOstream [] false)) in Hparse;
      [apply Hparse; lia | assumption ..]. }
  destruct (chktype type BOX_FREE) eqn:Efree.
  { eapply (BoxFREE_round_trip sz _ payload post (mkOstream [] false)) in Hparse;
      [apply Hparse | assumption ..]. }
  destruct (chktype type BOX_MVHD); [discriminate |].
  destruct (find (chktype type) full_buf_types) as [t |] eqn:Efind.
  { apply find_some in Efind as [Hin Hchk].
    pose proof (full_buf_types_length t Hin) as Hlt.
    eapply (FullBufBox_round_trip sz _ payload post (mkOstream [] false)) in Hparse;
      [apply Hparse | assumption ..]. }
  apply andb_true_iff in Hkeep as [Hchild Hbig].
  apply negb_true_iff in Hchild, Hbig. rewrite Hchild, Hbig in Hparse.
  eapply (UnknownBox_round_trip sz _ payload post (mkOstream [] false)) in Hparse;
    [apply Hparse | assumption ..].
Qed.

Lemma retained_box_round_trip_witness :
  exists b s',
    createBox (BoxSimpleList_parse (parse_children 2)) BOX_FTYP 24
              (stream_at ([] ++ bytes32 24 ++ BOX_FTYP) (ftyp_24_payload ++ []))
    = Ok (b, s') /\
    write b empty_ostream
    = Ok (os_write empty_ostream (bytes32 24 ++ BOX_FTYP ++ ftyp_24_payload)).
Proof.
  eexists. eexists. split.
  - vm_compute. reflexivity.
  - eapply (retained_box_round_trip (BoxSimpleList_parse (parse_children 2))
              BOX_FTYP 24 [] ftyp_24_payload [] _ _ empty_ostream).
    + lia.
    + reflexivity.
    + reflexivity.
    + reflexivity.
    + vm_compute. reflexivity.
Defined.

(** C8, as stated, fails for a file-type box whose declared size is not 16
    plus a multiple of 4: the box of size 18 is decoded to its major brand
    and minor version and no brand, and written back as 16 bytes. *)
Lemma ftyp_18_counterexample :
  exists b s' os',
    createBox (BoxSimpleList_parse (parse_children 2)) BOX_FTYP 18
              (stream_at (bytes32 18 ++ BOX_FTYP) ftyp_18_payload) = Ok (b, s') /\
    write b empty_ostream = Ok os' /\
    os_bytes os' = firstn 16 ftyp_18 /\
    os_bytes os' <> ftyp_18.
Proof.
  eexists. eexists. eexists.
  split; [vm_compute; reflexivity |].
  split; [vm_compute; reflexivity |].
  split; [vm_compute; reflexivity |].
  vm_compute. discriminate.
Qed.

(** A box cut short by the end of the stream is filled with zeros up to
    its declared size: the unknown box of declared size 12 of which 10 bytes
    exist is written back as 12 bytes. *)
Lemma truncated_box_is_zero_filled :
  exists b s' os',
    createBox (BoxSimpleList_parse (parse_children 2)) (tag "abcd") 12
              (stream_at (bytes32 12 ++ tag "abcd") [Byte.x01; Byte.x02]) = Ok (b, s') /\
    write b empty_ostream = Ok os' /\
    os_bytes os' = bytes32 12 ++ tag "abcd" ++ [Byte.x01; Byte.x02; Byte.x00; Byte.x00].
Proof. eexists. eexists. eexists. repeat split; vm_compute; reflexivity. Qed.

(** ** Decoding and the stream cursor *)

(** C2: after a child is decoded the cursor is to stand at the child's
    start plus its declared size before the next header is read.  The loop
    of [BoxSimpleList::parse] does not seek after [createBox]; a movie header
    of version 1 returns after 4 payload bytes, so for the box at offset 0 of
    declared size 32 the cursor is left at 12, and the next header is read
    from the payload: the tree gets a free box of size 20 that the stream
    does not contain at top level. *)
Theorem mvhd_v1_leaves_cursor_inside_box :
  createBox (BoxSimpleList_parse (parse_children 8)) BOX_MVHD 32
            (good_stream mvhd_v1_stream 8)
  = Ok (BoxMVHD 32 1 0 0 0 0 0 0 0 [], good_stream mvhd_v1_stream 12) /\
  12 <> 0 + 32 /\
  (exists s, Mp4Root_parse 8 (good_stream mvhd_v1_stream 0)
   = Ok (BoxSimpleList (tag "ROOT") 2147483647
           [BoxMVHD 32 1 0 0 0 0 0 0 0 [];
            BoxFREE 20 (repeat Byte.x00 12);
            BoxFREE 8 []], s)).
Proof.
  split; [vm_compute; reflexivity |].
  split; [discriminate |].
  eexists. vm_compute. reflexivity.
Qed.

(** The version-0 path of the same decoder reads the box to its end: the
    sibling that follows is decoded from its own header, and the movie
    header is written back byte for byte. *)
Example mvhd_v0_is_read_to_its_end :
  length mvhd_v0_whole = 108%nat /\
  exists b s,
    Mp4Root_parse 8 (good_stream (mvhd_v0_whole ++ bytes32 8 ++ BOX_FREE) 0)
    = Ok (BoxSimpleList (tag "ROOT") 2147483647 [b; BoxFREE 8 []], s) /\
    write b empty_ostream = Ok (mkOstream mvhd_v0_whole false).
Proof.
  split; [reflexivity |].
  eexists. eexists. split.
  - vm_compute. reflexivity.
  - vm_compute. reflexivity.
Qed.

(** On a whole version-1 movie header the bytes read as the next header are
    the creation time: a size of 0 and an unknown type, for which
    [UnknownBox::parse] resizes its vector to [0 - 8] as a [size_t], and the
    decoder stops on the exception. *)
Lemma mvhd_v1_whole_stops_decoding :
  length mvhd_v1_whole = 120%nat /\
  Mp4Root_parse 8 (good_stream (mvhd_v1_whole ++ bytes32 8 ++ BOX_FREE) 0)
  = Err AllocFailure.
Proof. split; vm_compute; reflexivity. Qed.

(** ** Encoding *)

(** C9: writing an opaque-skipped node is to signal an error and never to
    complete silently without data.  [UnknownBoxRef::write] has an empty
    body: for every such node it returns normally and leaves the stream as
    it was, bytes and state. *)
Theorem UnknownBoxRef_write_is_silent (type : list byte) (size offset : Z)
        (os : ostream) :
  write (UnknownBoxRef type size offset) os = Ok os.
Proof. reflexivity. Qed.

(** A 16 MiB media-data box is decoded to an opaque-skipped node, and
    writing the decoded file back produces no byte at all. *)
Lemma mdat_is_dropped_on_write :
  exists s,
    Mp4Root_parse 4 (good_stream mdat_stream 0)
    = Ok (BoxSimpleList (tag "ROOT") 2147483647
            [UnknownBoxRef (tag "mdat") 16777216 8], s) /\
    Mp4Root_write [UnknownBoxRef (tag "mdat") 16777216 8] empty_ostream
    = Ok empty_ostream.
Proof. eexists. split; vm_compute; reflexivity. Qed.

(** ** The whole program on a small file *)

(** [main] on the example file: the file header, the zero back-pointer,
    the sequence-header tag with the trailer 32 (13 more than the 19 bytes of
    the tag), and the two sample tags with their trailers 22. *)
Example main_example :
  exists os,
    main 40 example_mp4 = Ok os /\
    os_bytes os
    = flv_file_header ++ bytes32 0
      ++ sequence_header_tag [Byte.x01; Byte.x64; Byte.x00] ++ bytes32 32
      ++ (bytes8 9 ++ bytes24 11 ++ bytes24 0 ++ bytes8 0 ++ bytes24 0
          ++ bytes8 23 ++ bytes8 1 ++ bytes24 0 ++ idr_6_bytes) ++ bytes32 22
      ++ (bytes8 9 ++ bytes24 11 ++ bytes24 40 ++ bytes8 0 ++ bytes24 0
          ++ bytes8 39 ++ bytes8 1 ++ bytes24 0 ++ non_idr_6_bytes) ++ bytes32 22.
Proof.
  eexists. split.
  - vm_compute. reflexivity.
  - vm_compute. reflexivity.
Qed.

(** Decoding the example file and writing the tree back gives the file:
    none of its boxes is a movie header of another version, an odd
    file-type box or a skipped box. *)
Example decode_write_example :
  exists children s,
    Mp4Root_parse 40 (good_stream example_mp4 0)
    = Ok (BoxSimpleList (tag "ROOT") 2147483647 children, s) /\
    Mp4Root_write children empty_ostream = Ok (mkOstream example_mp4 false).
Proof.
  eexists. eexists. split.
  - vm_compute. reflexivity.
  - vm_compute. reflexivity.
Qed.
(** ** Writers against readers *)

Lemma u8_small z : 0 <= z < 2 ^ 8 -> u8 z = z.
Proof. intros H. apply Z.mod_small. exact H. Qed.

Lemma be24_bytes24 z :
  0 <= z < 2 ^ 32 ->
  u32 (Z.lor (Z.lor (Z.shiftl (byte.unsigned (byte.of_Z (Z.shiftr z 16))) 16)
                    (Z.shiftl (byte.unsigned (byte.of_Z (Z.shiftr z 8))) 8))
             (byte.unsigned (byte.of_Z z)))
  = z mod 2 ^ 24.
Proof.
  intros Hz.
  pose proof (byte_range (byte.of_Z (Z.shiftr z 16))) as R0.
  pose proof (byte_range (byte.of_Z (Z.shiftr z 8))) as R1.
  pose proof (byte_range (byte.of_Z z)) as R2.
  rewrite (Z.shiftl_mul_pow2 _ 8) by lia.
  rewrite (lor_shiftl_add _ (byte.unsigned (byte.of_Z (Z.shiftr z 8)) * 2 ^ 8) 16) by lia.
  set (b0 := byte.unsigned (byte.of_Z (Z.shiftr z 16))) in *.
  set (b1 := byte.unsigned (byte.of_Z (Z.shiftr z 8))) in *.
  replace (b0 * 2 ^ 16 + b1 * 2 ^ 8) with ((b0 * 2 ^ 8 + b1) * 2 ^ 8) by lia.
  rewrite <- (Z.shiftl_mul_pow2 (b0 * 2 ^ 8 + b1) 8) by lia.
  rewrite (lor_shiftl_add _ _ 8) by lia.
  rewrite u32_small by lia.
  subst b0 b1. rewrite !byte.unsigned_of_Z. unfold byte.wrap.
  rewrite !Z.shiftr_div_pow2 by lia.
  change (2 ^ 32) with 4294967296 in Hz.
  change (2 ^ 24) with 16777216; change (2 ^ 16) with 65536; change (2 ^ 8) with 256.
  Z.to_euclidean_division_equations; lia.
Qed.

Lemma read32_bytes32 c z r :
  read32 (stream_at c (bytes32 (u32 z) ++ r))
  = (u32 z, stream_at (c ++ bytes32 (u32 z)) r).
Proof.
  unfold bytes32. cbn [app]. rewrite read32_stream_at.
  rewrite be32_bytes32 by apply u32_range. reflexivity.
Qed.

Lemma read24_bytes24 c z r :
  read24 (stream_at c (bytes24 (u32 z) ++ r))
  = (z mod 2 ^ 24, stream_at (c ++ bytes24 (u32 z)) r).
Proof.
  unfold bytes24. cbn [app]. rewrite read24_stream_at.
  rewrite be24_bytes24 by apply u32_range.
  f_equal. unfold u32. apply Z.mod_mod_divide.
  exists (2 ^ 8). reflexivity.
Qed.

Lemma read8_bytes8 c z r :
  read8 (stream_at c (bytes8 (u8 z) ++ r)) = (u8 z, stream_at (c ++ bytes8 (u8 z)) r).
Proof.
  unfold bytes8. cbn [app]. rewrite read8_stream_at.
  rewrite byte.unsigned_of_Z. unfold byte.wrap, u8.
  rewrite Z.mod_mod by lia. reflexivity.
Qed.

Lemma lor_u64_words d :
  Z.lor (u64 (Z.shiftl (u32 (Z.shiftr (u64 d) 32)) 32)) (u32 (u64 d)) = u64 d.
Proof.
  pose proof (u32_range (Z.shiftr (u64 d) 32)) as Rh.
  pose proof (u32_range (u64 d)) as Rl.
  assert (Hd : 0 <= u64 d < 2 ^ 64) by (unfold u64; apply Z.mod_pos_bound; lia).
  rewrite Z.shiftl_mul_pow2 by lia.
  rewrite (u64_small (_ * 2 ^ 32)) by lia.
  rewrite <- Z.shiftl_mul_pow2 by lia.
  rewrite lor_shiftl_add by lia.
  unfold u32. rewrite Z.shiftr_div_pow2 by lia.
  change (2 ^ 64) with 18446744073709551616 in Hd.
  change (2 ^ 32) with 4294967296.
  Z.to_euclidean_division_equations; lia.
Qed.

(** X1: what [write8], [write24] and [write32] append to a stream is read
    back by [read8], [read24] and [read32] as the value written, reduced to
    the 8, 24 or 32 bits of the field, with the cursor right behind the
    bytes. *)
Theorem write_then_read (pre rest : list byte) (d : Z) :
  (exists w, os_bytes (write8 (mkOstream pre false) d) = pre ++ w /\
             read8 (stream_at pre (w ++ rest)) = (d mod 2 ^ 8, stream_at (pre ++ w) rest)) /\
  (exists w, os_bytes (write24 (mkOstream pre false) d) = pre ++ w /\
             read24 (stream_at pre (w ++ rest)) = (d mod 2 ^ 24, stream_at (pre ++ w) rest)) /\
  (exists w, os_bytes (write32 (mkOstream pre false) d) = pre ++ w /\
             read32 (stream_at pre (w ++ rest)) = (d mod 2 ^ 32, stream_at (pre ++ w) rest)).
Proof.
  repeat split.
  - exists (bytes8 (u8 d)). split; [reflexivity | apply read8_bytes8].
  - exists (bytes24 (u32 d)). split; [reflexivity | apply read24_bytes24].
  - exists (bytes32 (u32 d)). split; [reflexivity | apply read32_bytes32].
Qed.

(** X2: the eight bytes of [write64] are read back by [read64] as the
    value written modulo 2^64: the reader shifts the high word by 32 bits
    before it or-s the low word in. *)
Theorem write64_then_read64 (pre rest : list byte) (d : Z) :
  exists w, os_bytes (write64 (mkOstream pre false) d) = pre ++ w /\
            length w = 8%nat /\
            read64 (stream_at pre (w ++ rest)) = (d mod 2 ^ 64, stream_at (pre ++ w) rest).
Proof.
  exists (bytes32 (u32 (Z.shiftr (u64 d) 32)) ++ bytes32 (u32 (u64 d))).
  split; [cbn; rewrite <- app_assoc; reflexivity |].
  split; [reflexivity |].
  unfold read64. rewrite <- app_assoc, read32_bytes32, read32_bytes32.
  rewrite <- app_assoc. f_equal.
  pose proof (u32_range (Z.shiftr (u64 d) 32)) as Rh.
  pose proof (u32_range (u64 d)) as Rl.
  rewrite lor_u64_words.
  reflexivity.
Qed.
(** ** The accessors against the writers *)

(** X26: the accessor [ui32] reads a word that [write32] wrote into the
    buffer, at the position where it was written, as the value written
    modulo 2^32: writer and accessor agree on the byte order. *)
Theorem ui32_reads_written_word (b : FullBufBox) (pre post : list byte) (z : Z) :
  fb_buf b = os_bytes (write32 (mkOstream pre false) z) ++ post ->
  Z.of_nat (length pre) + 3 < 2 ^ 31 ->
  ui32 b (Z.of_nat (length pre)) = Ok (z mod 2 ^ 32).
Proof.
  intros Hbuf Hpos. unfold ui32, int_result.
  destruct (Z.leb_spec (- 2 ^ 31) (Z.of_nat (length pre) + 3)); [| lia].
  destruct (Z.ltb_spec (Z.of_nat (length pre) + 3) (2 ^ 31)); [| lia].
  cbn [andb bind]. rewrite Hbuf.
  unfold write32, os_write. cbn [os_failed os_bytes]. rewrite <- app_assoc.
  unfold bytes32. cbn [app].
  rewrite (vec_at_skip pre _ _ 0), (vec_at_skip pre _ _ 1), (vec_at_skip pre _ _ 2),
    (vec_at_skip pre _ _ 3) by lia.
  cbv [vec_at Z.ltb Z.compare Z.to_nat Pos.to_nat Pos.iter_op Nat.add nth_error].
  cbn [bind]. rewrite be32_bytes32 by apply u32_range. reflexivity.
Qed.

Lemma ui32_reads_written_word_witness :
  ui32 (mkFullBufBox BOX_STCO 20 0 0 (bytes32 1 ++ bytes32 3000000000))
       (Z.of_nat (length (bytes32 1)))
  = Ok (3000000000 mod 2 ^ 32).
Proof.
  apply (ui32_reads_written_word
           (mkFullBufBox BOX_STCO 20 0 0 (bytes32 1 ++ bytes32 3000000000))
           (bytes32 1) [] 3000000000).
  - vm_compute. reflexivity.
  - simpl. lia.
Defined.

(** X28: [read16] and [ui16] disagree on the byte order: on the same two
    bytes the stream reader takes the first byte as the low one, the
    accessor of the payload buffer takes it as the high one. *)
Theorem read16_swaps_ui16 (b : FullBufBox) (pre post c rest : list byte) (x0 x1 : byte) :
  fb_buf b = pre ++ x0 :: x1 :: post ->
  Z.of_nat (length pre) + 1 < 2 ^ 31 ->
  ui16 b (Z.of_nat (length pre)) = Ok (256 * byte.unsigned x0 + byte.unsigned x1) /\
  read16 (stream_at c (x0 :: x1 :: rest))
  = (256 * byte.unsigned x1 + byte.unsigned x0, stream_at (c ++ [x0; x1]) rest).
Proof.
  intros Hbuf Hpos.
  pose proof (byte_range x0) as R0. pose proof (byte_range x1) as R1.
  split.
  - unfold ui16, int_result.
    destruct (Z.leb_spec (- 2 ^ 31) (Z.of_nat (length pre) + 1)); [| lia].
    destruct (Z.ltb_spec (Z.of_nat (length pre) + 1) (2 ^ 31)); [| lia].
    cbn [andb bind]. rewrite Hbuf.
    rewrite (vec_at_skip pre _ _ 0), (vec_at_skip pre _ _ 1) by lia.
    cbv [vec_at Z.ltb Z.compare Z.to_nat Pos.to_nat Pos.iter_op Nat.add nth_error].
    cbn [bind]. unfold be16. rewrite lor_shiftl_add by lia.
    rewrite Z.mod_small by lia. f_equal. lia.
  - unfold read16. change (x0 :: x1 :: rest) with ([x0; x1] ++ rest).
    rewrite (read_stream_at c [x0; x1] rest 2) by reflexivity.
    cbn [byte_or0 nth_error]. rewrite lor_shiftl_add by lia.
    rewrite Z.mod_small by lia. f_equal. lia.
Qed.

Lemma read16_swaps_ui16_witness :
  ui16 (mkFullBufBox BOX_TKHD 14 0 0 [Byte.x01; Byte.x00])
       (Z.of_nat (length (@nil byte)))
  = Ok (256 * byte.unsigned Byte.x01 + byte.unsigned Byte.x00) /\
  read16 (stream_at [] (Byte.x01 :: Byte.x00 :: []))
  = (256 * byte.unsigned Byte.x00 + byte.unsigned Byte.x01,
     stream_at ([] ++ [Byte.x01; Byte.x00]) []).
Proof.
  apply (read16_swaps_ui16 (mkFullBufBox BOX_TKHD 14 0 0 [Byte.x01; Byte.x00])
           [] [] [] [] Byte.x01 Byte.x00).
  - reflexivity.
  - simpl. lia.
Defined.
(** ** flv.h: headers and tags *)

Lemma put_tag_header_bytes pre th :
  flv.put_tag_header (mkOstream pre false) th
  = mkOstream (pre ++ (bytes8 (u8 (flv.type th)) ++ bytes24 (u32 (flv.size th))
               ++ bytes24 (u32 (flv.timestamp th))
               ++ bytes8 (u8 (Z.shiftr (flv.timestamp th) 24))
               ++ bytes24 (u32 (flv.stream_id th)))) false.
Proof.
  unfold flv.put_tag_header, write8, write24, os_write. cbn [os_failed os_bytes].
  rewrite <- !app_assoc. reflexivity.
Qed.

Lemma timestamp_split ts :
  0 <= ts < 2 ^ 32 ->
  u32 (Z.lor (ts mod 2 ^ 24) (Z.shiftl (u8 (Z.shiftr ts 24)) 24)) = ts.
Proof.
  intros Hts.
  assert (Hlo : 0 <= ts mod 2 ^ 24 < 2 ^ 24) by (apply Z.mod_pos_bound; lia).
  assert (Hhi : 0 <= u8 (Z.shiftr ts 24) < 2 ^ 8) by (apply Z.mod_pos_bound; lia).
  rewrite Z.lor_comm, lor_shiftl_add by lia.
  unfold u8 in *. rewrite Z.shiftr_div_pow2 in * by lia.
  unfold u32.
  change (2 ^ 32) with 4294967296 in *.
  change (2 ^ 24) with 16777216 in *; change (2 ^ 8) with 256 in *.
  Z.to_euclidean_division_equations; lia.
Qed.

Lemma parse_tag_header_bytes pre th rest :
  0 <= flv.type th < 2 ^ 8 -> 0 <= flv.size th < 2 ^ 24 ->
  0 <= flv.timestamp th < 2 ^ 32 -> 0 <= flv.stream_id th < 2 ^ 24 ->
  flv.parse_tag_header
    (stream_at pre ((bytes8 (u8 (flv.type th)) ++ bytes24 (u32 (flv.size th))
                     ++ bytes24 (u32 (flv.timestamp th))
                     ++ bytes8 (u8 (Z.shiftr (flv.timestamp th) 24))
                     ++ bytes24 (u32 (flv.stream_id th))) ++ rest))
  = (th, stream_at (pre ++ (bytes8 (u8 (flv.type th)) ++ bytes24 (u32 (flv.size th))
                     ++ bytes24 (u32 (flv.timestamp th))
                     ++ bytes8 (u8 (Z.shiftr (flv.timestamp th) 24))
                     ++ bytes24 (u32 (flv.stream_id th)))) rest).
Proof.
  intros Hty Hsz Hts Hid. unfold flv.parse_tag_header.
  rewrite <- !app_assoc.
  rewrite read8_bytes8, read24_bytes24, read24_bytes24, read8_bytes8, read24_bytes24.
  rewrite timestamp_split by assumption.
  rewrite <- !app_assoc.
  rewrite (Z.mod_small (flv.size th)), (Z.mod_small (flv.stream_id th)) by lia.
  unfold u8. rewrite (Z.mod_small (flv.type th)) by lia.
  destruct th. reflexivity.
Qed.
(** X3: a tag header whose type fits 8 bits, whose data size and stream
    id fit 24 bits and whose timestamp fits 32 bits is written as 11 bytes
    that [parse] reads back as the same header, the fourth timestamp byte
    being bits 24 to 31. *)
Theorem tag_header_round_trip (pre rest : list byte) (th : flv.FLVTagHeader) :
  0 <= flv.type th < 2 ^ 8 -> 0 <= flv.size th < 2 ^ 24 ->
  0 <= flv.timestamp th < 2 ^ 32 -> 0 <= flv.stream_id th < 2 ^ 24 ->
  exists w, os_bytes (flv.put_tag_header (mkOstream pre false) th) = pre ++ w /\
            length w = 11%nat /\
            flv.parse_tag_header (stream_at pre (w ++ rest))
            = (th, stream_at (pre ++ w) rest).
Proof.
  intros Hty Hsz Hts Hid. rewrite put_tag_header_bytes.
  eexists. split; [reflexivity |]. split; [reflexivity |].
  apply parse_tag_header_bytes; assumption.
Qed.

Lemma tag_header_round_trip_witness :
  exists w, os_bytes (flv.put_tag_header (mkOstream [] false)
                        (flv.mkFLVTagHeader 9 11 3000000000 0)) = [] ++ w /\
            length w = 11%nat /\
            flv.parse_tag_header (stream_at [] (w ++ []))
            = (flv.mkFLVTagHeader 9 11 3000000000 0, stream_at ([] ++ w) []).
Proof.
  apply (tag_header_round_trip [] [] (flv.mkFLVTagHeader 9 11 3000000000 0));
    simpl; lia.
Defined.

(** X4: a file header with a 3-byte signature, and version, flags and data
    offset within their fields, is written as 9 bytes that [parse] reads
    back as the same header. *)
Theorem header_round_trip (pre rest : list byte) (fh : flv.FLVHeader) :
  length (flv.signature fh) = 3%nat ->
  0 <= flv.version fh < 2 ^ 8 -> 0 <= flv.type_flags fh < 2 ^ 8 ->
  0 <= flv.data_offset fh < 2 ^ 32 ->
  exists w, os_bytes (flv.put_header (mkOstream pre false) fh) = pre ++ w /\
            length w = 9%nat /\
            flv.parse_header (stream_at pre (w ++ rest))
            = (fh, stream_at (pre ++ w) rest).
Proof.
  intros Hsig Hv Hf Hd.
  exists (flv.signature fh ++ bytes8 (u8 (flv.version fh))
          ++ bytes8 (u8 (flv.type_flags fh)) ++ bytes32 (u32 (flv.data_offset fh))).
  split.
  { unfold flv.put_header, write8, write32, os_write. cbn [os_failed os_bytes].
    rewrite firstn_all2 by lia. rewrite <- !app_assoc. reflexivity. }
  split; [rewrite length_app, Hsig; reflexivity |].
  unfold flv.parse_header. rewrite <- !app_assoc.
  replace (repeat Byte.x00 3) with (repeat Byte.x00 (length (flv.signature fh)))
    by (rewrite Hsig; reflexivity).
  rewrite read_into_stream_at by lia.
  rewrite read8_bytes8, read8_bytes8, read32_bytes32.
  rewrite <- !app_assoc.
  unfold u8, u32. rewrite !Z.mod_small by lia.
  destruct fh. reflexivity.
Qed.

Lemma header_round_trip_witness :
  exists w, os_bytes (flv.put_header (mkOstream [] false)
                        (flv.mkFLVHeader (tag "FLV") 1 5 9)) = [] ++ w /\
            length w = 9%nat /\
            flv.parse_header (stream_at [] (w ++ []))
            = (flv.mkFLVHeader (tag "FLV") 1 5 9, stream_at ([] ++ w) []).
Proof.
  apply (header_round_trip [] [] (flv.mkFLVHeader (tag "FLV") 1 5 9));
    simpl; try reflexivity; lia.
Defined.

(** X5: for a codec below 16 and a sound rate below 4, [audio_format]
    packs its arguments so that they can be read off the byte: the codec in
    the high four bits, the rate in bits 2 and 3, bit 1 set (16-bit samples)
    and bit 0 set exactly for two channels. *)
Theorem audio_format_fields (codec channels rate : Z) :
  0 <= codec < 16 -> 0 <= channels < 256 -> 0 <= rate < 4 ->
  0 <= flv.audio_format codec channels rate < 256 /\
  Z.shiftr (flv.audio_format codec channels rate) 4 = codec /\
  Z.land (Z.shiftr (flv.audio_format codec channels rate) 2) 3 = rate /\
  Z.testbit (flv.audio_format codec channels rate) 1 = true /\
  Z.testbit (flv.audio_format codec channels rate) 0 = (channels =? 2).
Proof.
  intros Hc Hch Hr. unfold flv.audio_format.
  rewrite (u8_small channels) by lia.
  assert (Ec : codec = 0 \/ codec = 1 \/ codec = 2 \/ codec = 3 \/ codec = 4 \/
               codec = 5 \/ codec = 6 \/ codec = 7 \/ codec = 8 \/ codec = 9 \/
               codec = 10 \/ codec = 11 \/ codec = 12 \/ codec = 13 \/ codec = 14 \/
               codec = 15) by lia.
  assert (Er : rate = 0 \/ rate = 1 \/ rate = 2 \/ rate = 3) by lia.
  destruct (channels =? 2);
    repeat (destruct Ec as [-> | Ec]); try subst codec;
    repeat (destruct Er as [-> | Er]); try subst rate;
    vm_compute; repeat split; congruence.
Qed.

Lemma audio_format_fields_witness :
  0 <= flv.audio_format flv.ACODEC_AAC 2 3 < 256 /\
  Z.shiftr (flv.audio_format flv.ACODEC_AAC 2 3) 4 = flv.ACODEC_AAC /\
  Z.land (Z.shiftr (flv.audio_format flv.ACODEC_AAC 2 3) 2) 3 = 3 /\
  Z.testbit (flv.audio_format flv.ACODEC_AAC 2 3) 1 = true /\
  Z.testbit (flv.audio_format flv.ACODEC_AAC 2 3) 0 = (2 =? 2).
Proof.
  apply (audio_format_fields flv.ACODEC_AAC 2 3); unfold flv.ACODEC_AAC; lia.
Defined.

Lemma skip_data_stream_at pre data rest th :
  flv.size th = Z.of_nat (length data) ->
  snd (flv.skip_data th (stream_at pre (data ++ rest))) = stream_at (pre ++ data) rest.
Proof.
  intros Hsz. unfold flv.skip_data, seekg_cur, stream_at, good_stream, sentry, good.
  cbn. rewrite Hsz.
  destruct (Z.ltb_spec (Z.of_nat (length pre) + Z.of_nat (length data)) 0); [lia |].
  rewrite <- app_assoc, length_app, Nat2Z.inj_add. reflexivity.
Qed.

(** X6: a video tag written by [write_video] with less than 16 MiB of data
    is 11 header bytes followed by as many bytes as its data-size field
    says; [parse] reads the header back as the one [write_video] left in
    [th], and [skip_data] then stands right behind the tag. *)
Theorem written_video_tag_is_parsed_and_skipped
        (pre rest : list byte) (th : flv.FLVTagHeader) (buf : list byte)
        (codec timeOffset : Z) (key header : bool) :
  0 <= flv.type th < 2 ^ 8 -> 0 <= flv.timestamp th < 2 ^ 32 ->
  0 <= flv.stream_id th < 2 ^ 24 -> Z.of_nat (length buf) + 5 < 2 ^ 24 ->
  exists w,
    os_bytes (snd (flv.write_video (mkOstream pre false) th buf codec timeOffset key header))
    = pre ++ w /\
    Z.of_nat (length w)
    = 11 + flv.size (fst (flv.write_video (mkOstream pre false) th buf codec
                                          timeOffset key header)) /\
    fst (flv.parse_tag_header (stream_at pre (w ++ rest)))
    = fst (flv.write_video (mkOstream pre false) th buf codec timeOffset key header) /\
    snd (flv.skip_data (fst (flv.parse_tag_header (stream_at pre (w ++ rest))))
                       (snd (flv.parse_tag_header (stream_at pre (w ++ rest)))))
    = stream_at (pre ++ w) rest.
Proof.
  intros Hty Hts Hid Hlen. unfold flv.write_video. cbn [fst snd].
  set (n := if u8 codec =? flv.VCODEC_AVC then 5 else 1).
  assert (Hn : 1 <= n <= 5) by (subst n; destruct (u8 codec =? flv.VCODEC_AVC); lia).
  set (th' := flv.mkFLVTagHeader (flv.type th) (u32 (Z.of_nat (length buf) + n))
                                 (flv.timestamp th) (flv.stream_id th)).
  assert (Hsz : flv.size th' = Z.of_nat (length buf) + n)
    by (cbn; apply u32_small; lia).
  rewrite put_tag_header_bytes.
  set (hdr := bytes8 (u8 (flv.type th')) ++ bytes24 (u32 (flv.size th'))
              ++ bytes24 (u32 (flv.timestamp th'))
              ++ bytes8 (u8 (Z.shiftr (flv.timestamp th') 24))
              ++ bytes24 (u32 (flv.stream_id th'))).
  set (body := bytes8 (u8 (Z.lor (if key then 16 else 32) (u8 codec)))
               ++ (if u8 codec =? flv.VCODEC_AVC
                   then bytes8 (u8 (if header then 0 else 1)) ++ bytes24 (u32 timeOffset)
                   else [])
               ++ buf).
  assert (Hbody : Z.of_nat (length body) = flv.size th').
  { rewrite Hsz. subst body n. destruct (u8 codec =? flv.VCODEC_AVC);
      rewrite !length_app; cbn [length bytes8 bytes24 app]; lia. }
  exists (hdr ++ body).
  assert (Hparse : flv.parse_tag_header (stream_at pre ((hdr ++ body) ++ rest))
                   = (th', stream_at (pre ++ hdr) (body ++ rest))).
  { rewrite <- app_assoc. subst hdr.
    apply (parse_tag_header_bytes pre th' (body ++ rest)); cbn [flv.type flv.size
      flv.timestamp flv.stream_id th']; try assumption.
    rewrite u32_small by lia. lia. }
  rewrite Hparse. cbn [fst snd].
  split.
  { subst body. unfold write8, write24, os_write. cbn [os_failed os_bytes].
    destruct (u8 codec =? flv.VCODEC_AVC); cbn [os_failed os_bytes];
      rewrite <- ?app_assoc; reflexivity. }
  split.
  { rewrite length_app, Nat2Z.inj_add, Hbody. subst hdr. cbn [length bytes8 bytes24 app]. lia. }
  split; [reflexivity |].
  rewrite skip_data_stream_at by (symmetry; exact Hbody).
  rewrite <- app_assoc. reflexivity.
Qed.

Lemma written_video_tag_witness :
  exists w,
    os_bytes (snd (flv.write_video (mkOstream [] false)
                     (flv.mkFLVTagHeader 9 0 40 0) idr_6_bytes 7 0 true false))
    = [] ++ w /\
    Z.of_nat (length w)
    = 11 + flv.size (fst (flv.write_video (mkOstream [] false)
                            (flv.mkFLVTagHeader 9 0 40 0) idr_6_bytes 7 0 true false)) /\
    fst (flv.parse_tag_header (stream_at [] (w ++ [])))
    = fst (flv.write_video (mkOstream [] false)
             (flv.mkFLVTagHeader 9 0 40 0) idr_6_bytes 7 0 true false) /\
    snd (flv.skip_data (fst (flv.parse_tag_header (stream_at [] (w ++ []))))
                       (snd (flv.parse_tag_header (stream_at [] (w ++ [])))))
    = stream_at ([] ++ w) [].
Proof.
  apply (written_video_tag_is_parsed_and_skipped [] []
           (flv.mkFLVTagHeader 9 0 40 0) idr_6_bytes 7 0 true false);
    simpl; lia.
Defined.

(** X7: the same for an audio tag written by [write_audio]: 11 header
    bytes, then the format byte, the AAC packet type when the format byte
    names AAC, and the data, as many bytes as the data-size field says;
    [parse] and [skip_data] read the tag back and step over it. *)
Theorem written_audio_tag_is_parsed_and_skipped
        (pre rest : list byte) (th : flv.FLVTagHeader) (buf : list byte)
        (aformat : Z) (header : bool) :
  0 <= flv.type th < 2 ^ 8 -> 0 <= flv.timestamp th < 2 ^ 32 ->
  0 <= flv.stream_id th < 2 ^ 24 -> Z.of_nat (length buf) + 2 < 2 ^ 24 ->
  exists w,
    os_bytes (snd (flv.write_audio (mkOstream pre false) th buf aformat header))
    = pre ++ w /\
    Z.of_nat (length w)
    = 11 + flv.size (fst (flv.write_audio (mkOstream pre false) th buf aformat header)) /\
    fst (flv.parse_tag_header (stream_at pre (w ++ rest)))
    = fst (flv.write_audio (mkOstream pre false) th buf aformat header) /\
    snd (flv.skip_data (fst (flv.parse_tag_header (stream_at pre (w ++ rest))))
                       (snd (flv.parse_tag_header (stream_at pre (w ++ rest)))))
    = stream_at (pre ++ w) rest.
Proof.
  intros Hty Hts Hid Hlen. unfold flv.write_audio. cbn [fst snd].
  set (aac := Z.shiftr (u8 aformat) 4 =? flv.ACODEC_AAC).
  set (n := if aac then 2 else 1).
  assert (Hn : 1 <= n <= 2) by (subst n; destruct aac; lia).
  set (th' := flv.mkFLVTagHeader (flv.type th) (u32 (Z.of_nat (length buf) + n))
                                 (flv.timestamp th) (flv.stream_id th)).
  assert (Hsz : flv.size th' = Z.of_nat (length buf) + n)
    by (cbn; apply u32_small; lia).
  rewrite put_tag_header_bytes.
  set (hdr := bytes8 (u8 (flv.type th')) ++ bytes24 (u32 (flv.size th'))
              ++ bytes24 (u32 (flv.timestamp th'))
              ++ bytes8 (u8 (Z.shiftr (flv.timestamp th') 24))
              ++ bytes24 (u32 (flv.stream_id th'))).
  set (body := bytes8 (u8 (u8 aformat))
               ++ (if aac then bytes8 (u8 (if header then 0 else 1)) else [])
               ++ buf).
  assert (Hbody : Z.of_nat (length body) = flv.size th').
  { rewrite Hsz. subst body n. destruct aac;
      rewrite !length_app; cbn [length bytes8 app]; lia. }
  exists (hdr ++ body).
  assert (Hparse : flv.parse_tag_header (stream_at pre ((hdr ++ body) ++ rest))
                   = (th', stream_at (pre ++ hdr) (body ++ rest))).
  { rewrite <- app_assoc. subst hdr.
    apply (parse_tag_header_bytes pre th' (body ++ rest)); cbn [flv.type flv.size
      flv.timestamp flv.stream_id th']; try assumption.
    rewrite u32_small by lia. lia. }
  rewrite Hparse. cbn [fst snd].
  split.
  { subst body. unfold write8, os_write. cbn [os_failed os_bytes].
    destruct aac; cbn [os_failed os_bytes]; rewrite <- ?app_assoc; reflexivity. }
  split.
  { rewrite length_app, Nat2Z.inj_add, Hbody. subst hdr. cbn [length bytes8 bytes24 app]. lia. }
  split; [reflexivity |].
  rewrite skip_data_stream_at by (symmetry; exact Hbody).
  rewrite <- app_assoc. reflexivity.
Qed.

Lemma written_audio_tag_witness :
  exists w,
    os_bytes (snd (flv.write_audio (mkOstream [] false)
                     (flv.mkFLVTagHeader 8 0 40 0) idr_6_bytes 175 false))
    = [] ++ w /\
    Z.of_nat (length w)
    = 11 + flv.size (fst (flv.write_audio (mkOstream [] false)
                            (flv.mkFLVTagHeader 8 0 40 0) idr_6_bytes 175 false)) /\
    fst (flv.parse_tag_header (stream_at [] (w ++ [])))
    = fst (flv.write_audio (mkOstream [] false)
             (flv.mkFLVTagHeader 8 0 40 0) idr_6_bytes 175 false) /\
    snd (flv.skip_data (fst (flv.parse_tag_header (stream_at [] (w ++ []))))
                       (snd (flv.parse_tag_header (stream_at [] (w ++ [])))))
    = stream_at ([] ++ w) [].
Proof.
  apply (written_audio_tag_is_parsed_and_skipped [] []
           (flv.mkFLVTagHeader 8 0 40 0) idr_6_bytes 175 false);
    simpl; lia.
Defined.
(** ** Looking boxes up by type *)

Lemma Box_nested_ind (P : Box -> Prop)
      (Hleaf : forall b, (forall t sz cs, b <> BoxSimpleList t sz cs) -> P b)
      (Hlist : forall t sz cs, Forall P cs -> P (BoxSimpleList t sz cs)) :
  forall b, P b.
Proof.
  fix IH 1. intros [ | | | | t sz cs | | ]; try (apply Hleaf; discriminate).
  apply Hlist. induction cs as [| c cs IHcs]; constructor; [apply IH | exact IHcs].
Qed.

Lemma findByType_list t sz cs n :
  findByType (BoxSimpleList t sz cs) n
  = if chktype t n then Some (BoxSimpleList t sz cs) else first_in n cs.
Proof. reflexivity. Qed.

Lemma findAllByType_list t sz cs n out :
  findAllByType (BoxSimpleList t sz cs) n out
  = all_in n cs (if chktype t n then out ++ [BoxSimpleList t sz cs] else out).
Proof. reflexivity. Qed.

Lemma findAllByType_app n : forall b out,
  findAllByType b n out = out ++ findAllByType b n [].
Proof.
  induction b as [b Hb | t sz cs IH] using Box_nested_ind; intros out.
  - destruct b; try (exfalso; eapply Hb; reflexivity);
      cbn [findAllByType]; destruct (chktype _ n); cbn [app];
      rewrite ?app_nil_r; reflexivity.
  - rewrite !findAllByType_list.
    set (o := if chktype t n then [BoxSimpleList t sz cs] else []).
    replace (if chktype t n then out ++ [BoxSimpleList t sz cs] else out) with (out ++ o)
      by (subst o; destruct (chktype t n); rewrite ?app_nil_r; reflexivity).
    replace (if chktype t n then [] ++ [BoxSimpleList t sz cs] else []) with o
      by (subst o; destruct (chktype t n); reflexivity).
    clearbody o. revert out o.
    induction IH as [| c cs' Hc _ IHcs]; intros out o; [reflexivity |].
    cbn [all_in]. rewrite (Hc (out ++ o)), (Hc o).
    rewrite <- app_assoc. apply IHcs.
Qed.

Lemma all_in_app n cs : forall out, all_in n cs out = out ++ all_in n cs [].
Proof.
  induction cs as [| c cs IH]; intros out; cbn [all_in].
  - rewrite app_nil_r. reflexivity.
  - rewrite IH, (IH (findAllByType c n [])), (findAllByType_app n c out).
    rewrite app_assoc. reflexivity.
Qed.

Lemma hd_error_app {A : Type} (l1 l2 : list A) :
  hd_error (l1 ++ l2) = match hd_error l1 with Some x => Some x | None => hd_error l2 end.
Proof. destruct l1; reflexivity. Qed.

Lemma findByType_first n : forall b, findByType b n = hd_error (findAllByType b n []).
Proof.
  induction b as [b Hb | t sz cs IH] using Box_nested_ind.
  - destruct b; try (exfalso; eapply Hb; reflexivity);
      cbn [findByType findAllByType]; destruct (chktype _ n); reflexivity.
  - rewrite findByType_list, findAllByType_list.
    destruct (chktype t n).
    + rewrite all_in_app. reflexivity.
    + induction IH as [| c cs' Hc _ IHcs]; [reflexivity |].
      cbn [first_in all_in]. rewrite all_in_app, hd_error_app, <- Hc.
      destruct (findByType c n); [reflexivity | exact IHcs].
Qed.

Lemma findAllByType_filter n : forall b,
  findAllByType b n [] = filter (fun r => chktype (box_type r) n) (nodes b).
Proof.
  induction b as [b Hb | t sz cs IH] using Box_nested_ind.
  - destruct b; try (exfalso; eapply Hb; reflexivity);
      cbn [findAllByType nodes filter box_type]; destruct (chktype _ n); reflexivity.
  - rewrite findAllByType_list, all_in_app.
    cbn [nodes filter box_type].
    replace (all_in n cs [])
      with (filter (fun r => chktype (box_type r) n) (flat_map nodes cs)).
    { destruct (chktype t n); reflexivity. }
    induction IH as [| c cs' Hc _ IHcs]; [reflexivity |].
    cbn [all_in flat_map]. rewrite all_in_app, filter_app, Hc, IHcs. reflexivity.
Qed.

(** X8: [findAllByType] appends to [out] exactly the nodes of the tree
    whose first four type bytes equal [n], in pre-order, a matching container
    before its matching descendants. *)
Theorem findAllByType_collects_matches (b : Box) (n : list byte) (out : list Box) :
  findAllByType b n out = out ++ filter (fun r => chktype (box_type r) n) (nodes b).
Proof. rewrite findAllByType_app, findAllByType_filter. reflexivity. Qed.

(** X9: [findByType] returns the first node in pre-order whose type equals
    [n], and the null pointer exactly when the tree has no such node. *)
Theorem findByType_is_first_match (b : Box) (n : list byte) :
  findByType b n = hd_error (filter (fun r => chktype (box_type r) n) (nodes b)).
Proof. rewrite findByType_first, findAllByType_filter. reflexivity. Qed.
(** ** The sample tables: order and bounds *)

Lemma sampleToChunk_is_walk b runs n :
  chunk_runs b = Ok runs ->
  starts_at_one_ascending runs = true ->
  positive_spc runs = true ->
  closed_samples runs < 2 ^ 32 ->
  0 <= n < 2 ^ 31 ->
  BoxSTSC.sampleToChunk b n = Ok (run_walk runs n - 1) /\ 1 <= run_walk runs n <= 1 + n.
Proof.
  intros Hruns Hstart Hpos Hsum Hn.
  destruct runs as [| [f0 s0] rs]; [discriminate |].
  unfold starts_at_one_ascending in Hstart.
  apply andb_true_iff in Hstart as [Hf0 Hasc].
  apply Z.eqb_eq in Hf0. subst f0. simpl map in Hasc.
  pose proof Hpos as Hpos'. apply positive_spc_cons in Hpos' as [Hs0 Hposrs].
  pose proof (run_walk_bounds rs 1 s0 n Hasc Hpos ltac:(lia)) as Hb.
  split; [| exact Hb].
  unfold chunk_runs in Hruns.
  apply bind_Ok in Hruns as (c & Hc & Hruns).
  pose proof (chunk_runs_from_length _ _ _ _ Hruns) as Hlen.
  unfold BoxSTSC.sampleToChunk. rewrite Hc. cbn [bind].
  rewrite <- Hlen in *. simpl length in *.
  apply chunk_runs_from_cons in Hruns as (Hf & Hs & Hruns).
  pose proof (stsc_spc_range _ _ _ Hs) as Rs.
  cbn [BoxSTSC.sampleToChunk_loop]. rewrite Hf. cbn [bind].
  change (u32 (0 + u32 (u32 (1 - 1) * 1))) with 0.
  rewrite (u32_small n) by lia.
  destruct (Z.ltb_spec n 0); [lia |].
  rewrite Hs. cbn [bind].
  destruct (Z.eqb_spec s0 0); [lia |].
  rewrite Z.sub_0_r. rewrite (u32_small n) by lia.
  pose proof (div_floor s0 n Hs0 ltac:(lia)) as [Hq _].
  rewrite (u32_small (1 + n / s0)) by lia.
  pose proof (sampleToChunk_loop_walk b n rs (0 + 1) 0 1 s0 Hruns) as Hloop.
  rewrite Z.sub_0_r in Hloop.
  rewrite Hloop; try assumption; try lia.
  cbn [bind]. rewrite u32_small by lia. reflexivity.
Qed.

Lemma run_walk_mono rs : forall lf ls m1 m2,
  ascending (lf :: map fst rs) = true -> positive_spc ((lf, ls) :: rs) = true ->
  0 <= m1 <= m2 ->
  run_walk ((lf, ls) :: rs) m1 <= run_walk ((lf, ls) :: rs) m2.
Proof.
  induction rs as [| [f s] rs IH]; intros lf ls m1 m2 Hasc Hpos Hm.
  - apply positive_spc_cons in Hpos as [Hls _]. simpl.
    pose proof (Z.div_le_mono m1 m2 ls ltac:(lia) ltac:(lia)). lia.
  - pose proof Hpos as Hpos0.
    simpl map in Hasc. apply ascending_cons in Hasc as [Hle Hasc].
    apply positive_spc_cons in Hpos as [Hls Hpos].
    change (run_walk ((lf, ls) :: (f, s) :: rs) m1)
      with (if m1 <? (f - lf) * ls then lf + m1 / ls
            else run_walk ((f, s) :: rs) (m1 - (f - lf) * ls)).
    change (run_walk ((lf, ls) :: (f, s) :: rs) m2)
      with (if m2 <? (f - lf) * ls then lf + m2 / ls
            else run_walk ((f, s) :: rs) (m2 - (f - lf) * ls)).
    destruct (Z.ltb_spec m1 ((f - lf) * ls)) as [H1 | H1];
      destruct (Z.ltb_spec m2 ((f - lf) * ls)) as [H2 | H2]; try lia.
    + pose proof (Z.div_le_mono m1 m2 ls ltac:(lia) ltac:(lia)). lia.
    + pose proof (run_walk_bounds rs f s (m2 - (f - lf) * ls) Hasc Hpos ltac:(lia)) as Hb.
      assert (m1 / ls < f - lf) by (apply Z.div_lt_upper_bound; lia).
      lia.
    + apply IH; try assumption. lia.
Qed.

(** X10: on a chunk-run table as in the theorem of C1 (ascending runs from
    chunk 1, at least one sample per chunk, fewer than 2^32 samples in the
    closed runs), [sampleToChunk] is non-decreasing in the sample index and
    never names a chunk beyond the index of the sample: sample 0 lies in
    chunk 0. *)
Theorem sampleToChunk_monotone b runs n m :
  chunk_runs b = Ok runs ->
  starts_at_one_ascending runs = true ->
  positive_spc runs = true ->
  closed_samples runs < 2 ^ 32 ->
  0 <= n <= m -> m < 2 ^ 31 ->
  exists cn cm,
    BoxSTSC.sampleToChunk b n = Ok cn /\ BoxSTSC.sampleToChunk b m = Ok cm /\
    0 <= cn <= cm /\ cm <= m.
Proof.
  intros Hruns Hstart Hpos Hsum Hnm Hm.
  destruct (sampleToChunk_is_walk b runs n Hruns Hstart Hpos Hsum ltac:(lia)) as [En Bn].
  destruct (sampleToChunk_is_walk b runs m Hruns Hstart Hpos Hsum ltac:(lia)) as [Em Bm].
  exists (run_walk runs n - 1), (run_walk runs m - 1).
  split; [exact En |]. split; [exact Em |].
  destruct runs as [| [f0 s0] rs]; [discriminate |].
  unfold starts_at_one_ascending in Hstart.
  apply andb_true_iff in Hstart as [Hf0 Hasc].
  apply Z.eqb_eq in Hf0. subst f0. simpl map in Hasc.
  pose proof (run_walk_mono rs 1 s0 n m Hasc Hpos ltac:(lia)). lia.
Qed.

Lemma sampleToChunk_monotone_witness :
  exists cn cm,
    BoxSTSC.sampleToChunk (table_of_words BOX_STSC [3; 1; 4; 1; 3; 2; 1; 5; 1; 1]) 7 = Ok cn /\
    BoxSTSC.sampleToChunk (table_of_words BOX_STSC [3; 1; 4; 1; 3; 2; 1; 5; 1; 1]) 12 = Ok cm /\
    0 <= cn <= cm /\ cm <= 12.
Proof.
  apply (sampleToChunk_monotone
           (table_of_words BOX_STSC [3; 1; 4; 1; 3; 2; 1; 5; 1; 1])
           [(1, 4); (3, 2); (5, 1)] 7 12).
  - vm_compute. reflexivity.
  - reflexivity.
  - reflexivity.
  - vm_compute. reflexivity.
  - lia.
  - lia.
Defined.

Lemma total_samples_of_counts (l : list (Z * Z)) :
  (forall c o, In (c, o) l -> 0 <= c) -> 0 <= total_samples l.
Proof.
  induction l as [| [c o] l IH]; intros H; [simpl; lia |].
  cbn [total_samples]. pose proof (H c o (or_introl eq_refl)).
  assert (0 <= total_samples l); [| lia].
  apply IH. intros c0 o0 Hin. eapply H. right. exact Hin.
Qed.

Lemma time_runs_from_nonneg b : forall rs k i,
  time_runs_from b k i = Ok rs -> forall c d, In (c, d) rs -> 0 <= c /\ 0 <= d.
Proof.
  induction rs as [| [c0 d0] rs IH]; intros k i Hruns c d Hin; [contradiction |].
  destruct k as [| k]; [discriminate |].
  apply time_runs_from_cons in Hruns as (Hc & Hd & Hruns).
  destruct Hin as [E | Hin].
  - injection E as <- <-.
    pose proof (ui32_range _ _ _ Hc). pose proof (ui32_range _ _ _ Hd). lia.
  - eapply IH; eassumption.
Qed.

Lemma decode_time_nonneg rs : forall n,
  (forall c d, In (c, d) rs -> 0 <= c /\ 0 <= d) -> 0 <= n -> 0 <= decode_time rs n.
Proof.
  induction rs as [| [c d] rs IH]; intros n Hr Hn; [simpl; lia |].
  destruct (Hr c d (or_introl eq_refl)) as [Hc Hd].
  cbn [decode_time]. destruct (Z.ltb_spec n c); [nia |].
  specialize (IH (n - c) (fun c' d' H' => Hr c' d' (or_intror H')) ltac:(lia)). nia.
Qed.

Lemma decode_time_past_end rs : forall n,
  (forall c d, In (c, d) rs -> 0 <= c /\ 0 <= d) ->
  total_samples rs <= n -> decode_time rs n = total_duration rs.
Proof.
  induction rs as [| [c d] rs IH]; intros n Hr Hn; [reflexivity |].
  destruct (Hr c d (or_introl eq_refl)) as [Hc Hd].
  cbn [decode_time total_duration total_samples] in *.
  destruct (Z.ltb_spec n c).
  - assert (0 <= total_samples rs).
    { apply total_samples_of_counts. intros c0 d0 Hin.
      apply (Hr c0 d0). right. exact Hin. }
    lia.
  - f_equal. apply IH; [| lia]. intros c' d' H'. apply Hr. right. exact H'.
Qed.

Lemma decode_time_mono rs : forall n m,
  (forall c d, In (c, d) rs -> 0 <= c /\ 0 <= d) ->
  0 <= n <= m -> decode_time rs n <= decode_time rs m.
Proof.
  induction rs as [| [c d] rs IH]; intros n m Hr Hnm; [simpl; lia |].
  destruct (Hr c d (or_introl eq_refl)) as [Hc Hd].
  assert (Hr' : forall c' d', In (c', d') rs -> 0 <= c' /\ 0 <= d')
    by (intros c' d' H'; apply Hr; right; exact H').
  cbn [decode_time].
  destruct (Z.ltb_spec n c); destruct (Z.ltb_spec m c); try lia.
  - nia.
  - pose proof (decode_time_nonneg rs (m - c) Hr' ltac:(lia)). nia.
  - specialize (IH (n - c) (m - c) Hr' ltac:(lia)). lia.
Qed.

Lemma sampleToTime_value b runs n :
  time_runs b = Ok runs -> products_fit runs = true -> 0 <= n < 2 ^ 32 ->
  BoxSTTS.sampleToTime b n = Ok (decode_time runs n).
Proof.
  intros Hruns Hfit Hn.
  unfold time_runs in Hruns. apply bind_Ok in Hruns as (c & Hc & Hruns).
  pose proof (time_runs_from_length _ _ _ _ Hruns) as Hlen.
  pose proof (time_runs_from_nonneg _ _ _ _ Hruns) as Hr.
  unfold BoxSTTS.sampleToTime. rewrite Hc. cbn [bind].
  rewrite <- Hlen in *. rewrite (u32_small n) by lia.
  rewrite sampleToTime_loop_exact; try assumption; try lia.
  - destruct (Z.ltb_spec n (total_samples runs)); [reflexivity |].
    rewrite decode_time_past_end by (assumption || lia). reflexivity.
  - pose proof (length_lt_count b c runs Hc Hlen). lia.
Qed.

(** X13: with products that fit in 32 bits, [sampleToTime] is
    non-decreasing in the sample index, for indexes inside and past the
    table alike, and never exceeds the total duration of the table. *)
Theorem sampleToTime_monotone b runs n m :
  time_runs b = Ok runs -> products_fit runs = true ->
  0 <= n <= m -> m < 2 ^ 32 ->
  exists tn tm,
    BoxSTTS.sampleToTime b n = Ok tn /\ BoxSTTS.sampleToTime b m = Ok tm /\
    0 <= tn <= tm /\ tm <= total_duration runs.
Proof.
  intros Hruns Hfit Hnm Hm.
  exists (decode_time runs n), (decode_time runs m).
  split; [apply sampleToTime_value; assumption || lia |].
  split; [apply sampleToTime_value; assumption || lia |].
  unfold time_runs in Hruns. apply bind_Ok in Hruns as (c & Hc & Hruns).
  pose proof (time_runs_from_nonneg _ _ _ _ Hruns) as Hr.
  pose proof (decode_time_nonneg runs n Hr ltac:(lia)).
  pose proof (decode_time_mono runs n m Hr Hnm).
  pose proof (decode_time_mono runs m (Z.max m (total_samples runs)) Hr ltac:(lia)) as Hle.
  rewrite (decode_time_past_end runs (Z.max m (total_samples runs))) in Hle by (assumption || lia).
  lia.
Qed.

Lemma sampleToTime_monotone_witness :
  exists tn tm,
    BoxSTTS.sampleToTime (table_of_words BOX_STTS [2; 3; 1000; 2; 500]) 2 = Ok tn /\
    BoxSTTS.sampleToTime (table_of_words BOX_STTS [2; 3; 1000; 2; 500]) 4 = Ok tm /\
    0 <= tn <= tm /\ tm <= total_duration [(3, 1000); (2, 500)].
Proof.
  apply (sampleToTime_monotone (table_of_words BOX_STTS [2; 3; 1000; 2; 500])
                               [(3, 1000); (2, 500)] 2 4).
  - vm_compute. reflexivity.
  - reflexivity.
  - lia.
  - lia.
Defined.

Lemma sampleToTime_exact_witness :
  BoxSTTS.sampleToTime (table_of_words BOX_STTS [2; 3; 1000; 2; 500]) 4
  = Ok (decode_time [(3, 1000); (2, 500)] 4).
Proof.
  apply (sampleToTime_exact (table_of_words BOX_STTS [2; 3; 1000; 2; 500])
                            [(3, 1000); (2, 500)] 4).
  - vm_compute. reflexivity.
  - reflexivity.
  - vm_compute. split; [discriminate | reflexivity].
  - lia.
Defined.

Lemma sampleToTime_past_end_witness :
  BoxSTTS.sampleToTime (table_of_words BOX_STTS [2; 3; 1000; 2; 500]) 9
  = Ok (total_duration [(3, 1000); (2, 500)]).
Proof.
  apply (sampleToTime_past_end (table_of_words BOX_STTS [2; 3; 1000; 2; 500])
                               [(3, 1000); (2, 500)] 9).
  - vm_compute. reflexivity.
  - reflexivity.
  - vm_compute. split; [discriminate | reflexivity].
Defined.

(** ** The composition-offset table: [sampleToOffset] *)

Lemma offset_runs_from_cons b k i c o rs :
  offset_runs_from b (S k) i = Ok ((c, o) :: rs) ->
  BoxCTTS.offset b i = Ok o /\ BoxCTTS.count_at b i = Ok c /\
  offset_runs_from b k (i + 1) = Ok rs.
Proof.
  simpl. intros H.
  apply bind_Ok in H as (o0 & Ho & H).
  apply bind_Ok in H as (c0 & Hc & H).
  apply bind_Ok in H as (r0 & Hr & H).
  injection H as <- <- <-. auto.
Qed.

Lemma offset_runs_from_length b : forall k i rs,
  offset_runs_from b k i = Ok rs -> length rs = k.
Proof.
  induction k as [| k IH]; simpl; intros i rs H.
  - injection H as <-. reflexivity.
  - apply bind_Ok in H as (o0 & Ho & H).
    apply bind_Ok in H as (c0 & Hc & H).
    apply bind_Ok in H as (r0 & Hr & H).
    injection H as <-. simpl. f_equal. eapply IH; eassumption.
Qed.

Lemma offset_runs_from_app b : forall pre k i rs,
  offset_runs_from b k i = Ok (pre ++ rs) ->
  offset_runs_from b (length rs) (i + Z.of_nat (length pre)) = Ok rs /\
  (forall c o, In (c, o) pre -> 0 <= c).
Proof.
  induction pre as [| [c o] pre IH]; intros k i rs H.
  - cbn [app length] in *. rewrite Z.add_0_r.
    pose proof (offset_runs_from_length _ _ _ _ H) as <-. split; [exact H | contradiction].
  - destruct k as [| k]; [discriminate |].
    cbn [app] in H. apply offset_runs_from_cons in H as (Ho & Hc & H).
    apply IH in H as [H Hpre]. cbn [length]. rewrite Nat2Z.inj_succ.
    replace (i + Z.succ (Z.of_nat (length pre))) with (i + 1 + Z.of_nat (length pre)) by lia.
    split; [exact H |].
    intros c' o' [E | Hin]; [| eapply Hpre; exact Hin].
    injection E as <- _. pose proof (ui32_range _ _ _ Hc). lia.
Qed.

(** The loop while the runs before the one that holds [n] go by. *)
Lemma sampleToOffset_loop_skip b n : forall pre i ofs s k,
  offset_runs_from b (length pre) i = Ok pre ->
  0 <= s -> s + total_samples pre <= n -> n < 2 ^ 32 ->
  BoxCTTS.sampleToOffset_loop b n (length pre + k) i ofs s
  = BoxCTTS.sampleToOffset_loop b n k (i + Z.of_nat (length pre))
      (match rev pre with (_, o) :: _ => o | [] => ofs end) (s + total_samples pre).
Proof.
  induction pre as [| [c o] pre IH]; intros i ofs s k Hruns Hs Hn Hn32.
  - cbn. rewrite !Z.add_0_r. reflexivity.
  - cbn [length] in Hruns. apply offset_runs_from_cons in Hruns as (Ho & Hc & Hruns).
    pose proof (ui32_range _ _ _ Hc) as Rc.
    assert (Htot : 0 <= total_samples pre).
    { apply total_samples_of_counts.
      refine (proj2 (offset_runs_from_app b pre (length pre) (i + 1) [] _)).
      rewrite app_nil_r. exact Hruns. }
    cbn [total_samples] in Hn.
    cbn [length plus BoxCTTS.sampleToOffset_loop]. rewrite Ho, Hc. cbn [bind].
    rewrite (u32_small (s + c)) by lia. rewrite (u32_small n) by lia.
    destruct (Z.ltb_spec n (s + c)); [lia |].
    rewrite IH; try assumption; try lia.
    cbn [total_samples]. rewrite Nat2Z.inj_succ.
    replace (i + 1 + Z.of_nat (length pre)) with (i + Z.succ (Z.of_nat (length pre))) by lia.
    replace (s + c + total_samples pre) with (s + (c + total_samples pre)) by lia.
    f_equal. cbn [rev].
    destruct (rev pre) as [| [c1 o1] l]; reflexivity.
Qed.

(** X14: when the counts up to and including a run do not exceed 32 bits,
    [sampleToOffset] returns the offset of the run that holds the sample;
    for a sample past the end of the table it returns the offset of the last
    run. *)
Theorem sampleToOffset_run (b : FullBufBox) (pre post : list (Z * Z)) (c o n : Z) :
  offset_runs b = Ok (pre ++ (c, o) :: post) ->
  total_samples pre + c < 2 ^ 32 ->
  total_samples pre <= n < 2 ^ 32 ->
  n < total_samples pre + c \/ post = [] ->
  BoxCTTS.sampleToOffset b n = Ok o.
Proof.
  intros Hruns Hsum Hn Hin.
  unfold offset_runs in Hruns. apply bind_Ok in Hruns as (cnt & Hcnt & Hruns).
  pose proof (offset_runs_from_length _ _ _ _ Hruns) as Hlen.
  unfold BoxCTTS.sampleToOffset. rewrite Hcnt. cbn [bind].
  rewrite <- Hlen, length_app. cbn [length].
  pose proof (offset_runs_from_app b pre _ _ _ Hruns) as [Htail _].
  assert (Hpre : offset_runs_from b (length pre) 0 = Ok pre).
  { clear - Hruns. revert Hruns. generalize (Z.to_nat cnt) as k. generalize 0 as i.
    induction pre as [| [c' o'] pre IH]; intros i k H; [reflexivity |].
    destruct k as [| k]; [discriminate |].
    cbn [app] in H. apply offset_runs_from_cons in H as (Ho & Hc & H).
    cbn [length offset_runs_from]. rewrite Ho, Hc. cbn [bind].
    rewrite (IH _ _ H). reflexivity. }
  rewrite sampleToOffset_loop_skip; try assumption; try lia.
  cbn [length] in Htail. apply offset_runs_from_cons in Htail as (Ho & Hc & Htail).
  pose proof (ui32_range _ _ _ Hc) as Rc.
  cbn [BoxCTTS.sampleToOffset_loop]. rewrite Ho, Hc. cbn [bind].
  rewrite Z.add_0_l.
  assert (Hpos : 0 <= total_samples pre).
  { apply total_samples_of_counts.
    refine (proj2 (offset_runs_from_app b pre (length pre) 0 [] _)).
    rewrite app_nil_r. exact Hpre. }
  rewrite (u32_small (total_samples pre + c)) by lia. rewrite (u32_small n) by lia.
  destruct (Z.ltb_spec n (total_samples pre + c)); [reflexivity |].
  destruct Hin as [? | ->]; [lia |]. reflexivity.
Qed.

Lemma sampleToOffset_run_witness :
  BoxCTTS.sampleToOffset (table_of_words BOX_CTTS [2; 3; 100; 2; 200]) 4 = Ok 200.
Proof.
  apply (sampleToOffset_run (table_of_words BOX_CTTS [2; 3; 100; 2; 200])
                            [(3, 100)] [] 2 200 4).
  - vm_compute. reflexivity.
  - vm_compute. reflexivity.
  - vm_compute. split; [discriminate | reflexivity].
  - left. vm_compute. reflexivity.
Defined.
(** ** The keyframe scan on whole units *)

Lemma idr_scan_more_fuel : forall fuel buf p rap r,
  idr_scan fuel buf p rap = Ok r ->
  forall fuel', (fuel <= fuel')%nat -> idr_scan fuel' buf p rap = Ok r.
Proof.
  induction fuel as [| fuel IH]; intros buf p rap r H fuel' Hle; [discriminate |].
  destruct fuel' as [| fuel']; [lia |].
  cbn [idr_scan] in *.
  destruct (u32 (p + 5) <? Z.of_nat (length buf)); [| exact H].
  destruct (vec_at buf p); [| discriminate]. cbn [bind] in *.
  destruct (vec_at buf (p + 1)); [| discriminate]. cbn [bind] in *.
  destruct (vec_at buf (p + 2)); [| discriminate]. cbn [bind] in *.
  destruct (vec_at buf (p + 3)); [| discriminate]. cbn [bind] in *.
  destruct (vec_at buf (p + 4)); [| discriminate]. cbn [bind] in *.
  apply (IH _ _ _ _ H). lia.
Qed.

(** X15: on a sample made of whole length-prefixed units of two bytes or
    more each, the scan of [main] ends within one step per unit and answers
    true exactly when some unit has type 5 in the low five bits of its first
    byte. *)
Theorem idr_scan_finds_idr_units (units : list (list byte)) (fuel : nat) :
  Forall (fun u => (2 <= length u)%nat) units ->
  Z.of_nat (length (sample_of_units units)) + 5 < 2 ^ 32 ->
  (length units < fuel)%nat ->
  idr_scan fuel (sample_of_units units) 0 false = Ok (has_idr_unit units).
Proof.
  intros Hall Hsize Hfuel.
  apply (idr_scan_more_fuel (S (length units))); [| lia].
  exact (idr_scan_units units [] false Hall Hsize).
Qed.

Lemma idr_scan_finds_idr_units_witness :
  idr_scan 3 (sample_of_units [[Byte.x41; Byte.x9a]; [Byte.x65; Byte.x88]]) 0 false
  = Ok (has_idr_unit [[Byte.x41; Byte.x9a]; [Byte.x65; Byte.x88]]).
Proof.
  apply (idr_scan_finds_idr_units [[Byte.x41; Byte.x9a]; [Byte.x65; Byte.x88]] 3).
  - repeat constructor.
  - vm_compute. reflexivity.
  - simpl. lia.
Defined.
(** ** The sample loop as a whole *)

Lemma write_video_avc_length ts data cts rap :
  length (os_bytes (snd (flv.write_video (mkOstream [] false)
                           (flv.mkFLVTagHeader flv.TAG_TYPE_VIDEO 0 ts 0) data
                           flv.VCODEC_AVC cts rap false)))
  = (length data + 16)%nat.
Proof.
  unfold flv.write_video, flv.put_tag_header, write8, write24, os_write.
  change (u8 flv.VCODEC_AVC =? flv.VCODEC_AVC) with true. cbv iota.
  cbn [os_failed os_bytes snd app flv.type flv.size flv.timestamp flv.stream_id].
  rewrite !length_app. cbn [length bytes8 bytes24]. lia.
Qed.

Lemma emit_sample_tag fuel t i st st' :
  emit_sample fuel t i st = Ok st' ->
  os_failed (out st) = false ->
  prev st = u64 (tellp (out st)) ->
  exists tg,
    sample_tag fuel t i tg /\
    os_bytes (out st') = os_bytes (out st) ++ with_back_pointer tg /\
    os_failed (out st') = false /\
    prev st' = u64 (tellp (out st')).
Proof.
  unfold emit_sample, put_prev_tag_size. intros H Hgood Hprev.
  apply bind_Ok in H as (c & Hc & H).
  apply bind_Ok in H as (chunk & Hchunk & H).
  destruct (negb (lastChunk st =? chunk)); cbv beta iota zeta in H;
    repeat peel H;
    injection H as <-; cbn [buf out prev];
    repeat match goal with
           | Hd : deref _ = Ok _ |- _ => apply deref_Ok in Hd
           end;
    match goal with
    | Hz : stsz t = Some ?z, Hs : stts t = Some ?s, Hm : mdhd t = Some ?m,
      Hsz : BoxSTSZ.size ?z i = Ok ?sz, Htime : BoxSTTS.sampleToTime ?s i = Ok ?time,
      Hscale : BoxMDHD.timeScale ?m = Ok ?scale, Hnz : (?scale =? 0) = false,
      Hoff : match ctts t with Some _ => _ | None => _ end = Ok ?toff,
      Hr : vec_resize _ ?sz = Ok ?v, Hi : read_into ?v _ _ = (?data, _),
      Hrap : idr_scan fuel ?data 0 false = Ok ?rap |- _ =>
        exists (os_bytes (snd (flv.write_video (mkOstream [] false)
                  (flv.mkFLVTagHeader flv.TAG_TYPE_VIDEO 0
                                      (u32 (u64 (time * 1000) / scale)) 0)
                  data flv.VCODEC_AVC (u32 (toff * 1000) / scale) rap false)));
        pose proof (stsz_size_range _ _ _ Hsz) as Rsz;
        pose proof (vec_resize_length _ _ _ Hr ltac:(lia)) as Hv;
        pose proof (read_into_length _ _ _ _ Hi) as Hd;
        split;
        [ exists z, s, m, sz, time, scale, toff, rap, data;
          repeat (split; [first [assumption | apply Z.eqb_neq; assumption | lia] |]);
          reflexivity
        | unfold with_back_pointer; rewrite write_video_avc_length ]
    end;
    unfold flv.write_video, flv.put_tag_header, write8, write24, write32 in *;
    cbn [flv.type flv.size flv.timestamp flv.stream_id] in *;
    change (u8 flv.VCODEC_AVC =? flv.VCODEC_AVC) with true; cbv iota;
    change (u8 flv.VCODEC_AVC) with flv.VCODEC_AVC;
    rewrite (os_write_good (out st)) by assumption;
    cbn [os_write os_failed os_bytes tellp snd app];
    (split; [| split; reflexivity]);
    rewrite <- !app_assoc;
    match goal with
    | |- context [Z.of_nat (length ?v) + 2 + 3] =>
        replace (Z.of_nat (length v) + 2 + 3) with (Z.of_nat (length v) + 5) by lia
    end;
    do 10 f_equal;
    rewrite Hprev; unfold tellp; rewrite Hgood;
    rewrite back_pointer_value; unfold u32; do 2 f_equal;
    rewrite !length_app; cbn [length bytes8 bytes24 bytes32]; lia.
Qed.

Lemma indexes_from_S i k : indexes_from i (S k) = i :: indexes_from (i + 1) k.
Proof.
  unfold indexes_from. cbn [seq map]. rewrite Z.add_0_r. f_equal.
  rewrite <- seq_shift, map_map. apply map_ext. intros j. lia.
Qed.

Lemma emit_samples_tags fuel t : forall k i st st',
  emit_samples fuel t k i st = Ok st' ->
  os_failed (out st) = false ->
  prev st = u64 (tellp (out st)) ->
  exists tags,
    Forall2 (sample_tag fuel t) (indexes_from i k) tags /\
    os_bytes (out st') = os_bytes (out st) ++ concat (map with_back_pointer tags) /\
    os_failed (out st') = false.
Proof.
  induction k as [| k IH]; intros i st st' H Hgood Hprev.
  - injection H as <-. exists []. cbn. rewrite app_nil_r. auto.
  - cbn [emit_samples] in H.
    destruct (2 ^ 31 <=? i); [discriminate |].
    apply bind_Ok in H as (st1 & H1 & H).
    destruct (emit_sample_tag _ _ _ _ _ H1 Hgood Hprev) as (tg & Htg & Hb & Hg1 & Hp1).
    destruct (IH _ _ _ H Hg1 Hp1) as (tags & Hall & Hbytes & Hg').
    exists (tg :: tags).
    split; [rewrite indexes_from_S; constructor; assumption |].
    split; [| exact Hg'].
    rewrite Hbytes, Hb. cbn [map concat]. rewrite <- !app_assoc. reflexivity.
Qed.

Lemma os_write_keeps_good os bs : os_failed os = false -> os_failed (os_write os bs) = false.
Proof. intros H. unfold os_write. rewrite H. reflexivity. Qed.

Lemma put_prev_tag_size_good os p os' p' :
  put_prev_tag_size os p = (os', p') -> os_failed os = false ->
  os_failed os' = false /\ p' = u64 (tellp os').
Proof.
  unfold put_prev_tag_size. intros H Hg.
  set (os1 := write32 os (u64 (u32 (tellp os) - p))) in *.
  assert (E1 : os' = os1) by congruence.
  assert (E2 : p' = u64 (tellp os1)) by congruence.
  subst os' p'. split; [| reflexivity].
  apply os_write_keeps_good. exact Hg.
Qed.

Lemma emit_prologue_good t os0 prev0 :
  emit_prologue t (mkOstream [] false) = Ok (os0, prev0) ->
  os_failed os0 = false /\ prev0 = u64 (tellp os0).
Proof.
  unfold emit_prologue. intros H.
  apply bind_Ok in H as (config & _ & H).
  assert (E : forall (a b : ostream * Z), Ok a = Ok b -> a = b) by (intros a b X; congruence).
  apply E in H. apply put_prev_tag_size_good in H; [exact H |].
  unfold flv.put_tag_header, flv.put_header, write8, write24, write32.
  repeat apply os_write_keeps_good. reflexivity.
Qed.

(** X16: when the remux part of [main] succeeds, the output is what the
    prologue wrote followed by one tag per sample of the size table, in
    order, each followed by a back-pointer that holds the tag's own length.
    Tag [j] is the video tag that [write_video] writes for codec AVC and
    packet type 1 around [size(j)] bytes of data, with timestamp
    [sampleToTime(j) * 1000 / timeScale], composition offset
    [sampleToOffset(j) * 1000 / timeScale] (0 without a ctts box) and the
    key-frame flag of the scan of the data. *)
Theorem remux_writes_one_tag_per_sample (fuel : nat) (t : Track) (input : istream)
        (os : ostream) :
  remux fuel t input = Ok os ->
  exists os0 prev0 z n tags,
    emit_prologue t (mkOstream [] false) = Ok (os0, prev0) /\
    stsz t = Some z /\ BoxSTSZ.count z = Ok n /\
    Forall2 (sample_tag fuel t) (indexes_from 0 (Z.to_nat n)) tags /\
    os_bytes os = os_bytes os0 ++ concat (map with_back_pointer tags) /\
    os_failed os = false.
Proof.
  unfold remux. intros H.
  apply bind_Ok in H as ([os0 prev0] & Hp & H).
  apply bind_Ok in H as (z & Hz & H).
  apply bind_Ok in H as (n & Hn & H).
  apply bind_Ok in H as (st & Hst & H).
  injection H as <-.
  destruct (emit_prologue_good _ _ _ Hp) as [Hg0 Hp0].
  apply deref_Ok in Hz.
  destruct (emit_samples_tags _ _ _ _ _ _ Hst Hg0 Hp0) as (tags & Hall & Hb & Hg).
  exists os0, prev0, z, n, tags.
  repeat split; assumption.
Qed.

Lemma remux_writes_one_tag_per_sample_witness :
  exists os0 prev0 z n tags,
    emit_prologue (example_track stsz_per_sample) (mkOstream [] false) = Ok (os0, prev0) /\
    stsz (example_track stsz_per_sample) = Some z /\ BoxSTSZ.count z = Ok n /\
    Forall2 (sample_tag 4 (example_track stsz_per_sample))
            (indexes_from 0 (Z.to_nat n)) tags /\
    os_bytes example_flv = os_bytes os0 ++ concat (map with_back_pointer tags) /\
    os_failed example_flv = false.
Proof.
  apply (remux_writes_one_tag_per_sample 4 (example_track stsz_per_sample)
           (good_stream example_file 0) example_flv).
  vm_compute. reflexivity.
Defined.
(** ** Where a sample is read *)




(** ** Writing a tree and decoding it again *)

Lemma fits_spec bits z : fits bits z = true <-> 0 <= z < 2 ^ bits.
Proof. unfold fits. rewrite andb_true_iff, Z.leb_le, Z.ltb_lt. tauto. Qed.

Ltac split_andb H :=
  repeat match type of H with
         | _ && _ = true => let H' := fresh H in apply andb_true_iff in H as [H H']
         end.

(** *** The boxes without children *)

Lemma UnknownBox_parse_body type sz body c post :
  0 <= sz < 2 ^ 32 -> Z.of_nat (length body) = sz - 8 ->
  UnknownBox_parse type sz (stream_at c (body ++ post))
  = Ok (UnknownBox type sz body, stream_at (c ++ body) post).
Proof.
  intros Hsz Hlen. unfold UnknownBox_parse.
  pose proof (body_read sz c body post Hsz Hlen) as Hr.
  destruct (vec_resize [] (u64 (sz - 8))) as [v | e]; [| discriminate].
  cbn [bind] in *. injection Hr as Hr. rewrite Hr. reflexivity.
Qed.

Lemma BoxFREE_parse_body sz body c post :
  0 <= sz < 2 ^ 32 -> Z.of_nat (length body) = sz - 8 ->
  BoxFREE_parse sz (stream_at c (body ++ post))
  = Ok (BoxFREE sz body, stream_at (c ++ body) post).
Proof.
  intros Hsz Hlen. unfold BoxFREE_parse.
  pose proof (body_read sz c body post Hsz Hlen) as Hr.
  destruct (vec_resize [] (u64 (sz - 8))) as [v | e]; [| discriminate].
  cbn [bind] in *. injection Hr as Hr. rewrite Hr. reflexivity.
Qed.

Lemma FullBufBox_parse_body type sz version flags buf c post :
  0 <= sz < 2 ^ 32 -> Z.of_nat (length buf) = sz - 12 ->
  0 <= version < 2 ^ 8 -> 0 <= flags < 2 ^ 24 ->
  FullBufBox_parse type sz
    (stream_at c ((bytes8 (u8 version) ++ bytes24 (u32 flags) ++ buf) ++ post))
  = Ok (BoxLeaf (mkFullBufBox type sz version flags buf),
        stream_at (c ++ bytes8 (u8 version) ++ bytes24 (u32 flags) ++ buf) post).
Proof.
  intros Hsz Hlen Hv Hf. unfold FullBufBox_parse.
  rewrite u64_small by lia. rewrite vec_resize_nil by lia. cbn [bind].
  rewrite <- !app_assoc.
  rewrite read8_bytes8, read24_bytes24.
  replace (Z.to_nat (sz - 12)) with (length buf) by lia.
  rewrite read_into_stream_at by lia.
  rewrite (u8_small version), (Z.mod_small flags) by lia.
  rewrite <- !app_assoc. reflexivity.
Qed.

Lemma BoxMVHD_parse_body sz flags created modified timeScale duration rate volume
      buf c post :
  0 <= sz < 2 ^ 32 -> Z.of_nat (length buf) = sz - 36 -> 0 <= flags < 2 ^ 24 ->
  0 <= created < 2 ^ 32 -> 0 <= modified < 2 ^ 32 -> 0 <= timeScale < 2 ^ 32 ->
  0 <= duration < 2 ^ 32 -> 0 <= rate < 2 ^ 32 -> 0 <= volume < 2 ^ 32 ->
  BoxMVHD_parse sz
    (stream_at c ((bytes8 (u8 0) ++ bytes24 (u32 flags) ++ bytes32 (u32 created)
                   ++ bytes32 (u32 modified) ++ bytes32 (u32 timeScale)
                   ++ bytes32 (u32 duration) ++ bytes32 (u32 rate)
                   ++ bytes32 (u32 volume) ++ buf) ++ post))
  = Ok (BoxMVHD sz 0 flags created modified timeScale duration rate volume buf,
        stream_at (c ++ bytes8 (u8 0) ++ bytes24 (u32 flags) ++ bytes32 (u32 created)
                   ++ bytes32 (u32 modified) ++ bytes32 (u32 timeScale)
                   ++ bytes32 (u32 duration) ++ bytes32 (u32 rate)
                   ++ bytes32 (u32 volume) ++ buf) post).
Proof.
  intros Hsz Hlen Hf Hc Hm Ht Hd Hr Hv. unfold BoxMVHD_parse.
  rewrite tellg_stream_at. rewrite <- !app_assoc.
  rewrite read8_bytes8, read24_bytes24. change (negb (u8 0 =? 0)) with false. cbv iota.
  rewrite !read32_bytes32.
  replace (sz - (8 + 4 + 4 * 6)) with (sz - 36) by lia.
  rewrite u64_small by lia. rewrite vec_resize_nil by lia. cbn [bind].
  replace (Z.to_nat (sz - 36)) with (length buf) by lia.
  rewrite read_into_stream_at by lia.
  rewrite (Z.mod_small flags) by lia.
  rewrite !u32_small by lia.
  rewrite <- !app_assoc. reflexivity.
Qed.

Lemma BoxFTYP_parse_body sz major minor compat c post :
  length major = 4%nat -> 0 <= minor < 2 ^ 32 ->
  Forall (fun w => length w = 4%nat) compat ->
  sz = 16 + 4 * Z.of_nat (length compat) -> sz < 2 ^ 32 ->
  Z.of_nat (length c) + sz - 8 < 2 ^ 63 ->
  BoxFTYP_parse sz (stream_at c ((major ++ bytes32 (u32 minor) ++ concat compat) ++ post))
  = Ok (BoxFTYP sz major minor compat,
        stream_at (c ++ major ++ bytes32 (u32 minor) ++ concat compat) post).
Proof.
  intros Hmaj Hmin Hall Hsz Hlt Hpos. unfold BoxFTYP_parse.
  rewrite tellg_stream_at. rewrite <- !app_assoc.
  replace (repeat Byte.x00 4) with (repeat Byte.x00 (length major))
    by (rewrite Hmaj; reflexivity).
  rewrite read_into_stream_at by lia.
  rewrite read32_bytes32.
  destruct (Z.ltb_spec sz 16); [lia |].
  replace (Z.to_nat ((sz - 16) / 4)) with (length compat).
  2: { subst sz. replace (16 + 4 * Z.of_nat (length compat) - 16)
         with (Z.of_nat (length compat) * 4) by lia.
       rewrite Z.div_mul by lia. lia. }
  rewrite ftyp_compat_stream_at by assumption.
  rewrite (u32_small minor) by lia.
  f_equal. f_equal.
  assert (Hcat : Z.of_nat (length (concat compat)) = 4 * Z.of_nat (length compat)).
  { clear - Hall. induction Hall as [| w ws Hw _ IH]; [reflexivity |].
    cbn [concat length]. rewrite length_app, Hw. lia. }
  unfold stream_at, good_stream, seekg, sentry, good.
  cbn [is_data is_pos is_eofbit is_failbit negb andb].
  rewrite (u64_small (Z.of_nat (length c))) by lia.
  unfold s64. rewrite u64_small by lia.
  destruct (Z.ltb_spec (Z.of_nat (length c) + sz - 8) (2 ^ 63)); [| lia].
  destruct (Z.ltb_spec (Z.of_nat (length c) + sz - 8) 0); [lia |].
  rewrite <- !app_assoc. f_equal.
  rewrite !length_app. cbn [length bytes32]. rewrite !Nat2Z.inj_add. lia.
Qed.

(** *** Which branch [createBox] takes *)

Lemma createBox_leaf t : In t full_buf_types ->
  forall lp sz s, createBox lp t sz s = FullBufBox_parse t sz s.
Proof.
  unfold full_buf_types. simpl.
  intros H lp sz s.
  repeat (destruct H as [<- | H]; [reflexivity |]). contradiction.
Qed.

Lemma has_child_cases type :
  has_child type = true -> length type = 4%nat ->
  In type [BOX_MOOV; BOX_TRAK; BOX_DTS; BOX_MDIA; BOX_MINF; BOX_STBL; BOX_UDTA].
Proof.
  unfold has_child. intros H Hlen.
  repeat (apply orb_true_iff in H as [H | H]);
    (apply chktype_eq in H; [subst type; simpl; tauto | assumption | reflexivity]).
Qed.

Lemma createBox_container type : has_child type = true -> length type = 4%nat ->
  forall lp sz s, createBox lp type sz s = lp type sz s.
Proof.
  intros H Hlen lp sz s. apply has_child_cases in H; [| assumption].
  simpl in H.
  repeat (destruct H as [<- | H]; [reflexivity |]). contradiction.
Qed.

Lemma createBox_unknown type : is_unknown_type type = true ->
  forall lp sz s, sz <= 1024 * 1024 * 10 ->
  createBox lp type sz s = UnknownBox_parse type sz s.
Proof.
  unfold is_unknown_type. intros H lp sz s Hsz.
  split_andb H.
  apply negb_true_iff in H, H2, H3, H0.
  unfold createBox. rewrite H, H3, H2, H0.
  destruct (find (chktype type) full_buf_types); [discriminate |].
  destruct (Z.ltb_spec (1024 * 1024 * 10) sz); [lia | reflexivity].
Qed.

(** *** The nodes without children *)

Lemma forallb_length4 (compat : list (list byte)) :
  forallb (fun w => (length w =? 4)%nat) compat = true ->
  Forall (fun w => length w = 4%nat) compat.
Proof.
  intros H. apply Forall_forall. intros w Hw.
  rewrite forallb_forall in H. apply Nat.eqb_eq. apply H. exact Hw.
Qed.

Lemma concat_length4 (compat : list (list byte)) :
  Forall (fun w => length w = 4%nat) compat ->
  Z.of_nat (length (concat compat)) = 4 * Z.of_nat (length compat).
Proof.
  intros Hall. induction Hall as [| w ws Hw _ IH]; [reflexivity |].
  cbn [concat length]. rewrite length_app, Hw. lia.
Qed.

Lemma reads_back_FTYP size major minor compat :
  well_formed (BoxFTYP size major minor compat) = true ->
  reads_back (BoxFTYP size major minor compat).
Proof.
  cbn [well_formed]. intros H. split_andb H.
  apply Nat.eqb_eq in H. apply fits_spec in H3. apply forallb_length4 in H2.
  apply Z.eqb_eq in H1. apply Z.ltb_lt in H0.
  pose proof (concat_length4 compat H2) as Hcat.
  unfold reads_back. cbn [box_size box_type nodes length].
  split; [lia |]. split; [reflexivity |].
  exists (major ++ bytes32 (u32 minor) ++ concat compat).
  split; [rewrite !length_app; cbn [length bytes32];
          rewrite !Nat2Z.inj_add, H, Hcat; lia |].
  split.
  - intros os. cbn [write]. unfold Box_write, write32.
    change (firstn 4 BOX_FTYP) with BOX_FTYP.
    rewrite (firstn_all2 major) by lia.
    rewrite !os_write_app, <- ?app_assoc. reflexivity.
  - intros fuel pre post _ Hpos.
    change (createBox (BoxSimpleList_parse (parse_children fuel)) BOX_FTYP size)
      with (BoxFTYP_parse size).
    apply BoxFTYP_parse_body; try assumption.
    rewrite !length_app. cbn [length bytes32]. change (length BOX_FTYP) with 4%nat. lia.
Qed.

Lemma reads_back_FREE size body :
  well_formed (BoxFREE size body) = true -> reads_back (BoxFREE size body).
Proof.
  cbn [well_formed]. intros H. split_andb H.
  apply Z.eqb_eq in H. apply Z.ltb_lt in H0.
  unfold reads_back. cbn [box_size box_type nodes length].
  split; [lia |]. split; [reflexivity |].
  exists body. split; [lia |]. split.
  - intros os. cbn [write]. rewrite bytes32_u32.
    apply body_written; [lia | lia | reflexivity].
  - intros fuel pre post _ Hpos.
    change (createBox (BoxSimpleList_parse (parse_children fuel)) BOX_FREE size)
      with (BoxFREE_parse size).
    apply BoxFREE_parse_body; lia.
Qed.

Lemma reads_back_UnknownBox type size body :
  well_formed (UnknownBox type size body) = true -> reads_back (UnknownBox type size body).
Proof.
  cbn [well_formed]. intros H. split_andb H.
  apply Nat.eqb_eq in H. apply Z.eqb_eq in H1. apply Z.leb_le in H0.
  unfold reads_back. cbn [box_size box_type nodes length].
  split; [lia |]. split; [assumption |].
  exists body. split; [lia |]. split.
  - intros os. cbn [write]. rewrite bytes32_u32.
    apply body_written; [lia | lia | assumption].
  - intros fuel pre post _ Hpos.
    rewrite createBox_unknown by assumption.
    apply UnknownBox_parse_body; lia.
Qed.

Lemma is_leaf_type_In t : is_leaf_type t = true -> In t full_buf_types.
Proof.
  unfold is_leaf_type. rewrite existsb_exists. intros (x & Hin & Hx).
  destruct (list_eq_dec Byte.byte_eq_dec t x); [subst; assumption | discriminate].
Qed.

Lemma reads_back_Leaf l :
  well_formed (BoxLeaf l) = true -> reads_back (BoxLeaf l).
Proof.
  destruct l as [type size version flags buf].
  cbn [well_formed fb_type fb_size fb_version fb_flags fb_buf]. intros H. split_andb H.
  apply is_leaf_type_In in H. apply fits_spec in H3, H2.
  apply Z.eqb_eq in H1. apply Z.ltb_lt in H0.
  pose proof (full_buf_types_length type H) as Hlen.
  unfold reads_back. cbn [box_size box_type nodes length fb_type fb_size].
  split; [lia |]. split; [assumption |].
  exists (bytes8 (u8 version) ++ bytes24 (u32 flags) ++ buf).
  split; [rewrite !length_app; cbn [length bytes8 bytes24]; lia |].
  split.
  - intros os. cbn [write fb_type fb_size fb_version fb_flags fb_buf].
    unfold FullBox_write, Box_write, write8, write24, write32.
    rewrite (firstn_all2 type) by lia.
    destruct (Z.ltb_spec 8 size); [| lia].
    unfold write_vec. rewrite u64_small by lia.
    destruct (Z.leb_spec (size - 12) (Z.of_nat (length buf))); [| lia].
    rewrite firstn_all2 by lia.
    rewrite !os_write_app, <- ?app_assoc. reflexivity.
  - intros fuel pre post _ Hpos.
    rewrite createBox_leaf by assumption.
    apply FullBufBox_parse_body; lia.
Qed.

Lemma reads_back_MVHD size version flags created modified timeScale duration rate
      volume buf :
  well_formed (BoxMVHD size version flags created modified timeScale duration rate
                       volume buf) = true ->
  reads_back (BoxMVHD size version flags created modified timeScale duration rate
                      volume buf).
Proof.
  cbn [well_formed]. intros H. split_andb H.
  apply Z.eqb_eq in H. subst version.
  apply fits_spec in H8, H7, H6, H5, H4, H3, H2.
  apply Z.eqb_eq in H1. apply Z.ltb_lt in H0.
  unfold reads_back. cbn [box_size box_type nodes length].
  split; [lia |]. split; [reflexivity |].
  exists (bytes8 (u8 0) ++ bytes24 (u32 flags) ++ bytes32 (u32 created)
          ++ bytes32 (u32 modified) ++ bytes32 (u32 timeScale)
          ++ bytes32 (u32 duration) ++ bytes32 (u32 rate)
          ++ bytes32 (u32 volume) ++ buf).
  split; [rewrite !length_app; cbn [length bytes8 bytes24 bytes32]; lia |].
  split.
  - intros os. cbn [write].
    unfold FullBox_write, Box_write, write8, write24, write32.
    change (firstn 4 BOX_MVHD) with BOX_MVHD.
    rewrite !os_write_app, <- ?app_assoc. reflexivity.
  - intros fuel pre post _ Hpos.
    change (createBox (BoxSimpleList_parse (parse_children fuel)) BOX_MVHD size)
      with (BoxMVHD_parse size).
    apply BoxMVHD_parse_body; lia.
Qed.

(** *** The children of a container *)

Lemma write_list type size cs os :
  write (BoxSimpleList type size cs) os = write_children cs (Box_write size type os).
Proof.
  cbn [write]. generalize (Box_write size type os) as o.
  induction cs as [| c cs IH]; intros o; [reflexivity |].
  cbn [write_children]. destruct (write c o) as [o' | e]; cbn [bind]; [apply IH | reflexivity].
Qed.

Lemma written_eq b bs :
  (forall os, write b os = Ok (os_write os bs)) -> written b = bs.
Proof. intros H. unfold written. rewrite H. reflexivity. Qed.

Lemma nodes_nonempty b : (1 <= length (nodes b))%nat.
Proof. destruct b; cbn [nodes length]; lia. Qed.

(** One turn of the loop of [BoxSimpleList::parse] on the bytes of a node
    that reads back. *)
Lemma parse_children_step b :
  reads_back b ->
  (forall os, write b os = Ok (os_write os (written b))) /\
  Z.of_nat (length (written b)) = box_size b /\
  forall fuel pos pre post acc,
    (length (nodes b) <= fuel)%nat ->
    Z.of_nat (length pre) < pos ->
    Z.of_nat (length pre) + box_size b < 2 ^ 63 ->
    parse_children (S fuel) pos (stream_at pre (written b ++ post)) acc
    = parse_children fuel pos (stream_at (pre ++ written b) post) (acc ++ [b]).
Proof.
  intros (Hsz & Hty & payload & Hlen & Hw & Hp).
  pose proof (written_eq b _ Hw) as E. rewrite E.
  split; [exact Hw |]. split.
  { rewrite !length_app, Hty. cbn [length bytes32]. lia. }
  intros fuel pos pre post acc Hfuel Hpos Hbound.
  cbn [parse_children]. rewrite tellg_stream_at.
  rewrite u64_small by lia.
  destruct (Z.ltb_spec (Z.of_nat (length pre)) pos); [| lia].
  rewrite <- !app_assoc. rewrite read32_bytes32.
  replace (repeat Byte.x00 4) with (repeat Byte.x00 (length (box_type b)))
    by (rewrite Hty; reflexivity).
  rewrite read_into_stream_at by lia.
  cbn [stream_at good_stream is_eofbit].
  rewrite (u32_small (box_size b)) in * by lia.
  rewrite <- app_assoc.
  rewrite (Hp fuel pre post Hfuel Hbound). cbn [bind].
  rewrite <- !app_assoc. reflexivity.
Qed.

Lemma parse_children_all : forall cs,
  Forall reads_back cs ->
  forall fuel pos pre post acc,
    (length (flat_map nodes cs) < fuel)%nat ->
    Z.of_nat (length pre) + sum_sizes cs <= pos ->
    Z.of_nat (length pre) + sum_sizes cs < 2 ^ 63 ->
    parse_children fuel pos (stream_at pre (concat (map written cs) ++ post)) acc
    = parse_children (fuel - length cs) pos
        (stream_at (pre ++ concat (map written cs)) post) (acc ++ cs).
Proof.
  induction cs as [| c cs IH]; intros Hall fuel pos pre post acc Hfuel Hpos Hbound.
  - cbn. rewrite !app_nil_r, Nat.sub_0_r. reflexivity.
  - inversion Hall as [| ? ? Hc Hcs]; subst.
    pose proof Hc as (Hsz & _).
    destruct (parse_children_step c Hc) as (_ & Hlen & Hstep).
    assert (Hrest : 0 <= sum_sizes cs).
    { clear - Hcs. induction Hcs as [| x xs Hx _ IHx]; [simpl; lia |].
      destruct Hx as [? _]. cbn [sum_sizes fold_right] in *. fold (sum_sizes xs). lia. }
    cbn [sum_sizes fold_right] in Hpos, Hbound. fold (sum_sizes cs) in Hpos, Hbound.
    cbn [flat_map] in Hfuel. rewrite length_app in Hfuel.
    pose proof (nodes_nonempty c).
    destruct fuel as [| fuel]; [lia |].
    cbn [map concat length]. rewrite <- app_assoc.
    rewrite Hstep by lia.
    rewrite IH; try assumption; try lia.
    + rewrite <- !app_assoc. cbn [app]. reflexivity.
    + rewrite length_app. lia.
    + rewrite length_app. lia.
Qed.

Lemma write_children_written : forall cs os,
  Forall reads_back cs ->
  write_children cs os = Ok (os_write os (concat (map written cs))).
Proof.
  induction cs as [| c cs IH]; intros os Hall.
  - cbn. unfold os_write. destruct os as [bs [|]]; cbn; rewrite ?app_nil_r; reflexivity.
  - inversion Hall as [| ? ? Hc Hcs]; subst.
    destruct (parse_children_step c Hc) as (Hw & _ & _).
    cbn [write_children map concat]. rewrite Hw. cbn [bind].
    rewrite IH by assumption. rewrite os_write_app. reflexivity.
Qed.

Lemma written_length : forall cs,
  Forall reads_back cs ->
  Z.of_nat (length (concat (map written cs))) = sum_sizes cs.
Proof.
  induction cs as [| c cs IH]; intros Hall; [reflexivity |].
  inversion Hall as [| ? ? Hc Hcs]; subst.
  destruct (parse_children_step c Hc) as (_ & Hlen & _).
  cbn [map concat sum_sizes fold_right]. fold (sum_sizes cs).
  rewrite length_app, Nat2Z.inj_add, Hlen, IH by assumption. reflexivity.
Qed.

Lemma flat_map_nodes_length cs : (length cs <= length (flat_map nodes cs))%nat.
Proof.
  induction cs as [| c cs IH]; [reflexivity |].
  cbn [flat_map length]. rewrite length_app. pose proof (nodes_nonempty c). lia.
Qed.

Lemma reads_back_list type size cs :
  Forall reads_back cs ->
  well_formed (BoxSimpleList type size cs) = true ->
  reads_back (BoxSimpleList type size cs).
Proof.
  intros Hall. cbn [well_formed]. intros H. split_andb H.
  apply Nat.eqb_eq in H. apply Z.eqb_eq in H1. apply Z.ltb_lt in H0.
  pose proof (written_length cs Hall) as Hlen.
  assert (Hrest : 0 <= sum_sizes cs) by lia.
  unfold reads_back. cbn [box_size box_type].
  split; [lia |]. split; [assumption |].
  exists (concat (map written cs)).
  split; [lia |]. split.
  - intros os. rewrite write_list, write_children_written by assumption.
    unfold Box_write, write32. rewrite (firstn_all2 type) by lia.
    rewrite !os_write_app, <- ?app_assoc. reflexivity.
  - intros fuel pre post Hfuel Hpos.
    cbn [nodes length] in Hfuel.
    pose proof (flat_map_nodes_length cs).
    rewrite createBox_container by assumption.
    unfold BoxSimpleList_parse. rewrite tellg_stream_at.
    assert (Hhdr : Z.of_nat (length (pre ++ bytes32 (u32 size) ++ type))
                   = Z.of_nat (length pre) + 8)
      by (rewrite !length_app, H; cbn [length bytes32]; lia).
    rewrite (u64_small (Z.of_nat _)) by lia.
    rewrite u64_small by lia.
    rewrite parse_children_all by (assumption || lia).
    destruct (fuel - length cs)%nat as [| k] eqn:Ek; [lia |].
    cbn [parse_children]. rewrite tellg_stream_at.
    rewrite u64_small by (rewrite length_app; lia).
    destruct (Z.ltb_spec (Z.of_nat (length ((pre ++ bytes32 (u32 size) ++ type)
                                             ++ concat (map written cs))))
                         (Z.of_nat (length (pre ++ bytes32 (u32 size) ++ type)) + size - 8));
      [rewrite length_app in *; lia |].
    cbn [bind app]. do 2 f_equal.
    unfold stream_at, good_stream, seekg, sentry, good.
    cbn [is_data is_pos is_eofbit is_failbit negb andb].
    unfold s64. rewrite u64_small by lia.
    destruct (Z.ltb_spec (Z.of_nat (length (pre ++ bytes32 (u32 size) ++ type)) + size - 8)
                         (2 ^ 63)); [| lia].
    destruct (Z.ltb_spec (Z.of_nat (length (pre ++ bytes32 (u32 size) ++ type)) + size - 8) 0);
      [lia |].
    f_equal. rewrite (length_app (pre ++ _)). lia.
Qed.

(** Every well-formed node reads back. *)
Lemma well_formed_reads_back : forall b, well_formed b = true -> reads_back b.
Proof.
  induction b as [b Hb | type size cs IH] using Box_nested_ind.
  - destruct b; try (exfalso; eapply Hb; reflexivity); intros H.
    + apply reads_back_FTYP. exact H.
    + apply reads_back_FREE. exact H.
    + apply reads_back_MVHD. exact H.
    + apply reads_back_Leaf. exact H.
    + discriminate.
    + apply reads_back_UnknownBox. exact H.
  - intros H. apply reads_back_list; [| exact H].
    cbn [well_formed] in H. split_andb H.
    rewrite forallb_forall in H2.
    rewrite Forall_forall in *. intros c Hc. apply IH; [exact Hc | apply H2; exact Hc].
Qed.

(** *** The whole file *)

Lemma read_at_end file n :
  0 < n ->
  read n (stream_at file [])
  = ([], mkIstream (file ++ []) (Z.of_nat (length file)) true true).
Proof.
  intros Hn. unfold read, stream_at, good_stream, sentry, good.
  cbn [is_data is_pos is_eofbit is_failbit negb andb].
  rewrite Nat2Z.id, app_nil_r, skipn_all, firstn_nil. cbn [length].
  destruct (Z.ltb_spec (Z.of_nat 0) n); [| lia].
  rewrite Z.add_0_r. reflexivity.
Qed.

(** X17: a list of well-formed top-level boxes (fields within their widths,
    declared sizes equal to header plus content, a movie header of version
    0, no skipped box) of less than 2 GiB in all is written without error,
    and [Mp4Root::parse], given more fuel than there are nodes, decodes the
    bytes written back into the same trees; so decoding such a file and
    writing the tree again reproduces the file. *)
Theorem written_tree_is_decoded_back (children : list Box) (fuel : nat) :
  forallb well_formed children = true ->
  sum_sizes children < 2 ^ 31 - 9 ->
  (length (flat_map nodes children) < fuel)%nat ->
  exists file s',
    Mp4Root_write children (mkOstream [] false) = Ok (mkOstream file false) /\
    Mp4Root_parse fuel (good_stream file 0)
    = Ok (BoxSimpleList (tag "ROOT") 2147483647 children, s').
Proof.
  intros Hwf Hsize Hfuel.
  assert (Hall : Forall reads_back children).
  { rewrite forallb_forall in Hwf. apply Forall_forall. intros c Hc.
    apply well_formed_reads_back. apply Hwf. exact Hc. }
  pose proof (written_length children Hall) as Hlen.
  pose proof (flat_map_nodes_length children) as Hn.
  exists (concat (map written children)). eexists.
  split.
  { unfold Mp4Root_write. rewrite write_children_written by assumption. reflexivity. }
  unfold Mp4Root_parse, BoxSimpleList_parse.
  change (good_stream (concat (map written children)) 0)
    with (stream_at [] (concat (map written children))).
  rewrite tellg_stream_at. cbn [length].
  change (u64 (u64 (Z.of_nat 0) + 2147483647 - 8)) with 2147483639.
  rewrite <- (app_nil_r (concat (map written children))) at 1.
  rewrite parse_children_all; try assumption; cbn [length]; try lia.
  destruct (fuel - length children)%nat as [| k] eqn:Ek; [lia |].
  cbn [parse_children app]. rewrite tellg_stream_at.
  rewrite u64_small by lia.
  destruct (Z.ltb_spec (Z.of_nat (length (concat (map written children)))) 2147483639);
    [| lia].
  unfold read32, read_into. rewrite read_at_end by lia.
  cbn [bind]. reflexivity.
Qed.

Lemma written_tree_is_decoded_back_witness :
  exists file s',
    Mp4Root_write example_tree (mkOstream [] false) = Ok (mkOstream file false) /\
    Mp4Root_parse 40 (good_stream file 0)
    = Ok (BoxSimpleList (tag "ROOT") 2147483647 example_tree, s').
Proof.
  apply (written_tree_is_decoded_back example_tree 40).
  - vm_compute. reflexivity.
  - vm_compute. reflexivity.
  - vm_compute. lia.
Defined.
(** ** The classes of the decoded nodes *)

Lemma not_leaf_type_ok b :
  (forall t, In t full_buf_types -> chktype (box_type b) t = false) -> class_ok b.
Proof. intros H t Hin Hchk. rewrite (H t Hin) in Hchk. discriminate. Qed.

Lemma fixed_types_not_leaf t :
  In t full_buf_types ->
  chktype BOX_FTYP t = false /\ chktype BOX_FREE t = false /\
  chktype BOX_MVHD t = false /\ chktype (tag "ROOT") t = false.
Proof.
  unfold full_buf_types. simpl. intros H.
  repeat (destruct H as [<- | H]; [repeat split |]). contradiction.
Qed.

Lemma find_none_not_leaf type :
  find (chktype type) full_buf_types = None ->
  forall t, In t full_buf_types -> chktype type t = false.
Proof. intros H t Hin. exact (find_none _ _ H t Hin). Qed.

Lemma tree_ok_list type size cs :
  class_ok (BoxSimpleList type size cs) -> Forall tree_ok cs ->
  tree_ok (BoxSimpleList type size cs).
Proof.
  intros Hc Hall. unfold tree_ok. cbn [nodes]. constructor; [exact Hc |].
  clear Hc. induction Hall as [| c cs' Hcok _ IH]; [constructor |].
  cbn [flat_map]. apply Forall_app. split; [exact Hcok | exact IH].
Qed.

Lemma createBox_tree_ok lp type sz s b s' :
  (forall ty sz0 s0 b0 s1, lp ty sz0 s0 = Ok (b0, s1) ->
                           find (chktype ty) full_buf_types = None -> tree_ok b0) ->
  createBox lp type sz s = Ok (b, s') -> tree_ok b.
Proof.
  intros Hlp. unfold createBox.
  destruct (chktype type BOX_FTYP).
  { unfold BoxFTYP_parse. destruct (tellg s) as [p s0].
    destruct (read_into _ _ s0) as [major s1]. destruct (read32 s1) as [minor s2].
    destruct (sz <? 16); [discriminate |].
    destruct (ftyp_compat _ s2 []) as [compat s3].
    intros H. injection H as <- _. repeat constructor.
    apply not_leaf_type_ok. intros t Ht. apply (fixed_types_not_leaf t Ht). }
  destruct (chktype type BOX_FREE).
  { unfold BoxFREE_parse. destruct (vec_resize _ _) as [v | e]; [| discriminate].
    cbn [bind]. destruct (read_into v _ s) as [body s0].
    intros H. injection H as <- _. repeat constructor.
    apply not_leaf_type_ok. intros t Ht. apply (fixed_types_not_leaf t Ht). }
  destruct (chktype type BOX_MVHD).
  { unfold BoxMVHD_parse. destruct (tellg s) as [p s0].
    destruct (read8 s0) as [version s1]. destruct (read24 s1) as [flags s2].
    assert (Hok : forall sz v f c m t d r vo bf, tree_ok (BoxMVHD sz v f c m t d r vo bf)).
    { intros. repeat constructor. apply not_leaf_type_ok.
      intros t0 Ht. apply (fixed_types_not_leaf t0 Ht). }
    destruct (negb (version =? 0)).
    { intros H. injection H as <- _. apply Hok. }
    repeat match goal with
           | |- context [read32 ?x] => destruct (read32 x)
           end.
    destruct (vec_resize _ _) as [v | e]; [| discriminate]. cbn [bind].
    destruct (read_into v _ _) as [bf s9].
    intros H. injection H as <- _. apply Hok. }
  destruct (find (chktype type) full_buf_types) as [t0 |] eqn:Efind.
  { apply find_some in Efind as [Hin _].
    unfold FullBufBox_parse. destruct (vec_resize _ _) as [v | e]; [| discriminate].
    cbn [bind]. destruct (read8 s) as [version s1]. destruct (read24 s1) as [flags s2].
    destruct (read_into v _ s2) as [bf s3].
    intros H. injection H as <- _. repeat constructor.
    intros t Ht Hchk. cbn [box_type fb_type] in Hchk.
    eexists. split; [reflexivity |]. cbn [fb_type].
    apply chktype_eq; [apply full_buf_types_length | apply full_buf_types_length |];
      assumption. }
  destruct (has_child type).
  { intros H. eapply Hlp; eassumption. }
  pose proof (find_none_not_leaf type Efind) as Hnl.
  destruct (1024 * 1024 * 10 <? sz).
  - unfold UnknownBoxRef_parse. destruct (tellg s) as [o s0].
    intros H. injection H as <- _. repeat constructor. apply not_leaf_type_ok. exact Hnl.
  - unfold UnknownBox_parse. destruct (vec_resize _ _) as [v | e]; [| discriminate].
    cbn [bind]. destruct (read_into v _ s) as [body s0].
    intros H. injection H as <- _. repeat constructor. apply not_leaf_type_ok. exact Hnl.
Qed.

Lemma parse_children_tree_ok : forall fuel pos s acc res s',
  parse_children fuel pos s acc = Ok (res, s') ->
  Forall tree_ok acc -> Forall tree_ok res.
Proof.
  induction fuel as [| fuel IH]; intros pos s acc res s' H Hacc; [discriminate |].
  cbn [parse_children] in H.
  destruct (tellg s) as [p s0].
  destruct (u64 p <? pos).
  2: { injection H as <- _. exact Hacc. }
  destruct (read32 s0) as [sz s1].
  destruct (read_into _ _ s1) as [type s2].
  destruct (is_eofbit s2).
  { injection H as <- _. exact Hacc. }
  destruct (createBox _ type sz s2) as [[b s3] | e] eqn:Ecreate; [| discriminate].
  cbn [bind] in H.
  apply (IH _ _ _ _ _ H). apply Forall_app. split; [exact Hacc |].
  constructor; [| constructor].
  refine (createBox_tree_ok _ _ _ _ _ _ _ Ecreate).
  intros ty sz0 s0' b0 s1' Hp Hf.
  unfold BoxSimpleList_parse in Hp. destruct (tellg s0') as [p' s4].
  destruct (parse_children fuel _ s4 []) as [[cs s5] | e] eqn:Ecs; [| discriminate].
  cbn [bind] in Hp. injection Hp as <- _.
  apply tree_ok_list.
  - apply not_leaf_type_ok. exact (find_none_not_leaf ty Hf).
  - exact (IH _ _ _ _ _ Ecs (Forall_nil _)).
Qed.

Lemma nodes_self b : In b (nodes b).
Proof. destruct b; cbn [nodes]; left; reflexivity. Qed.

Lemma nodes_trans : forall a b r, In b (nodes a) -> In r (nodes b) -> In r (nodes a).
Proof.
  induction a as [a Ha | type size cs IH] using Box_nested_ind; intros b r Hb Hr.
  - destruct a; try (exfalso; eapply Ha; reflexivity);
      cbn [nodes] in Hb; destruct Hb as [<- | []]; exact Hr.
  - cbn [nodes] in Hb. destruct Hb as [<- | Hb]; [exact Hr |].
    cbn [nodes]. right.
    apply in_flat_map in Hb as (c & Hc & Hb).
    apply in_flat_map. exists c. split; [exact Hc |].
    rewrite Forall_forall in IH. exact (IH c Hc b r Hb Hr).
Qed.

Lemma hd_error_filter {A : Type} (f : A -> bool) (l : list A) (x : A) :
  hd_error (filter f l) = Some x -> In x l /\ f x = true.
Proof.
  intros H. apply filter_In.
  destruct (filter f l) as [| y ys]; [discriminate |].
  injection H as ->. left. reflexivity.
Qed.

(** X18: in a tree that [Mp4Root::parse] has built, looking one of the ten
    leaf types (mdhd, tkhd, hdlr, stsc, stsd, stss, stsz, stco, stts, ctts)
    up in any node finds either nothing or a node of the leaf class with
    that type: the casts that [main] applies to the results of [findByType]
    meet the class they name. *)
Theorem decoded_leaf_lookup_is_a_leaf (fuel : nat) (s s' : istream) (mp4 b r : Box)
        (t : list byte) :
  Mp4Root_parse fuel s = Ok (mp4, s') ->
  In b (nodes mp4) -> In t full_buf_types ->
  findByType b t = Some r ->
  exists l, r = BoxLeaf l /\ fb_type l = t.
Proof.
  intros Hparse Hb Ht Hfind.
  rewrite findByType_first, findAllByType_filter in Hfind.
  apply hd_error_filter in Hfind as [Hr Hchk].
  pose proof (nodes_trans mp4 b r Hb Hr) as Hin.
  unfold Mp4Root_parse, BoxSimpleList_parse in Hparse.
  destruct (tellg s) as [p s0].
  destruct (parse_children fuel _ s0 []) as [[cs s1] | e] eqn:Ecs; [| discriminate].
  cbn [bind] in Hparse. injection Hparse as <- _.
  pose proof (parse_children_tree_ok _ _ _ _ _ _ Ecs (Forall_nil _)) as Hall.
  cbn [nodes] in Hin. destruct Hin as [<- | Hin].
  - cbn [box_type] in Hchk.
    destruct (fixed_types_not_leaf t Ht) as (_ & _ & _ & Hroot). congruence.
  - apply in_flat_map in Hin as (c & Hc & Hin).
    rewrite Forall_forall in Hall. specialize (Hall c Hc).
    unfold tree_ok in Hall. rewrite Forall_forall in Hall.
    exact (Hall r Hin t Ht Hchk).
Qed.

Lemma decoded_leaf_lookup_witness :
  exists l, BoxLeaf (table_of_words BOX_STSZ [0; 2; 6; 6]) = BoxLeaf l /\
            fb_type l = BOX_STSZ.
Proof.
  apply (decoded_leaf_lookup_is_a_leaf 4
           (good_stream (box BOX_MOOV (box BOX_STSZ (concat (map bytes32 [0; 0; 2; 6; 6])))) 0)
           (seekg 2147483639
                  (snd (read_into (repeat Byte.x00 4) 4
                          (snd (read32 (good_stream
                             (box BOX_MOOV (box BOX_STSZ (concat (map bytes32 [0; 0; 2; 6; 6]))))
                             36))))))
           (BoxSimpleList (tag "ROOT") 2147483647
              [BoxSimpleList BOX_MOOV 36 [BoxLeaf (table_of_words BOX_STSZ [0; 2; 6; 6])]])
           (BoxSimpleList BOX_MOOV 36 [BoxLeaf (table_of_words BOX_STSZ [0; 2; 6; 6])])
           (BoxLeaf (table_of_words BOX_STSZ [0; 2; 6; 6]))
           BOX_STSZ).
  - vm_compute. reflexivity.
  - vm_compute. right. left. reflexivity.
  - vm_compute. tauto.
  - vm_compute. reflexivity.
Defined.
(** ** Edges of the decoder *)

(** X20: a box of a type that [createBox] does not know, not a container,
    with a declared size above 10 MiB is not loaded: the node records the
    offset of its payload, and the cursor is set behind the declared size
    whatever the stream holds there, even when the stream ends before. *)
Theorem large_unknown_box_is_skipped
        (list_parse : list byte -> Z -> istream -> res (Box * istream))
        (type : list byte) (sz : Z) (pre rest : list byte) :
  is_unknown_type type = true ->
  1024 * 1024 * 10 < sz < 2 ^ 32 ->
  Z.of_nat (length pre) + sz < 2 ^ 63 ->
  createBox list_parse type sz (stream_at pre rest)
  = Ok (UnknownBoxRef type sz (Z.of_nat (length pre)),
        good_stream (pre ++ rest) (Z.of_nat (length pre) + sz - 8)).
Proof.
  unfold is_unknown_type. intros H Hsz Hpos.
  split_andb H.
  apply negb_true_iff in H, H2, H3, H0.
  unfold createBox. rewrite H, H3, H2, H0.
  destruct (find (chktype type) full_buf_types); [discriminate |].
  destruct (Z.ltb_spec (1024 * 1024 * 10) sz); [| lia].
  unfold UnknownBoxRef_parse. rewrite tellg_stream_at.
  rewrite u64_small by lia.
  unfold s64. rewrite u64_small by lia.
  destruct (Z.ltb_spec (Z.of_nat (length pre) + sz - 8) (2 ^ 63)); [| lia].
  unfold stream_at, good_stream, seekg, sentry, good.
  cbn [is_data is_pos is_eofbit is_failbit negb andb].
  destruct (Z.ltb_spec (Z.of_nat (length pre) + sz - 8) 0); [lia |]. reflexivity.
Qed.

Lemma large_unknown_box_is_skipped_witness :
  createBox (BoxSimpleList_parse (parse_children 1)) (tag "mdat") 16777216
            (stream_at (bytes32 16777216 ++ tag "mdat") [Byte.x01; Byte.x02])
  = Ok (UnknownBoxRef (tag "mdat") 16777216
                      (Z.of_nat (length (bytes32 16777216 ++ tag "mdat"))),
        good_stream ((bytes32 16777216 ++ tag "mdat") ++ [Byte.x01; Byte.x02])
                    (Z.of_nat (length (bytes32 16777216 ++ tag "mdat")) + 16777216 - 8)).
Proof.
  apply (large_unknown_box_is_skipped (BoxSimpleList_parse (parse_children 1))
           (tag "mdat") 16777216 (bytes32 16777216 ++ tag "mdat") [Byte.x01; Byte.x02]).
  - reflexivity.
  - lia.
  - simpl. lia.
Defined.

(** X21: a file of fewer than 8 bytes, too short for one box header,
    (the empty file too) is decoded as a root without children, with no
    error. *)
Theorem short_file_has_no_box (data : list byte) (fuel : nat) :
  (length data < 8)%nat ->
  exists s', Mp4Root_parse (S fuel) (good_stream data 0)
             = Ok (BoxSimpleList (tag "ROOT") 2147483647 [], s').
Proof.
  intros Hlen.
  do 8 (destruct data as [| ? data]; [eexists; reflexivity |]).
  simpl in Hlen. lia.
Qed.

Lemma short_file_has_no_box_witness :
  exists s', Mp4Root_parse 1 (good_stream [Byte.x00; Byte.x00; Byte.x00; Byte.x08; Byte.x66] 0)
             = Ok (BoxSimpleList (tag "ROOT") 2147483647 [], s').
Proof.
  apply (short_file_has_no_box [Byte.x00; Byte.x00; Byte.x00; Byte.x08; Byte.x66] 0).
  simpl. lia.
Defined.

(** A container of declared size 0 ends where its own header starts:
    [BoxSimpleList::parse] seeks back there, and the loop of the parent
    meets the same header again. *)
Lemma zero_size_container_loop (type rest : list byte) :
  has_child type = true -> length type = 4%nat ->
  forall fuel acc,
    parse_children fuel 2147483639 (good_stream (bytes32 0 ++ type ++ rest) 0) acc
    = Err OutOfFuel.
Proof.
  intros Hc Hlen.
  induction fuel as [| fuel IH]; intros acc; [reflexivity |].
  change (good_stream (bytes32 0 ++ type ++ rest) 0)
    with (stream_at [] (bytes32 (u32 0) ++ type ++ rest)).
  cbn [parse_children]. rewrite tellg_stream_at.
  change (u64 (Z.of_nat (length (@nil byte))) <? 2147483639) with true. cbv iota.
  rewrite read32_bytes32.
  replace (repeat Byte.x00 4) with (repeat Byte.x00 (length type))
    by (rewrite Hlen; reflexivity).
  rewrite read_into_stream_at by lia.
  cbn [stream_at good_stream is_eofbit].
  rewrite createBox_container by assumption.
  unfold BoxSimpleList_parse. rewrite tellg_stream_at.
  assert (Hpos : Z.of_nat (length (([] ++ bytes32 (u32 0)) ++ type)) = 8)
    by (rewrite !length_app, Hlen; reflexivity).
  rewrite Hpos. change (u64 (u64 8 + u32 0 - 8)) with 0.
  destruct fuel as [| fuel']; [reflexivity |].
  cbn [parse_children]. rewrite tellg_stream_at, Hpos.
  change (u64 8 <? 0) with false. cbv iota. cbn [bind].
  change (seekg (s64 0) (stream_at (([] ++ bytes32 (u32 0)) ++ type) rest))
    with (good_stream (bytes32 0 ++ type ++ rest) 0).
  apply IH.
Qed.

(** X22: on a file that starts with a container box (moov, trak, mdia,
    minf, stbl, udta or dts) of declared size 0, [Mp4Root::parse] does not
    end: whatever the step budget, it runs out. *)
Theorem zero_size_container_never_ends (type rest : list byte) (fuel : nat) :
  has_child type = true -> length type = 4%nat ->
  Mp4Root_parse fuel (good_stream (bytes32 0 ++ type ++ rest) 0) = Err OutOfFuel.
Proof.
  intros Hc Hlen. unfold Mp4Root_parse, BoxSimpleList_parse.
  change (tellg (good_stream (bytes32 0 ++ type ++ rest) 0))
    with (0, good_stream (bytes32 0 ++ type ++ rest) 0).
  cbv beta iota.
  change (u64 (u64 0 + 2147483647 - 8)) with 2147483639.
  rewrite (zero_size_container_loop type rest Hc Hlen fuel []). reflexivity.
Qed.

Lemma zero_size_container_never_ends_witness :
  Mp4Root_parse 1000 (good_stream (bytes32 0 ++ BOX_MOOV ++ [Byte.x00]) 0) = Err OutOfFuel.
Proof.
  apply (zero_size_container_never_ends BOX_MOOV [Byte.x00] 1000); reflexivity.
Defined.

(** ** The decoder configuration in the sample description *)

Lemma string_find_found pat post : forall pre pos,
  (forall k, (k < length pre)%nat -> ~ occurs_at pat (pre ++ pat ++ post) k) ->
  string_find (pre ++ pat ++ post) pat pos = Some (pos + length pre)%nat.
Proof.
  induction pre as [| a pre IH]; intros pos Hno.
  - cbn [app length]. rewrite Nat.add_0_r.
    destruct (pat ++ post) as [| x xs] eqn:E.
    + cbn [string_find]. destruct pat; [| discriminate].
      cbn. destruct (list_eq_dec Byte.byte_eq_dec [] []); [reflexivity | contradiction].
    + cbn [string_find]. rewrite <- E.
      rewrite firstn_app, Nat.sub_diag, firstn_all. cbn [firstn]. rewrite app_nil_r.
      destruct (list_eq_dec Byte.byte_eq_dec pat pat); [reflexivity | contradiction].
  - cbn [app string_find].
    destruct (list_eq_dec Byte.byte_eq_dec
                (firstn (length pat) (a :: pre ++ pat ++ post)) pat) as [E | _].
    + exfalso. apply (Hno 0%nat); [cbn [length]; lia | exact E].
    + rewrite IH.
      * cbn [length]. f_equal. lia.
      * intros k Hk. specialize (Hno (S k)). cbn [length] in Hno.
        apply Hno. lia.
Qed.

Lemma string_find_none pat : forall s pos,
  (forall k, ~ occurs_at pat s k) -> string_find s pat pos = None.
Proof.
  induction s as [| a s IH]; intros pos Hno.
  - cbn [string_find].
    destruct (list_eq_dec Byte.byte_eq_dec (firstn (length pat) []) pat) as [E | _];
      [| reflexivity].
    exfalso. exact (Hno 0%nat E).
  - cbn [string_find].
    destruct (list_eq_dec Byte.byte_eq_dec (firstn (length pat) (a :: s)) pat) as [E | _].
    + exfalso. exact (Hno 0%nat E).
    + apply IH. intros k. exact (Hno (S k)).
Qed.

(** X23: when the sample description holds the four bytes avcC, the
    configuration that [main] puts in the sequence-header tag is what
    follows their first occurrence, to the end of the description (the
    position is kept in an [int], so it is to be below 2^31). *)
Theorem avc_config_follows_first_avcC (t : Track) (d : FullBufBox)
        (pre config : list byte) :
  stsd t = Some d ->
  BoxSTSD.desc d = Ok (pre ++ tag "avcC" ++ config) ->
  (forall k, (k < length pre)%nat ->
             ~ occurs_at (tag "avcC") (pre ++ tag "avcC" ++ config) k) ->
  Z.of_nat (length pre) + 4 < 2 ^ 31 ->
  avc_config t = Ok config.
Proof.
  intros Hd Hdesc Hno _. unfold avc_config. rewrite Hd. cbn [deref bind].
  rewrite Hdesc. cbn [bind]. unfold find_as_int.
  rewrite string_find_found by assumption. cbn [Nat.add].
  unfold substr.
  assert (Hlen : Z.of_nat (length (pre ++ tag "avcC" ++ config))
                 = Z.of_nat (length pre) + 4 + Z.of_nat (length config))
    by (rewrite !length_app; change (length (tag "avcC")) with 4%nat; lia).
  rewrite Hlen.
  destruct (Z.leb_spec 0 (Z.of_nat (length pre) + 4)); [| lia].
  destruct (Z.leb_spec (Z.of_nat (length pre) + 4)
                       (Z.of_nat (length pre) + 4 + Z.of_nat (length config))); [| lia].
  cbn [andb]. f_equal.
  replace (Z.to_nat (Z.of_nat (length pre) + 4)) with (length pre + 4)%nat by lia.
  rewrite skipn_app, skipn_all2 by lia. cbn [app].
  replace (length pre + 4 - length pre)%nat with 4%nat by lia.
  reflexivity.
Qed.

(** X24: when the sample description does not hold avcC, [find] answers
    [npos], which [main] keeps as the [int] -1: the configuration is then
    the description from its fourth byte on, and a description of fewer than
    3 bytes makes [substr] throw. *)
Theorem avc_config_without_avcC (t : Track) (d : FullBufBox) (desc : list byte) :
  stsd t = Some d ->
  BoxSTSD.desc d = Ok desc ->
  (forall k, ~ occurs_at (tag "avcC") desc k) ->
  avc_config t = if (3 <=? length desc)%nat then Ok (skipn 3 desc) else Err OutOfRange.
Proof.
  intros Hd Hdesc Hno. unfold avc_config. rewrite Hd. cbn [deref bind].
  rewrite Hdesc. cbn [bind]. unfold find_as_int.
  rewrite string_find_none by assumption.
  unfold substr. change (-1 + 4) with 3. change (0 <=? 3) with true. cbn [andb].
  destruct (Nat.leb_spec 3 (length desc)); destruct (Z.leb_spec 3 (Z.of_nat (length desc)));
    try lia; reflexivity.
Qed.

Lemma avc_config_follows_first_avcC_witness :
  avc_config (example_track stsz_per_sample) = Ok [Byte.x01; Byte.x64; Byte.x00].
Proof.
  apply (avc_config_follows_first_avcC (example_track stsz_per_sample) example_stsd
           [Byte.x00; Byte.x00] [Byte.x01; Byte.x64; Byte.x00]).
  - reflexivity.
  - vm_compute. reflexivity.
  - intros k Hk. simpl in Hk.
    destruct k as [| [| k]]; [vm_compute; discriminate | vm_compute; discriminate | lia].
  - simpl. lia.
Defined.

Lemma avc_config_without_avcC_witness :
  avc_config (mkTrack None None None
                (Some (mkFullBufBox BOX_STSD 32 0 0
                         (bytes32 1 ++ bytes32 12 ++ tag "mp4v"
                          ++ [Byte.x01; Byte.x02; Byte.x03; Byte.x04])))
                None None None None)
  = if (3 <=? length [Byte.x01; Byte.x02; Byte.x03; Byte.x04])%nat
    then Ok (skipn 3 [Byte.x01; Byte.x02; Byte.x03; Byte.x04])
    else Err OutOfRange.
Proof.
  apply (avc_config_without_avcC
           (mkTrack None None None
              (Some (mkFullBufBox BOX_STSD 32 0 0
                       (bytes32 1 ++ bytes32 12 ++ tag "mp4v"
                        ++ [Byte.x01; Byte.x02; Byte.x03; Byte.x04])))
              None None None None)
           (mkFullBufBox BOX_STSD 32 0 0
              (bytes32 1 ++ bytes32 12 ++ tag "mp4v"
               ++ [Byte.x01; Byte.x02; Byte.x03; Byte.x04]))
           [Byte.x01; Byte.x02; Byte.x03; Byte.x04]).
  - reflexivity.
  - vm_compute. reflexivity.
  - intros k. do 5 (destruct k as [| k]; [vm_compute; discriminate |]).
    vm_compute. discriminate.
Defined.
(** ** The cursor behind a box, on an example *)

Lemma retained_box_cursor_witness :
  exists b s',
    createBox (BoxSimpleList_parse (parse_children 2)) BOX_FTYP 24
              (stream_at ([] ++ bytes32 24 ++ BOX_FTYP) (ftyp_24_payload ++ []))
    = Ok (b, s') /\
    s' = good_stream ([] ++ (bytes32 24 ++ BOX_FTYP ++ ftyp_24_payload) ++ [])
                     (Z.of_nat (length (@nil byte)) + 24).
Proof.
  eexists. eexists. split.
  - vm_compute. reflexivity.
  - eapply (retained_box_cursor (BoxSimpleList_parse (parse_children 2))
              BOX_FTYP 24 [] ftyp_24_payload [] _ _).
    + lia.
    + reflexivity.
    + reflexivity.
    + simpl. lia.
    + reflexivity.
    + vm_compute. reflexivity.
Defined.
(** ** What [main] needs *)



